(** * ASCII Art Studio: the conversion pipeline, embedded and verified

    The development follows the JavaScript sources of the repository:

    - [Worker]      the conversion worker (ascii-worker.js, first unit);
    - [WasmWorker]  the optimised worker (ascii-worker.js, second unit),
                    of which the colour-string cache is modelled;
    - [Main]        the main-thread script (its own median cut and the
                    dispatcher that builds the worker's settings).
    - [Fallback]    the optimised worker's [applyColorToAscii] on its
                    JavaScript path (no WebAssembly module loaded);
    - [Dispatch]    the dispatcher's answer to the worker's results
                    and errors.

    JavaScript numbers are binary64 floats: they are Rocq's primitive
    floats, and an arithmetic expression of the source that rounds is
    evaluated bit for bit.  Integers that the source keeps in numbers
    (counters, colour channels, packed keys) are [Z]; where an
    operation on them is taken exactly, the comment says why it is
    exact in binary64. *)

From Stdlib Require Import ZArith List String Ascii Bool Lia DecimalString.
From Corelib Require Import PrimFloat SpecFloat FloatOps FloatAxioms.
From stdpp Require Import base option list gmap strings.
Import ListNotations.

Set Warnings "-inexact-float".
Local Open Scope Z_scope.

(** ** JavaScript numbers *)

Module JS.

(** An integer held in a number; exact below 2^53. *)
Definition ofZ (z : Z) : float :=
  SF2Prim (binary_normalize prec emax z 0 false).

(** The value stored by a [Float32Array]: the nearest binary32 value
    (ties to even), read back as a number. *)
Definition fround (x : float) : float :=
  match Prim2SF x with
  | S754_finite s m e =>
      SF2Prim (binary_normalize 24 128 (if s then Zneg m else Zpos m) e s)
  | _ => x
  end.

(** What [Math.floor] and [Math.round] can return: an integer, an
    infinity or NaN.  (The sign of a zero result is not kept: no
    operation of the pipeline tells -0 from 0.) *)
Inductive intnum : Type :=
  | INaN
  | IInf (negative : bool)
  | IInt (z : Z).

Definition toF (i : intnum) : float :=
  match i with
  | INaN => nan
  | IInf false => infinity
  | IInf true => neg_infinity
  | IInt z => ofZ z
  end.

Definition signed (s : bool) (m : positive) : Z :=
  if s then Zneg m else Zpos m.

(** [Math.floor(x * k)] for an integer [k], the product taken exactly.
    The source only multiplies this way a value read from a
    [Float32Array] (24 significant bits) by 255, by 100 or by a string
    length: the binary64 product of such operands is exact, so the
    floor of the exact product is what the source computes.  A finite
    [x] is [signed s m * 2^e]; shifting by a negative amount is the
    floor division by a power of two. *)
Definition floor_times (x : float) (k : Z) : intnum :=
  match Prim2SF x with
  | S754_nan => INaN
  | S754_zero _ => IInt 0
  | S754_infinity s => if k =? 0 then INaN else IInf (xorb s (k <? 0))
  | S754_finite s m e => IInt (Z.shiftl (signed s m * k) e)
  end.

(** [Math.round(x * k)], likewise: the nearest integer, a tie going
    up, which is the floor of the exact product plus one half. *)
Definition round_times (x : float) (k : Z) : intnum :=
  match Prim2SF x with
  | S754_nan => INaN
  | S754_zero _ => IInt 0
  | S754_infinity s => if k =? 0 then INaN else IInf (xorb s (k <? 0))
  | S754_finite s m e =>
      let n := signed s m * k in
      IInt (if 0 <=? e then Z.shiftl n e
            else Z.shiftr (2 * n + 2 ^ (- e)) (- e + 1))
  end.

Definition Math_floor (x : float) : intnum := floor_times x 1.
Definition Math_round (x : float) : intnum := round_times x 1.

(** [Math.min] and [Math.max] on numbers: NaN is contagious. *)
Definition Math_min (a b : float) : float :=
  if is_nan a || is_nan b then nan
  else if (b <? a)%float then b else a.

Definition Math_max (a b : float) : float :=
  if is_nan a || is_nan b then nan
  else if (a <? b)%float then b else a.

(** [Math.min(a, i)] with an integer [a]. *)
Definition int_min (a : Z) (i : intnum) : intnum :=
  match i with
  | INaN => INaN
  | IInf true => IInf true
  | IInf false => IInt a
  | IInt z => IInt (Z.min a z)
  end.

(** [ToInt32], the conversion the bitwise operators apply. *)
Definition wrap32 (z : Z) : Z := (z + 2 ^ 31) mod 2 ^ 32 - 2 ^ 31.

Definition toInt32 (i : intnum) : Z :=
  match i with
  | IInt z => wrap32 z
  | _ => 0
  end.

(** [a << n] on 32-bit integers. *)
Definition shl32 (a : Z) (n : Z) : Z := wrap32 (Z.shiftl a n).

(** ** Strings

    A string is a sequence of code units; [s[i]] is [undefined] out of
    range, and appending [undefined] to a string appends its name. *)

Definition newline : ascii := "010"%char.
Definition quote : ascii := "034"%char.

Definition char_at (s : string) (i : intnum) : option ascii :=
  match i with
  | IInt z => if z <? 0 then None else String.get (Z.to_nat z) s
  | _ => None
  end.

Definition str1 (c : ascii) : string := String c EmptyString.

Definition append_value (s : string) (c : option ascii) : string :=
  match c with
  | Some c => s ++ str1 c
  | None => s ++ "undefined"
  end.

(** [s.split('').reverse().join('')] *)
Definition reverse_string (s : string) : string :=
  string_of_list_ascii (rev (list_ascii_of_string s)).

(** Decimal text of an integer, as template literals print it. *)
Definition Z_to_string (z : Z) : string :=
  match z with
  | Z0 => "0"
  | Zpos p => NilEmpty.string_of_uint (Pos.to_uint p)
  | Zneg p => "-" ++ NilEmpty.string_of_uint (Pos.to_uint p)
  end.

Definition intnum_to_string (i : intnum) : string :=
  match i with
  | INaN => "NaN"
  | IInf false => "Infinity"
  | IInf true => "-Infinity"
  | IInt z => Z_to_string z
  end.

(** The digits of [n / 100] with two decimals, for [n >= 0]. *)
Definition hundredths (n : Z) : string :=
  Z_to_string (n / 100) ++ "."
  ++ Z_to_string (n mod 100 / 10) ++ Z_to_string (n mod 10).

(** [x.toFixed(2)]: the integer [n] with [n / 100] nearest to the
    exact value of [x], the larger one on a tie, printed with two
    decimals; the sign is that of [x].  (Beyond 1e21, where JavaScript
    falls back to exponent notation, the digits are still printed in
    full here; no opacity has that magnitude.) *)
Definition toFixed2 (x : float) : string :=
  match Prim2SF x with
  | S754_nan => "NaN"
  | S754_infinity s => intnum_to_string (IInf s)
  | S754_zero _ => "0.00"
  | S754_finite s _ _ =>
      match round_times (abs x) 100 with
      | IInt n => (if s then "-" else EmptyString) ++ hundredths n
      | other => intnum_to_string other
      end
  end.

(** [parts.join('')] *)
Definition join (parts : list string) : string :=
  String.concat EmptyString parts.

(** [s.split(sep)] for a one-character separator. *)
Fixpoint split (sep : ascii) (s : string) : list string :=
  match s with
  | EmptyString => [EmptyString]
  | String c rest =>
      if Ascii.eqb c sep then EmptyString :: split sep rest
      else match split sep rest with
           | line :: lines => String c line :: lines
           | [] => [str1 c]
           end
  end.

(** ** Exceptions

    A call either returns or throws; the only exception the pipeline
    can raise is the [TypeError] of indexing [undefined]. *)
Inductive outcome (A : Type) : Type :=
  | Returned (a : A)
  | Thrown (error : string).
Arguments Returned {A} a.
Arguments Thrown {A} error.

#[global] Instance outcome_ret : MRet outcome := fun A a => Returned a.

#[global] Instance outcome_bind : MBind outcome := fun A B k m =>
  match m with
  | Returned a => k a
  | Thrown e => Thrown e
  end.

(** A loop whose body may throw. *)
Fixpoint for_each {A S : Type} (body : S -> A -> outcome S) (l : list A)
  (s : S) : outcome S :=
  match l with
  | [] => Returned s
  | a :: rest => s ← body s a; for_each body rest s
  end.

End JS.
Import JS.

(** ** The conversion worker *)

Module Worker.

(** [getBrightness(r, g, b)] *)
Definition getBrightness (r g b : float) : float :=
  ((0.299 * r + 0.587 * g + 0.114 * b) / 255)%float.

(** *** applyContrast

    [brightness] is a [Float32Array]; the function rewrites it in place
    and returns it, which is the list returned here. *)

(** [Math.floor(brightness[i] * 255)] *)
Definition bin (b : float) : intnum := floor_times b 255.

(** [histogram[bin]++] on the 256 counters.  A bin outside 0..255 (or
    NaN) touches another property of the array, never one of the 256
    counters that the cdf loop reads. *)
Definition count_bin (histogram : list Z) (b : float) : list Z :=
  match bin b with
  | IInt z => if (0 <=? z) && (z <? 256) then alter Z.succ (Z.to_nat z) histogram
              else histogram
  | _ => histogram
  end.

Definition histogram_of (brightness : list float) : list Z :=
  foldl count_bin (replicate 256 0) brightness.

(** [cdf[0] = histogram[0]; cdf[i] = cdf[i - 1] + histogram[i]] *)
Fixpoint running_sum (acc : Z) (histogram : list Z) : list Z :=
  match histogram with
  | [] => []
  | h :: rest => (acc + h) :: running_sum (acc + h) rest
  end.

Definition cdf_of (histogram : list Z) : list Z := running_sum 0 histogram.

(** [cdf[bin]]: [undefined] when the bin is no index of the array. *)
Definition cdf_at (cdf : list Z) (i : intnum) : option Z :=
  match i with
  | IInt z => if z <? 0 then None else cdf !! Z.to_nat z
  | _ => None
  end.

(** [(cdf[bin] - cdfMin) / (total - cdfMin)].  The counters are
    integers far below 2^53, so the two differences are exact and are
    taken in [Z]; the quotient is the binary64 division.  An
    [undefined] operand makes the expression NaN. *)
Definition equalized (cdf : list Z) (cdfMin : option Z) (total : Z) (b : float)
  : float :=
  match cdf_at cdf (bin b), cdfMin with
  | Some c, Some m => (ofZ (c - m) / ofZ (total - m))%float
  | _, _ => nan
  end.

Definition equalize (brightness : list float) : list float :=
  let cdf := cdf_of (histogram_of brightness) in
  let cdfMin := find (fun v => 0 <? v) cdf in
  let total := Z.of_nat (length brightness) in
  map (fun b => fround (equalized cdf cdfMin total b)) brightness.

(** [b = (b - 0.5) * contrast + 0.5; Math.max(0, Math.min(1, b))] *)
Definition stretch (contrast b : float) : float :=
  Math_max 0 (Math_min 1 ((b - 0.5) * contrast + 0.5))%float.

Definition applyContrast (brightness : list float) (contrast : float)
  (useHistogram : bool) : list float :=
  if (contrast =? 1)%float && negb useHistogram then brightness
  else
    let brightness :=
      if useHistogram then equalize brightness else brightness in
    if negb (contrast =? 1)%float
    then map (fun b => fround (stretch contrast b)) brightness
    else brightness.

(** *** Inputs of a conversion *)

(** [settings.colorMode]: the strings ['monochrome'], ['truecolor'],
    ['ansi256'] and ['adaptive<n>'] of the colour-mode selector, the
    last carrying [parseInt] of its suffix. *)
Inductive ColorMode : Type :=
  | monochrome
  | truecolor
  | ansi256
  | adaptive (numColors : nat).

Record Settings : Type := {
  chars : string;
  invert : bool;
  contrast : float;
  histogram : bool;
  colorMode : ColorMode;
  saturation : float;
  blend : float;
  baseOpacity : float;
  brightnessOpacity : bool;
  fgR : intnum;
  fgG : intnum;
  fgB : intnum
}.

(** A pixel buffer is the [Uint8ClampedArray] of an [ImageData]: bytes,
    four per pixel. *)
Abbreviation PixelBuffer := (list Z).

Definition is_byte (v : Z) : Prop := 0 <= v < 256.

(** [pixels[i]]: a byte, or [undefined] past the end, which every use
    in the pipeline turns into NaN (arithmetic) or 0 (bitwise). *)
Definition px (pixels : PixelBuffer) (i : nat) : intnum :=
  match pixels !! i with
  | Some v => IInt v
  | None => INaN
  end.

(** A colour [[r, g, b]]. *)
Abbreviation Color := (Z * Z * Z)%type.

(** *** brightnessMapping *)

(** [brightnessValues[i] = getBrightness(pixels[pi], pixels[pi + 1],
    pixels[pi + 2])], stored in a [Float32Array]. *)
Definition pixel_brightness (pixels : PixelBuffer) (i : nat) : float :=
  let pi := (i * 4)%nat in
  fround (getBrightness (toF (px pixels pi)) (toF (px pixels (pi + 1)))
            (toF (px pixels (pi + 2)))).

Definition brightness_of (pixels : PixelBuffer) (width height : nat)
  : list float :=
  map (pixel_brightness pixels) (seq 0 (width * height)).

(** [brightnessValues[i]] of a [Float32Array]: [undefined] past the end. *)
Definition f32_at (a : list float) (i : nat) : float :=
  match a !! i with
  | Some v => v
  | None => nan
  end.

(** [Math.min(chars.length - 1, Math.floor(brightness * chars.length))] *)
Definition charIndex (chars : string) (brightness : float) : intnum :=
  let n := Z.of_nat (String.length chars) in
  int_min (n - 1) (floor_times brightness n).

(** The inner loop: one row of the grid appended to [ascii]. *)
Definition ascii_row (chars : string) (brightnessValues : list float)
  (width y : nat) (ascii : string) : string :=
  foldl (fun ascii x =>
           let brightness := f32_at brightnessValues (y * width + x) in
           append_value ascii (char_at chars (charIndex chars brightness)))
        ascii (seq 0 width)
  ++ str1 newline.

Definition effective_chars (settings : Settings) : string :=
  if invert settings then reverse_string (chars settings) else chars settings.

Definition normalized_brightness (pixels : PixelBuffer) (width height : nat)
  (settings : Settings) : list float :=
  applyContrast (brightness_of pixels width height)
    (contrast settings) (histogram settings).

(** Returns [{ ascii, brightnessValues }]. *)
Definition brightnessMapping (pixels : PixelBuffer) (width height : nat)
  (settings : Settings) : string * list float :=
  let chars := effective_chars settings in
  let brightnessValues := normalized_brightness pixels width height settings in
  let ascii :=
    foldl (fun ascii y => ascii_row chars brightnessValues width y ascii)
          EmptyString (seq 0 height) in
  (ascii, brightnessValues).

(** *** quantizeColors: sampling

    The sampling loop and the colour list are the same text in the
    worker and in the main-thread script; the two median cuts that
    follow are not, and each module has its own. *)

(** [Math.max(1, Math.floor(pixels.length / 4 / 10000))]: a quotient
    of integers whose floor the two binary64 divisions do not move. *)
Definition sample_step (pixels : PixelBuffer) : nat :=
  Nat.max 1 (Z.to_nat (Z.of_nat (length pixels) / 4 / 10000)).

(** [for (let i = 0; i < pixels.length; i += 4 * step)]: the offsets
    visited.  [fuel] bounds the number of iterations; [length pixels]
    is enough since the stride is positive. *)
Fixpoint sample_offsets (fuel i len stride : nat) : list nat :=
  match fuel with
  | O => []
  | S fuel =>
      if (i <? len)%nat then i :: sample_offsets fuel (i + stride)%nat len stride
      else []
  end.

(** The body of [if (saturation < 1)]. *)
Definition desaturate (saturation : float) (r g b : intnum)
  : intnum * intnum * intnum :=
  let gray :=
    toF (Math_round (0.299 * toF r + 0.587 * toF g + 0.114 * toF b)%float) in
  let toward (c : intnum) :=
    Math_round (gray + saturation * (toF c - gray))%float in
  (toward r, toward g, toward b).

(** The colour sampled at offset [i], after the saturation step. *)
Definition sampled (pixels : PixelBuffer) (saturation : float) (i : nat)
  : intnum * intnum * intnum :=
  let r := px pixels i in
  let g := px pixels (i + 1) in
  let b := px pixels (i + 2) in
  if (saturation <? 1)%float then desaturate saturation r g b else (r, g, b).

(** [(r << 16) | (g << 8) | b] *)
Definition pack_key (c : intnum * intnum * intnum) : Z :=
  let '(r, g, b) := c in
  Z.lor (Z.lor (shl32 (toInt32 r) 16) (shl32 (toInt32 g) 8)) (toInt32 b).

(** [colorMap.set(key, (colorMap.get(key) || 0) + 1)].  A [Map]
    iterates in insertion order, and setting a key it already holds
    keeps the key's place: an association list. *)
Fixpoint bump (key : Z) (colorMap : list (Z * Z)) : list (Z * Z) :=
  match colorMap with
  | [] => [(key, 1)]
  | (k, count) :: rest =>
      if k =? key then (k, count + 1) :: rest
      else (k, count) :: bump key rest
  end.

Definition colorMap_of (pixels : PixelBuffer) (saturation : float)
  : list (Z * Z) :=
  let step := sample_step pixels in
  foldl (fun colorMap i => bump (pack_key (sampled pixels saturation i)) colorMap)
        []
        (sample_offsets (length pixels) 0 (length pixels) (4 * step)).

(** A list entry [[r, g, b, count]]. *)
Record Weighted : Type := {
  rgb : Color;
  weight : Z
}.

(** [[(key >> 16) & 0xff, (key >> 8) & 0xff, key & 0xff]] *)
Definition unpack_key (key : Z) : Color :=
  (Z.land (Z.shiftr key 16) 255, Z.land (Z.shiftr key 8) 255, Z.land key 255).

Definition colorList_of (pixels : PixelBuffer) (saturation : float)
  : list Weighted :=
  map (fun '(key, count) => {| rgb := unpack_key key; weight := count |})
      (colorMap_of pixels saturation).

(** [c[channel]] for [channel] 0, 1 or 2. *)
Definition channel_of (c : Weighted) (channel : nat) : Z :=
  let '(r, g, b) := rgb c in
  match channel with
  | O => r
  | S O => g
  | _ => b
  end.

(** [colors.sort((a, b) => a[channel] - b[channel])]: the sort of an
    array is stable. *)
Fixpoint insert_by (channel : nat) (c : Weighted) (sorted : list Weighted)
  : list Weighted :=
  match sorted with
  | [] => [c]
  | d :: rest =>
      if channel_of c channel <=? channel_of d channel then c :: d :: rest
      else d :: insert_by channel c rest
  end.

Definition sort_by (channel : nat) (colors : list Weighted) : list Weighted :=
  foldr (insert_by channel) [] colors.

(** [Math.round(t / total)] for integers [t >= 0], [total > 0]: the
    quotient is within 2^-45 of the exact one and a tie is a binary64
    number, so the rounding is that of the exact quotient. *)
Definition round_div (t total : Z) : Z := (2 * t + total) / (2 * total).

(** [Math.ceil(Math.log2(numColors))]; the logarithm of 0 is
    [-Infinity]. *)
Definition depth_for (numColors : nat) : intnum :=
  match numColors with
  | O => IInf true
  | _ => IInt (Z.log2_up (Z.of_nat numColors))
  end.

(** [depth === 0] and [depth - 1] *)
Definition is_zero_depth (depth : intnum) : bool :=
  match depth with
  | IInt 0 => true
  | _ => false
  end.

Definition pred_depth (depth : intnum) : intnum :=
  match depth with
  | IInt d => IInt (d - 1)
  | other => other
  end.

(** [getRange(colors, channel)] *)
Definition getRange (colors : list Weighted) (channel : nat) : Z :=
  let '(min, max) :=
    foldl (fun '(min, max) c =>
             let v := channel_of c channel in
             (if v <? min then v else min, if max <? v then v else max))
          (255, 0) colors in
  max - min.

(** The sums of a bucket: [tr], [tg], [tb] and the total weight. *)
Definition bucket_sums (colors : list Weighted) : Z * Z * Z * Z :=
  foldl (fun '(tr, tg, tb, total) c =>
           let '(r, g, b) := rgb c in
           (tr + r * weight c, tg + g * weight c, tb + b * weight c,
            total + weight c))
        (0, 0, 0, 0) colors.

(** *** The worker's median cut *)

Definition bucket_average (colors : list Weighted) : list Color :=
  let '(tr, tg, tb, total) := bucket_sums colors in
  if total =? 0 then [(128, 128, 128)]
  else [(round_div tr total, round_div tg total, round_div tb total)].

(** [let channel = 0; if (gRange >= rRange && gRange >= bRange) channel
    = 1; else if (bRange >= rRange && bRange >= gRange) channel = 2;] *)
Definition choose_channel (rRange gRange bRange : Z) : nat :=
  if (rRange <=? gRange) && (bRange <=? gRange) then 1%nat
  else if (rRange <=? bRange) && (gRange <=? bRange) then 2%nat
  else 0%nat.

(** [fuel] bounds the depth of the recursion; [length colors] is
    enough, each half of a list of two or more being shorter. *)
Fixpoint medianCut (fuel : nat) (colors : list Weighted) (depth : intnum)
  : list Color :=
  match fuel with
  | O => bucket_average colors
  | S fuel =>
      if is_zero_depth depth || (length colors <=? 1)%nat
      then bucket_average colors
      else
        let channel :=
          choose_channel (getRange colors 0) (getRange colors 1)
            (getRange colors 2) in
        let colors := sort_by channel colors in
        let mid := (length colors / 2)%nat in
        medianCut fuel (take mid colors) (pred_depth depth)
        ++ medianCut fuel (drop mid colors) (pred_depth depth)
  end.

Definition quantizeColors (pixels : PixelBuffer) (numColors : nat)
  (saturation : float) : list Color :=
  let colorList := colorList_of pixels saturation in
  if (length colorList <=? numColors)%nat then map rgb colorList
  else
    take numColors
      (medianCut (length colorList) colorList (depth_for numColors)).

(** *** nearestColor *)

(** Returns [undefined] (here [None]) on an empty palette. *)
Definition nearestColor (r g b : float) (palette : list Color)
  : option Color :=
  snd (foldl (fun '(minDist, nearest) c =>
                let '(c0, c1, c2) := c in
                let dr := (r - ofZ c0)%float in
                let dg := (g - ofZ c1)%float in
                let db := (b - ofZ c2)%float in
                let dist := (dr * dr + dg * dg + db * db)%float in
                if (dist <? minDist)%float then (dist, Some c)
                else (minDist, nearest))
             (infinity, head palette) palette).

(** *** Markup *)

Definition escapeChar (c : ascii) : string :=
  if Ascii.eqb c "&" then "&amp;"
  else if Ascii.eqb c "<" then "&lt;"
  else if Ascii.eqb c ">" then "&gt;"
  else if Ascii.eqb c quote then "&quot;"
  else if Ascii.eqb c "'" then "&#039;"
  else str1 c.

(** [text.replace(..., c => escapeMap[c] || c)]: each of the five
    special characters is replaced by its entity. *)
Fixpoint escapeHtml (text : string) : string :=
  match text with
  | EmptyString => EmptyString
  | String c rest => escapeChar c ++ escapeHtml rest
  end.

(** The span template, with the text of its [style] value. *)
Definition span (style chars : string) : string :=
  "<span style=" ++ str1 quote ++ "color:" ++ style ++ str1 quote ++ ">"
  ++ chars ++ "</span>".

(** The state of the scan of a row: [currentColor] ([null] is [None]),
    [currentChars], and the [parts] pushed so far. *)
Record Scan : Type := {
  currentColor : option string;
  currentChars : string;
  parts : list string
}.

(** [if (currentColor !== null) parts.push(<span>)] *)
Definition flush (style_of : string -> string) (st : Scan) : list string :=
  match currentColor st with
  | Some color => parts st ++ [span (style_of color) (currentChars st)]
  | None => parts st
  end.

(** The tail of the loop body: extend the current run, or flush it and
    start a new one. *)
Definition add_cell (style_of : string -> string) (st : Scan)
  (colorStr : string) (char : ascii) : Scan :=
  if bool_decide (currentColor st = Some colorStr)
  then {| currentColor := currentColor st;
          currentChars := currentChars st ++ escapeHtml (str1 char);
          parts := parts st |}
  else {| currentColor := Some colorStr;
          currentChars := escapeHtml (str1 char);
          parts := flush style_of st |}.

(** The end of a row: flush the last run and push the newline. *)
Definition end_row (style_of : string -> string) (st : Scan) : list string :=
  flush style_of st ++ [str1 newline].

(** [lines[y] ? lines[y][x] : ' '] *)
Definition cell_char (lines : list string) (y x : nat) : option ascii :=
  match lines !! y with
  | Some (String _ _ as line) => String.get x line
  | _ => Some " "%char
  end.

(** *** applyColorToAscii *)

Definition getColorString (r g b : intnum) (opacity : float) : string :=
  if (opacity <? 1)%float
  then "rgba(" ++ intnum_to_string r ++ "," ++ intnum_to_string g ++ ","
       ++ intnum_to_string b ++ "," ++ toFixed2 opacity ++ ")"
  else "rgb(" ++ intnum_to_string r ++ "," ++ intnum_to_string g ++ ","
       ++ intnum_to_string b ++ ")".

(** [Math.max(0, Math.min(255, r))] *)
Definition clamp255 (r : intnum) : intnum :=
  match r with
  | INaN => INaN
  | IInf true => IInt 0
  | IInf false => IInt 255
  | IInt z => IInt (Z.max 0 (Z.min 255 z))
  end.

(** "Apply saturation" *)
Definition saturate (saturation : float) (r g b : intnum)
  : intnum * intnum * intnum :=
  let gray := (0.299 * toF r + 0.587 * toF g + 0.114 * toF b)%float in
  let toward (c : intnum) :=
    Math_round (gray + saturation * (toF c - gray))%float in
  (toward r, toward g, toward b).

(** "Apply brightness blend" *)
Definition blend_factor (blend charBrightness : float) : float :=
  let adjustedBlend := ((blend - 0.5) * 2)%float in
  if (0 <=? adjustedBlend)%float
  then (1 - adjustedBlend * (1 - charBrightness))%float
  else (1 + abs adjustedBlend * (1 - charBrightness))%float.

(** "Calculate opacity" *)
Definition cell_opacity (settings : Settings) (charBrightness : float) : float :=
  if brightnessOpacity settings
  then
    let charBrightness :=
      if invert settings then (1 - charBrightness)%float else charBrightness in
    (baseOpacity settings * (1 - charBrightness))%float
  else baseOpacity settings.

(** The colour string of the cell at [(x, y)].  Indexing the
    [undefined] that [nearestColor] returns on an empty palette
    throws. *)
Definition cell_color (pixels : PixelBuffer) (width : nat)
  (brightnessData : list float) (settings : Settings)
  (palette : option (list Color)) (y x : nat) : outcome string :=
  let i := ((y * width + x) * 4)%nat in
  let r := px pixels i in
  let g := px pixels (i + 1) in
  let b := px pixels (i + 2) in
  '(r, g, b) ←
    match palette with
    | Some palette =>
        match nearestColor (toF r) (toF g) (toF b) palette with
        | Some (n0, n1, n2) => Returned (IInt n0, IInt n1, IInt n2)
        | None => Thrown "TypeError"
        end
    | None => Returned (r, g, b)
    end;
  let '(r, g, b) :=
    if negb (saturation settings =? 1)%float
    then saturate (saturation settings) r g b else (r, g, b) in
  let charBrightness := f32_at brightnessData (y * width + x) in
  let '(r, g, b) :=
    if negb (blend settings =? 0.5)%float
    then
      let factor := blend_factor (blend settings) charBrightness in
      (Math_round (toF r * factor), Math_round (toF g * factor),
       Math_round (toF b * factor))
    else (r, g, b) in
  Returned (getColorString (clamp255 r) (clamp255 g) (clamp255 b)
              (cell_opacity settings charBrightness)).

(** One iteration of the inner loop. *)
Definition color_step (lines : list string) (pixels : PixelBuffer)
  (width : nat) (brightnessData : list float) (settings : Settings)
  (palette : option (list Color)) (y : nat) (st : Scan) (x : nat)
  : outcome Scan :=
  match cell_char lines y x with
  | None => Returned st
  | Some char =>
      colorStr ← cell_color pixels width brightnessData settings palette y x;
      Returned (add_cell id st colorStr char)
  end.

(** One iteration of the outer loop: the parts after row [y]. *)
Definition color_row (lines : list string) (pixels : PixelBuffer)
  (width : nat) (brightnessData : list float) (settings : Settings)
  (palette : option (list Color)) (parts : list string) (y : nat)
  : outcome (list string) :=
  st ← for_each (color_step lines pixels width brightnessData settings palette y)
        (seq 0 width)
        {| currentColor := None; currentChars := EmptyString; parts := parts |};
  Returned (end_row id st).

(** Returns [null] in monochrome mode, else the markup. *)
Definition applyColorToAscii (ascii : string) (pixels : PixelBuffer)
  (width height : nat) (brightnessData : list float) (settings : Settings)
  (palette : option (list Color)) : outcome (option string) :=
  match colorMode settings with
  | monochrome => Returned None
  | _ =>
      let lines := split newline ascii in
      parts ← for_each
                (color_row lines pixels width brightnessData settings palette)
                (seq 0 height) [];
      Returned (Some (join parts))
  end.

(** *** processMonoBrightnessOpacity *)

(** The style of a run is the text of its opacity; the span is built
    around the foreground colour. *)
Definition mono_style (settings : Settings) (opacity : string) : string :=
  "rgba(" ++ intnum_to_string (fgR settings) ++ ","
  ++ intnum_to_string (fgG settings) ++ ","
  ++ intnum_to_string (fgB settings) ++ "," ++ opacity ++ ")".

Definition mono_opacity (pixels : PixelBuffer) (width : nat)
  (settings : Settings) (y x : nat) : string :=
  let pi := ((y * width + x) * 4)%nat in
  let brightness :=
    getBrightness (toF (px pixels pi)) (toF (px pixels (pi + 1)))
      (toF (px pixels (pi + 2))) in
  let brightness :=
    if invert settings then (1 - brightness)%float else brightness in
  toFixed2 (baseOpacity settings * (1 - brightness))%float.

Definition mono_row (lines : list string) (pixels : PixelBuffer)
  (width : nat) (settings : Settings) (parts : list string) (y : nat)
  : list string :=
  end_row (mono_style settings)
    (foldl (fun st x =>
              match cell_char lines y x with
              | None => st
              | Some char =>
                  add_cell (mono_style settings) st
                    (mono_opacity pixels width settings y x) char
              end)
           {| currentColor := None; currentChars := EmptyString;
              parts := parts |}
           (seq 0 width)).

Definition processMonoBrightnessOpacity (ascii : string)
  (pixels : PixelBuffer) (width height : nat) (settings : Settings) : string :=
  let lines := split newline ascii in
  join (foldl (mono_row lines pixels width settings) [] (seq 0 height)).

(** *** The message handler *)

(** [cachedPalette]: [null], or the palette with the two settings it
    was built for. *)
Record CachedPalette : Type := {
  cached_numColors : nat;
  cached_saturation : float;
  cached_colors : list Color
}.

Inductive Message : Type :=
  | Convert (pixels : PixelBuffer) (width height : nat) (settings : Settings)
      (ansi256Palette : list Color)
  | ClearCache
  | OtherMessage.

(** The posted ['result'] message.  Its [duration] field, read off the
    clock, is left out. *)
Record Result : Type := {
  res_ascii : string;
  res_html : option string;
  res_width : nat;
  res_height : nat
}.

(** [!cachedPalette || cachedPalette.numColors !== numColors ||
    cachedPalette.saturation !== settings.saturation] *)
Definition cache_stale (cachedPalette : option CachedPalette)
  (numColors : nat) (saturation : float) : bool :=
  match cachedPalette with
  | None => true
  | Some c =>
      negb (cached_numColors c =? numColors)%nat
      || negb (cached_saturation c =? saturation)%float
  end.

(** "Determine palette": the palette to use and the new value of
    [cachedPalette]. *)
Definition choose_palette (cachedPalette : option CachedPalette)
  (pixels : PixelBuffer) (settings : Settings) (ansi256Palette : list Color)
  : option (list Color) * option CachedPalette :=
  match colorMode settings with
  | ansi256 => (Some ansi256Palette, cachedPalette)
  | adaptive numColors =>
      let cachedPalette :=
        if cache_stale cachedPalette numColors (saturation settings)
        then Some {| cached_numColors := numColors;
                     cached_saturation := saturation settings;
                     cached_colors :=
                       quantizeColors pixels numColors (saturation settings) |}
        else cachedPalette in
      (cached_colors <$> cachedPalette, cachedPalette)
  | _ => (None, cachedPalette)
  end.

(** [self.onmessage]: the new value of [cachedPalette], and the
    message posted, if any, unless the handler throws. *)
Definition onmessage (cachedPalette : option CachedPalette) (e : Message)
  : option CachedPalette * outcome (option Result) :=
  match e with
  | Convert pixels width height settings ansi256Palette =>
      let '(ascii, brightnessValues) :=
        brightnessMapping pixels width height settings in
      let post html :=
        Some {| res_ascii := ascii; res_html := html;
                res_width := width; res_height := height |} in
      match colorMode settings with
      | monochrome =>
          (cachedPalette,
           Returned
             (post (if brightnessOpacity settings
                    then Some (processMonoBrightnessOpacity ascii pixels
                                 width height settings)
                    else None)))
      | _ =>
          let '(palette, cachedPalette) :=
            choose_palette cachedPalette pixels settings ansi256Palette in
          (cachedPalette,
           html ← applyColorToAscii ascii pixels width height brightnessValues
                    settings palette;
           Returned (post html))
      end
  | ClearCache => (None, Returned None)
  | OtherMessage => (cachedPalette, Returned None)
  end.

End Worker.

(** ** The main-thread script *)

Module Main.

Import Worker.

(** *** The main thread's median cut *)

(** [if (tw === 0) return [];] *)
Definition bucket_average (colors : list Weighted) : list Color :=
  let '(tr, tg, tb, tw) := bucket_sums colors in
  if tw =? 0 then []
  else [(round_div tr tw, round_div tg tw, round_div tb tw)].

(** [ranges.indexOf(Math.max(...ranges))]: the first index that holds
    the greatest range. *)
Definition index_of (v : Z) (ranges : list Z) : nat :=
  (fix go (i : nat) (l : list Z) : nat :=
     match l with
     | [] => i
     | x :: rest => if x =? v then i else go (S i) rest
     end) 0%nat ranges.

Definition choose_channel (ranges : list Z) : nat :=
  index_of (foldl Z.max (hd 0 ranges) ranges) ranges.

Fixpoint medianCut (fuel : nat) (colors : list Weighted) (depth : intnum)
  : list Color :=
  match fuel with
  | O => bucket_average colors
  | S fuel =>
      if is_zero_depth depth || (length colors <=? 1)%nat
      then bucket_average colors
      else
        let ranges :=
          [getRange colors 0; getRange colors 1; getRange colors 2] in
        let channel := choose_channel ranges in
        let colors := sort_by channel colors in
        let mid := (length colors / 2)%nat in
        medianCut fuel (take mid colors) (pred_depth depth)
        ++ medianCut fuel (drop mid colors) (pred_depth depth)
  end.

Definition quantizeColors (pixels : PixelBuffer) (numColors : nat)
  (saturation : float) : list Color :=
  let colorList := colorList_of pixels saturation in
  if (length colorList <=? numColors)%nat then map rgb colorList
  else
    take numColors
      (medianCut (length colorList) colorList (depth_for numColors)).

(** *** The dispatcher *)

(** The values read off the controls: the text of the ramp field, the
    check boxes, and [parseInt] of each slider. *)
Record Controls : Type := {
  customChars : string;
  invertBrightness : bool;
  contrastAmount : intnum;
  contrastHistogram : bool;
  colorModeValue : ColorMode;
  colorSaturation : intnum;
  brightnessBlend : intnum;
  globalOpacity : intnum;
  brightnessOpacityChecked : bool;
  monoFg : intnum * intnum * intnum;
  charsPerRow : nat
}.

(** An image is known by what the scaling canvas returns for a width:
    the pixel buffer and the height ([getScaledImageData]). *)
Definition Image : Type := nat -> PixelBuffer * nat.

Record Dispatcher : Type := {
  currentImage : option Image;
  asciiWorker : bool;
  workerBusy : bool;
  pendingConversion : bool
}.

(** The ANSI 256 table: 16 named colours, the 6x6x6 cube, 24 grays. *)
Definition ANSI_256 : list Color :=
  [(0,0,0); (128,0,0); (0,128,0); (128,128,0);
   (0,0,128); (128,0,128); (0,128,128); (192,192,192);
   (128,128,128); (255,0,0); (0,255,0); (255,255,0);
   (0,0,255); (255,0,255); (0,255,255); (255,255,255)]
  ++ (let level (i : Z) := if i =? 0 then 0 else i * 40 + 55 in
      r ← [0; 1; 2; 3; 4; 5]; g ← [0; 1; 2; 3; 4; 5]; b ← [0; 1; 2; 3; 4; 5];
      [(level r, level g, level b)])
  ++ map (fun i => let v := Z.of_nat i * 10 + 8 in (v, v, v)) (seq 0 24).

Definition default_chars : string := "@%#*+=-:. ".

(** "Prepare settings for worker" *)
Definition worker_settings (c : Controls) : Settings :=
  let '(r, g, b) := monoFg c in
  {| chars :=
       match customChars c with
       | EmptyString => default_chars
       | typed => typed
       end;
     invert := invertBrightness c;
     contrast := (toF (contrastAmount c) / 100)%float;
     histogram := contrastHistogram c;
     colorMode := colorModeValue c;
     saturation := (toF (colorSaturation c) / 100)%float;
     blend := (toF (brightnessBlend c) / 100)%float;
     baseOpacity := (toF (globalOpacity c) / 100)%float;
     brightnessOpacity := brightnessOpacityChecked c;
     fgR := r; fgG := g; fgB := b |}.

(** [convertToAscii]: the new state of the dispatcher and the message
    posted to the worker, if any. *)
Definition convertToAscii (c : Controls) (d : Dispatcher)
  : Dispatcher * option Message :=
  match currentImage d with
  | None => (d, None)
  | Some img =>
      if asciiWorker d then
        if workerBusy d
        then ({| currentImage := currentImage d; asciiWorker := asciiWorker d;
                 workerBusy := workerBusy d; pendingConversion := true |},
              None)
        else
          let width := charsPerRow c in
          let '(pixels, height) := img width in
          ({| currentImage := currentImage d; asciiWorker := asciiWorker d;
              workerBusy := true;
              pendingConversion := pendingConversion d |},
           Some (Convert pixels width height (worker_settings c) ANSI_256))
      else (d, None)
  end.

End Main.

(** ** The optimised worker: colour strings and run merging *)

Module WasmWorker.

Import Worker.

Definition COLOR_CACHE_MAX : Z := 50000.

(** [(opacityInt << 24) | (r << 16) | (g << 8) | b] *)
Definition cache_key (opacityInt : intnum) (r g b : Z) : Z :=
  Z.lor (Z.lor (Z.lor (shl32 (toInt32 opacityInt) 24) (shl32 (wrap32 r) 16))
           (shl32 (wrap32 g) 8))
    (wrap32 b).

(** [opacityInt < 100] *)
Definition below_100 (opacityInt : intnum) : bool :=
  match opacityInt with
  | INaN => false
  | IInf negative => negative
  | IInt z => z <? 100
  end.

(** "Generate color string" *)
Definition color_string (opacityInt : intnum) (r g b : Z) : string :=
  if below_100 opacityInt
  then "rgba(" ++ Z_to_string r ++ "," ++ Z_to_string g ++ ","
       ++ Z_to_string b ++ "," ++ toFixed2 (toF opacityInt / 100)%float ++ ")"
  else "rgb(" ++ Z_to_string r ++ "," ++ Z_to_string g ++ ","
       ++ Z_to_string b ++ ")".

(** [getColorString(r, g, b, opacity)] with the [colorCache] it reads
    and updates.  [r], [g], [b] come out of [Uint8Array]s and
    [opacity] out of a [Float32Array]. *)
Definition getColorString (colorCache : gmap Z string) (r g b : Z)
  (opacity : float) : string * gmap Z string :=
  let opacityInt := round_times opacity 100 in
  let key := cache_key opacityInt r g b in
  match colorCache !! key with
  | Some cached => (cached, colorCache)
  | None =>
      let colorStr := color_string opacityInt r g b in
      let colorCache : gmap Z string :=
        if COLOR_CACHE_MAX <=? Z.of_nat (size colorCache) then ∅
        else colorCache in
      (colorStr, <[key := colorStr]> colorCache)
  end.

(** "Build HTML with span combining": the five parts pushed for the
    run that ends. *)
Definition flush (st : Scan) : list string :=
  match currentColor st with
  | Some color =>
      parts st
      ++ ["<span style=" ++ str1 quote ++ "color:"; color;
          str1 quote ++ ">"; currentChars st; "</span>"]%string
  | None => parts st
  end.

(** [code < 128 ? escapeTable[code] : char] *)
Definition escapeChar (c : ascii) : string :=
  if (nat_of_ascii c <? 128)%nat then Worker.escapeChar c else str1 c.

(** The body of the inner loop for a cell that has a character, on
    the scan state and the cache. *)
Definition markup_step (st : Scan) (colorCache : gmap Z string)
  (r g b : Z) (opacity : float) (char : ascii) : Scan * gmap Z string :=
  let '(colorStr, colorCache) := getColorString colorCache r g b opacity in
  (if bool_decide (currentColor st = Some colorStr)
   then {| currentColor := currentColor st;
           currentChars := currentChars st ++ escapeChar char;
           parts := parts st |}
   else {| currentColor := Some colorStr;
           currentChars := escapeChar char;
           parts := flush st |},
   colorCache).

End WasmWorker.

(** ** Specification-level notions *)

Module Spec.

Import Worker.

(** The text one cell contributes to the grid: the ramp character at
    the cell's index, or the name of [undefined]. *)
Definition cell_text (chars : string) (v : float) : string :=
  append_value EmptyString (char_at chars (charIndex chars v)).

(** The text of row [y] of the grid, without its newline. *)
Definition row_text (chars : string) (brightnessValues : list float)
  (width y : nat) : string :=
  join (map (fun x => cell_text chars (f32_at brightnessValues (y * width + x)))
          (seq 0 width)).

(** Rows laid out one per line, each ended by a newline. *)
Definition grid_text (rows : list string) : string :=
  join (map (fun row => row ++ str1 newline)%string rows).

(** A luminance that is a number (not NaN) and not negative. *)
Definition is_nonneg_number (v : float) : bool :=
  match Prim2SF v with
  | S754_nan => false
  | S754_zero _ => true
  | S754_infinity s => negb s
  | S754_finite s _ _ => negb s
  end.

(** An RGBA buffer of [width * height] pixels with every channel [v]. *)
Definition flat_image (width height : nat) (v : Z) : PixelBuffer :=
  replicate (4 * (width * height)) v.

(** The text is [height] rows, each of [width] characters other than
    a newline and ended by one newline. *)
Definition is_grid (ascii : string) (width height : nat) : Prop :=
  exists rows : list string,
    length rows = height
    /\ Forall (fun row =>
                 String.length row = width
                 /\ ~ In newline (list_ascii_of_string row)) rows
    /\ ascii = grid_text rows.

(** The colours the sampling loop of [quantizeColors] buckets, in the
    order it visits them. *)
Definition sampled_colors (pixels : PixelBuffer) (saturation : float)
  : list (intnum * intnum * intnum) :=
  map (sampled pixels saturation)
    (sample_offsets (length pixels) 0 (length pixels)
       (4 * sample_step pixels)).


Definition byte_color (c : Color) : Prop :=
  let '(r, g, b) := c in is_byte r /\ is_byte g /\ is_byte b.


(** *** Runs of cells

    A cell of a row is its colour string and its character. *)

(** The maximal runs of adjacent cells with the same style. *)
Fixpoint runs (cells : list (string * ascii)) : list (string * list ascii) :=
  match cells with
  | [] => []
  | (style, char) :: rest =>
      match runs rest with
      | (style', chars) :: more =>
          if decide (style = style') then (style, char :: chars) :: more
          else (style, [char]) :: (style', chars) :: more
      | [] => [(style, [char])]
      end
  end.



(** The left-to-right scan of the source over a list of cells. *)
Definition scan (st : Scan) (cells : list (string * ascii)) : Scan :=
  foldl (fun st '(colorStr, char) => add_cell id st colorStr char) st cells.

(** The cells of the run that the scan has open. *)
Definition open_run (st : Scan) (pend : list ascii) : list (string * ascii) :=
  match currentColor st with
  | Some color => map (fun char => (color, char)) pend
  | None => []
  end.

(** The span emitted for a run. *)
Definition render_run (r : string * list ascii) : string :=
  span (fst r) (escapeHtml (string_of_list_ascii (snd r))).

(** The cells of the columns [xs] of row [y], as the inner loop of
    [applyColorToAscii] meets them: a column without a character is
    skipped, and computing a colour may throw. *)
Fixpoint row_cells (lines : list string) (pixels : PixelBuffer)
  (width : nat) (brightnessData : list float) (settings : Settings)
  (palette : option (list Color)) (y : nat) (xs : list nat)
  : outcome (list (string * ascii)) :=
  match xs with
  | [] => Returned []
  | x :: rest =>
      match cell_char lines y x with
      | None =>
          row_cells lines pixels width brightnessData settings palette y rest
      | Some char =>
          colorStr ← cell_color pixels width brightnessData settings palette y x;
          cells ← row_cells lines pixels width brightnessData settings palette
                    y rest;
          Returned ((colorStr, char) :: cells)
      end
  end.

(** The parts pushed for a row: its spans, then the newline. *)
Definition row_parts (cells : list (string * ascii)) : list string :=
  map render_run (runs cells) ++ [str1 newline].

(** The cells of the rows [ys], row by row. *)
Fixpoint grid_cells (lines : list string) (pixels : PixelBuffer)
  (width : nat) (brightnessData : list float) (settings : Settings)
  (palette : option (list Color)) (ys : list nat)
  : outcome (list (list (string * ascii))) :=
  match ys with
  | [] => Returned []
  | y :: rest =>
      cells ← row_cells lines pixels width brightnessData settings palette y
                (seq 0 width);
      more ← grid_cells lines pixels width brightnessData settings palette rest;
      Returned (cells :: more)
  end.

(** *** The palette cache *)

(** The cache cannot serve a request: the mode is not adaptive, or
    [cachedPalette] is [null] or was built for another
    [(numColors, saturation)]. *)
Definition cache_misses (cachedPalette : option CachedPalette)
  (settings : Settings) : Prop :=
  match colorMode settings with
  | adaptive numColors =>
      cache_stale cachedPalette numColors (saturation settings) = true
  | _ => True
  end.

End Spec.

(** ** Opacities and the colour-string cache *)

Module OpacitySpec.

Import Worker WasmWorker.

(** The exact value of a finite number, as a fraction [n / 2^k]. *)
Definition dyadic (x : float) : option (Z * Z) :=
  match Prim2SF x with
  | S754_zero _ => Some (0, 0)
  | S754_finite s m e => Some (signed s m * 2 ^ Z.max 0 e, Z.max 0 (- e))
  | _ => None
  end.

(** [x >= p / q] and [x <= p / q] on exact values, for [q > 0]. *)
Definition at_least (x : float) (p q : Z) : bool :=
  match dyadic x with
  | Some (n, k) => p * 2 ^ k <=? n * q
  | None => false
  end.

Definition at_most (x : float) (p q : Z) : bool :=
  match dyadic x with
  | Some (n, k) => n * q <=? p * 2 ^ k
  | None => false
  end.

(** A cell opacity: a number between 0 and 1. *)
Definition unit_opacity (o : float) : bool :=
  at_least o 0 1 && at_most o 1 1.

(** NaN, the opacity of a cell whose luminance is NaN. *)
Definition is_NaN (o : float) : bool :=
  match Prim2SF o with
  | S754_nan => true
  | _ => false
  end.

(** The opacities that reach [getColorString].  [opacities[idx]] is
    [baseOpacity] or [baseOpacity * (1 - charBrightness)]: the
    dispatcher sends a [baseOpacity] between 0 and 1, and a luminance
    is between 0 and 1 or, out of the equalization of a flat image,
    NaN. *)
Definition cell_opacity_value (o : float) : bool :=
  unit_opacity o || is_NaN o.

(** The states of [colorCache]: empty at start-up and after a
    ['clearCache'] message, then filled by the calls of
    [getColorString] on the cells of the frames. *)
Inductive cache_reachable : gmap Z string -> Prop :=
  | reach_empty : cache_reachable ∅
  | reach_call (cache : gmap Z string) (r g b : Z) (o : float) :
      cache_reachable cache ->
      is_byte r -> is_byte g -> is_byte b -> cell_opacity_value o = true ->
      cache_reachable (snd (getColorString cache r g b o)).

(** Every entry of the cache is the string of the cell it is keyed
    by. *)
Definition cache_sound (cache : gmap Z string) : Prop :=
  forall key s,
    cache !! key = Some s ->
    exists n r g b,
      0 <= n <= 100 /\ is_byte r /\ is_byte g /\ is_byte b
      /\ key = cache_key (IInt n) r g b
      /\ s = color_string (IInt n) r g b.

(** What the reachable states keep: every entry is keyed by a cell
    and holds the string of that cell or, under the key of an opacity
    of 0, the string generated for a NaN opacity. *)
Definition cache_tracked (cache : gmap Z string) : Prop :=
  forall key s,
    cache !! key = Some s ->
    exists n r g b,
      0 <= n <= 100 /\ is_byte r /\ is_byte g /\ is_byte b
      /\ key = cache_key (IInt n) r g b
      /\ (s = color_string (IInt n) r g b
          \/ (n = 0 /\ s = color_string INaN r g b)).

End OpacitySpec.

(** ** Concrete inputs *)

(** Settings with every stage at its neutral value: contrast 1, no
    equalization, no inversion, saturation 1, blend 0.5, opacity 1. *)
Definition neutral (chars : string) (mode : Worker.ColorMode)
  : Worker.Settings :=
  {| Worker.chars := chars; Worker.invert := false;
     Worker.contrast := 1; Worker.histogram := false;
     Worker.colorMode := mode; Worker.saturation := 1;
     Worker.blend := 0.5; Worker.baseOpacity := 1;
     Worker.brightnessOpacity := false;
     Worker.fgR := IInt 0; Worker.fgG := IInt 0; Worker.fgB := IInt 0 |}.

(** The same with histogram equalization switched on. *)
Definition equalizing (chars : string) (mode : Worker.ColorMode)
  : Worker.Settings :=
  {| Worker.chars := chars; Worker.invert := false;
     Worker.contrast := 1; Worker.histogram := true;
     Worker.colorMode := mode; Worker.saturation := 1;
     Worker.blend := 0.5; Worker.baseOpacity := 1;
     Worker.brightnessOpacity := false;
     Worker.fgR := IInt 0; Worker.fgG := IInt 0; Worker.fgB := IInt 0 |}.

(** True colour with the opacity driven by the luminance, the base
    opacity at 1, with or without histogram equalization. *)
Definition translucent (chars : string) (equalize : bool) : Worker.Settings :=
  {| Worker.chars := chars; Worker.invert := false;
     Worker.contrast := 1; Worker.histogram := equalize;
     Worker.colorMode := Worker.truecolor; Worker.saturation := 1;
     Worker.blend := 0.5; Worker.baseOpacity := 1;
     Worker.brightnessOpacity := true;
     Worker.fgR := IInt 0; Worker.fgG := IInt 0; Worker.fgB := IInt 0 |}.

(** Three colours whose three channel ranges are all 10. *)
Definition tied_pixels : list Z :=
  [0; 10; 5; 255;  10; 0; 0; 255;  5; 5; 10; 255].

(** A one-pixel image, converted with a one-character ramp in the
    two-colour adaptive mode. *)
Definition one_pixel (r g b : Z) : Worker.Message :=
  Worker.Convert [r; g; b; 255] 1 1
    (neutral "@" (Worker.adaptive 2)) [].

(** The controls with an empty ramp field and everything else
    neutral, and a dispatcher with a one-pixel black image loaded and
    an idle worker. *)
Definition empty_ramp_controls : Main.Controls :=
  {| Main.customChars := EmptyString; Main.invertBrightness := false;
     Main.contrastAmount := IInt 100; Main.contrastHistogram := false;
     Main.colorModeValue := Worker.monochrome;
     Main.colorSaturation := IInt 100; Main.brightnessBlend := IInt 50;
     Main.globalOpacity := IInt 100;
     Main.brightnessOpacityChecked := false;
     Main.monoFg := (IInt 0, IInt 255, IInt 0); Main.charsPerRow := 1 |}.

Definition idle_dispatcher : Main.Dispatcher :=
  {| Main.currentImage := Some (fun _ => ([0; 0; 0; 255], 1%nat));
     Main.asciiWorker := true; Main.workerBusy := false;
     Main.pendingConversion := false |}.

(** ** Notions used by the further properties *)

Module MarkupSpec.

(** A character that cannot open or close a tag or an attribute
    value. *)
Definition markup_free (d : ascii) : Prop :=
  d <> "<"%char /\ d <> ">"%char /\ d <> quote /\ d <> "'"%char.

End MarkupSpec.

Module PaletteSpec.

Import Worker.

(** The number of sampled pixels that a list of weighted colours
    accounts for. *)
Definition total_weight (colors : list Weighted) : Z :=
  foldr (fun c acc => weight c + acc) 0 colors.

(** An entry of the colour list: a byte triple that was met at least
    once. *)
Definition counted (c : Weighted) : Prop :=
  Spec.byte_color (rgb c) /\ 1 <= weight c.

End PaletteSpec.

Module HistogramSpec.

Import Worker.

(** The sample falls into bin [j] of the histogram. *)
Definition in_bin (j : Z) (b : float) : bool :=
  match bin b with
  | IInt z => z =? j
  | _ => false
  end.

(** The number of samples that fall into bin [j]. *)
Definition population (j : Z) (brightness : list float) : Z :=
  Z.of_nat (length (List.filter (in_bin j) brightness)).

(** The bin of the sample is one of the 256 counters. *)
Definition in_range (b : float) : Prop :=
  exists z, bin b = IInt z /\ 0 <= z < 256.

End HistogramSpec.

Module MonoSpec.

Import Worker.



End MonoSpec.

Module HandlerSpec.

Import Worker.

(** The value of [cachedPalette] after the handler has processed the
    messages [msgs] in turn, starting from [cachedPalette]. *)
Definition run (cachedPalette : option CachedPalette) (msgs : list Message)
  : option CachedPalette :=
  foldl (fun c e => fst (onmessage c e)) cachedPalette msgs.

(** A cached palette has no more colours than it was asked for, and
    its colours are byte triples. *)
Definition cache_ok (cachedPalette : option CachedPalette) : Prop :=
  match cachedPalette with
  | None => True
  | Some c =>
      (length (cached_colors c) <= cached_numColors c)%nat
      /\ Forall Spec.byte_color (cached_colors c)
  end.

(** A request that gives the colour stage something to work with: in
    an adaptive mode a pixel buffer that is not empty and at least one
    colour asked for, in the ANSI mode a table that is not empty. *)
Definition well_formed (e : Message) : Prop :=
  match e with
  | Convert pixels _ _ settings ansi256Palette =>
      match colorMode settings with
      | adaptive numColors => pixels <> [] /\ (1 <= numColors)%nat
      | ansi256 => ansi256Palette <> []
      | _ => True
      end
  | _ => True
  end.

(** A cached palette that holds at least one colour. *)
Definition cache_nonempty (cachedPalette : option CachedPalette) : Prop :=
  match cachedPalette with
  | None => True
  | Some c => cached_colors c <> []
  end.

(** A message that leaves a cached palette in place: any but
    ['clearCache'] and an adaptive request that the entry cannot
    serve (another number of colours or another saturation). *)
Definition keeps_entry (cached : CachedPalette) (e : Message) : Prop :=
  match e with
  | Convert _ _ _ settings _ =>
      match colorMode settings with
      | adaptive numColors =>
          cache_stale (Some cached) numColors (saturation settings) = false
      | _ => True
      end
  | ClearCache => False
  | OtherMessage => True
  end.

End HandlerSpec.

Module CacheSpec.

Import WasmWorker.

(** The colour cache after the calls [getColorString(r, g, b, o)] of
    a list of arguments, in turn. *)
Definition after (colorCache : gmap Z string) (calls : list (Z * Z * Z * float))
  : gmap Z string :=
  foldl (fun cache '(r, g, b, o) => snd (getColorString cache r g b o))
    colorCache calls.

End CacheSpec.

(** ** The dispatcher and the worker's answers *)

Module Dispatch.

Import Worker Main.

(** [handleWorkerMessage] on the dispatcher's variables: a ['result']
    message ([is_result]) frees the worker and, if a conversion is
    pending, starts it with the controls as they are now.  (Rendering
    the result only touches the page.) *)
Definition handleWorkerMessage (c : Controls) (d : Dispatcher)
  (is_result : bool) : Dispatcher * option Message :=
  if is_result then
    if pendingConversion d
    then convertToAscii c
           {| currentImage := currentImage d; asciiWorker := asciiWorker d;
              workerBusy := false; pendingConversion := false |}
    else ({| currentImage := currentImage d; asciiWorker := asciiWorker d;
             workerBusy := false;
             pendingConversion := pendingConversion d |}, None)
  else (d, None).

(** [asciiWorker.onerror]: the worker is given up. *)
Definition onerror (d : Dispatcher) : Dispatcher :=
  {| currentImage := currentImage d; asciiWorker := false;
     workerBusy := workerBusy d; pendingConversion := pendingConversion d |}.

(** An assignment to [currentImage]. *)
Definition set_image (img : option Image) (d : Dispatcher) : Dispatcher :=
  {| currentImage := img; asciiWorker := asciiWorker d;
     workerBusy := workerBusy d; pendingConversion := pendingConversion d |}.

(** The number of messages posted by a call. *)
Definition posted (message : option Message) : nat :=
  match message with
  | Some _ => 1
  | None => 0
  end.

(** The script's start-up state, with the worker created. *)
Definition start : Dispatcher :=
  {| currentImage := None; asciiWorker := true; workerBusy := false;
     pendingConversion := false |}.

(** What happens to the dispatcher: a call of [convertToAscii] or a
    result of the worker (each with the controls as they are then), an
    error of the worker, an assignment to [currentImage]. *)
Inductive Event : Type :=
  | Request (c : Controls)
  | Result (c : Controls)
  | WorkerError
  | ImageSet (img : option Image).

Definition step (d : Dispatcher) (e : Event) : Dispatcher * option Message :=
  match e with
  | Request c => convertToAscii c d
  | Result c => handleWorkerMessage c d true
  | WorkerError => (onerror d, None)
  | ImageSet img => (set_image img d, None)
  end.



(** The messages posted along a sequence of events. *)
Fixpoint posts (d : Dispatcher) (es : list Event) : list Message :=
  match es with
  | [] => []
  | e :: es =>
      match snd (step d e) with
      | Some message => message :: posts (fst (step d e)) es
      | None => posts (fst (step d e)) es
      end
  end.

(** The calls [convertToAscii()] made with the controls at the values
    [cs], in turn. *)
Definition requests (d : Dispatcher) (cs : list Controls) : Dispatcher :=
  foldl (fun d c => fst (convertToAscii c d)) d cs.

End Dispatch.

(** ** Exact order on numbers *)

Module Exact.

(** [a <= b] for two finite numbers, on their exact values. *)
Definition le (a b : float) : bool :=
  match OpacitySpec.dyadic a, OpacitySpec.dyadic b with
  | Some (n1, k1), Some (n2, k2) => n1 * 2 ^ k2 <=? n2 * 2 ^ k1
  | _, _ => false
  end.

End Exact.

(** ** The optimised worker without its WebAssembly module

    [wasm] is [null] until [initWasm] has loaded the module, and stays
    so when loading fails: [useWasm] is then false and the colours are
    computed by the JavaScript code below. *)

Module Fallback.

Import Worker WasmWorker.

(** "Apply brightness blend": the factor, with the negation that this
    version writes where the first worker calls [Math.abs]. *)
Definition blend_factor (blend charBrightness : float) : float :=
  let adjustedBlend := ((blend - 0.5) * 2)%float in
  if (0 <=? adjustedBlend)%float
  then (1 - adjustedBlend * (1 - charBrightness))%float
  else (1 + (- adjustedBlend) * (1 - charBrightness))%float.

(** The colour of cell [idx] before it is clamped: palette mapping,
    saturation and blend, in JavaScript. *)
Definition cell_rgb (pixels : PixelBuffer) (brightnessData : list float)
  (settings : Settings) (palette : option (list Color)) (idx : nat)
  : outcome (intnum * intnum * intnum) :=
  let i := (idx * 4)%nat in
  let r := px pixels i in
  let g := px pixels (i + 1) in
  let b := px pixels (i + 2) in
  '(r, g, b) ←
    match palette with
    | Some palette =>
        match nearestColor (toF r) (toF g) (toF b) palette with
        | Some (n0, n1, n2) => Returned (IInt n0, IInt n1, IInt n2)
        | None => Thrown "TypeError"
        end
    | None => Returned (r, g, b)
    end;
  let '(r, g, b) :=
    if negb (saturation settings =? 1)%float
    then saturate (saturation settings) r g b else (r, g, b) in
  let '(r, g, b) :=
    if negb (blend settings =? 0.5)%float
    then
      let factor :=
        blend_factor (blend settings) (f32_at brightnessData idx) in
      (Math_round (toF r * factor), Math_round (toF g * factor),
       Math_round (toF b * factor))
    else (r, g, b) in
  Returned (r, g, b).

(** [colorR[idx] = r < 0 ? 0 : (r > 255 ? 255 : r)], stored in a
    [Uint8Array]: NaN passes both tests and is stored as 0. *)
Definition store_u8 (r : intnum) : Z :=
  match r with
  | INaN => 0
  | IInf negative => if negative then 0 else 255
  | IInt z => if z <? 0 then 0 else if 255 <? z then 255 else z
  end.

(** What the first loop stores for cell [idx]: [colorR[idx]],
    [colorG[idx]], [colorB[idx]] and [opacities[idx]] (a
    [Float32Array]). *)
Definition stored_cell (brightnessData : list float) (settings : Settings)
  (rgb : intnum * intnum * intnum) (idx : nat) : Z * Z * Z * float :=
  let '(r, g, b) := rgb in
  (store_u8 r, store_u8 g, store_u8 b,
   fround (cell_opacity settings (f32_at brightnessData idx))).

(** "Pre-compute all colors into typed arrays": the entries of the four
    arrays for the cells [idxs], unless computing one throws. *)
Fixpoint precompute (pixels : PixelBuffer) (brightnessData : list float)
  (settings : Settings) (palette : option (list Color)) (idxs : list nat)
  : outcome (list (Z * Z * Z * float)) :=
  match idxs with
  | [] => Returned []
  | idx :: rest =>
      rgb ← cell_rgb pixels brightnessData settings palette idx;
      cells ← precompute pixels brightnessData settings palette rest;
      Returned (stored_cell brightnessData settings rgb idx :: cells)
  end.

(** One iteration of the inner loop of "Build HTML with span
    combining", on the scan state and the colour cache.
    [ascii.charCodeAt] is NaN past the end of the text; the arrays
    have an entry for every cell of the grid. *)
Definition html_step (ascii : string) (colors : list (Z * Z * Z * float))
  (width y : nat) (acc : Scan * gmap Z string) (x : nat)
  : Scan * gmap Z string :=
  let lineStart := (y * (width + 1))%nat in
  match String.get (lineStart + x) ascii with
  | None => acc
  | Some char =>
      if Ascii.eqb char newline then acc
      else
        match colors !! (y * width + x)%nat with
        | Some (r, g, b, opacity) =>
            markup_step (fst acc) (snd acc) r g b opacity char
        | None => acc
        end
  end.

(** One iteration of the outer loop: the parts and the cache after
    row [y]. *)
Definition html_row (ascii : string) (colors : list (Z * Z * Z * float))
  (width : nat) (acc : list string * gmap Z string) (y : nat)
  : list string * gmap Z string :=
  let '(st, colorCache) :=
    foldl (html_step ascii colors width y)
      ({| currentColor := None; currentChars := EmptyString;
          parts := fst acc |}, snd acc)
      (seq 0 width) in
  (WasmWorker.flush st ++ [str1 newline], colorCache).

(** [applyColorToAscii] with [wasm] null: the markup ([null] in
    monochrome mode) and the colour cache it leaves. *)
Definition applyColorToAscii (colorCache : gmap Z string) (ascii : string)
  (pixels : PixelBuffer) (width height : nat) (brightnessData : list float)
  (settings : Settings) (palette : option (list Color))
  : outcome (option string * gmap Z string) :=
  match colorMode settings with
  | monochrome => Returned (None, colorCache)
  | _ =>
      colors ← precompute pixels brightnessData settings palette
                 (seq 0 (width * height));
      let '(parts, colorCache) :=
        foldl (html_row ascii colors width) ([], colorCache) (seq 0 height) in
      Returned (Some (join parts), colorCache)
  end.

(** The ['convert'] branch of the handler in true colour (no
    palette) with [wasm] null: [brightnessMapping], whose JavaScript
    path ([applyContrastJS] included) is the text of the first
    worker's, then [applyColorToAscii]. *)
Definition convert_truecolor (colorCache : gmap Z string)
  (pixels : PixelBuffer) (width height : nat) (settings : Settings)
  : outcome (option string * gmap Z string) :=
  let '(ascii, brightnessValues) :=
    brightnessMapping pixels width height settings in
  applyColorToAscii colorCache ascii pixels width height brightnessValues
    settings None.

End Fallback.

Module MarkupAgreement.

Import Worker.

(** Two scan states that stand for the same markup: the same open run
    and parts that join to the same text. *)
Definition same_markup (st st' : Scan) : Prop :=
  currentColor st = currentColor st'
  /\ currentChars st = currentChars st'
  /\ join (parts st) = join (parts st').

End MarkupAgreement.

(** * Properties *)

(** ** Contrast normalisation on a flat image *)

Section UniformLuminance.

Import Worker.

Lemma count_bin_hit (k : Z) (histogram : list Z) (b : float) :
  0 <= k < 256 -> bin b = IInt k ->
  count_bin histogram b = alter Z.succ (Z.to_nat k) histogram.
Proof.
  intros Hk Hb. unfold count_bin. rewrite Hb.
  destruct (Z.leb_spec 0 k), (Z.ltb_spec k 256); simpl; auto; lia.
Qed.

Lemma histogram_uniform (k : Z) (brightness : list float) :
  0 <= k < 256 ->
  Forall (fun b => bin b = IInt k) brightness ->
  forall histogram,
    foldl count_bin histogram brightness
    = alter (Z.add (Z.of_nat (length brightness))) (Z.to_nat k) histogram.
Proof.
  intros Hk Hall. induction Hall as [|b l Hb _ IH]; intros histogram.
  - simpl. symmetry. apply list_alter_id. intros; lia.
  - simpl foldl. rewrite IH, (count_bin_hit k) by assumption.
    rewrite list_alter_alter_eq. apply list_alter_ext; [|reflexivity].
    intros x _. simpl. lia.
Qed.

Lemma alter_replicate (f : Z -> Z) (i n : nat) (x : Z) :
  (i < n)%nat ->
  alter f i (replicate n x)
  = replicate i x ++ f x :: replicate (n - S i) x.
Proof.
  revert n. induction i as [|i IH]; intros [|n] Hi; try lia; simpl.
  - now rewrite Nat.sub_0_r.
  - f_equal. apply IH. lia.
Qed.

Lemma running_sum_zeros (acc : Z) (n : nat) (rest : list Z) :
  running_sum acc (replicate n 0 ++ rest)
  = replicate n acc ++ running_sum acc rest.
Proof.
  induction n as [|n IH]; simpl; [reflexivity|].
  rewrite Z.add_0_r. now f_equal.
Qed.

Lemma running_sum_all_zeros (acc : Z) (n : nat) :
  running_sum acc (replicate n 0) = replicate n acc.
Proof.
  rewrite <- (app_nil_r (replicate n 0)), running_sum_zeros.
  apply app_nil_r.
Qed.

(** The cdf of a histogram with all [n] samples in bin [k]: zero below
    [k], [n] from [k] on. *)
Lemma cdf_uniform (k n : nat) :
  (k < 256)%nat ->
  cdf_of (alter (Z.add (Z.of_nat n)) k (replicate 256 0))
  = replicate k 0 ++ replicate (S (255 - k)) (Z.of_nat n).
Proof.
  intros Hk. unfold cdf_of. rewrite alter_replicate by assumption.
  rewrite running_sum_zeros. f_equal.
  replace (256 - S k)%nat with (255 - k)%nat by lia.
  cbn [running_sum replicate]. rewrite Z.add_0_r, Z.add_0_l.
  f_equal. apply running_sum_all_zeros.
Qed.

Lemma find_after_zeros (k : nat) (rest : list Z) :
  find (fun v => 0 <? v) (replicate k 0 ++ rest)
  = find (fun v => 0 <? v) rest.
Proof. induction k; simpl; auto. Qed.

Lemma applyContrast_histogram_only (brightness : list float) :
  applyContrast brightness 1 true = equalize brightness.
Proof. reflexivity. Qed.

Lemma equalize_uniform (k : Z) (brightness : list float) :
  brightness <> [] ->
  0 <= k < 256 ->
  Forall (fun b => bin b = IInt k) brightness ->
  equalize brightness = map (fun _ => nan) brightness.
Proof.
  intros Hne Hk Hall. unfold equalize, histogram_of.
  rewrite (histogram_uniform k) by assumption.
  rewrite cdf_uniform by lia.
  set (n := length brightness).
  assert (Hn : (0 < n)%nat) by (destruct brightness; simpl in *; [congruence|lia]).
  rewrite find_after_zeros.
  cbn [find replicate]. destruct (Z.ltb_spec 0 (Z.of_nat n)); [|lia].
  apply map_ext_Forall. eapply Forall_impl; [exact Hall|].
  intros b Hb. simpl in Hb. unfold equalized, cdf_at. rewrite Hb.
  destruct (Z.ltb_spec k 0); [lia|].
  rewrite lookup_app_r by (rewrite length_replicate; lia).
  rewrite length_replicate, Nat.sub_diag. simpl.
  rewrite Z.sub_diag. reflexivity.
Qed.

End UniformLuminance.

(** C1.  On a non-empty luminance array whose values all fall into
    one histogram bin, [applyContrast] with histogram equalization and
    contrast 1 does not return the values unchanged: both differences
    of [(cdf[bin] - cdfMin) / (total - cdfMin)] are zero and every
    value becomes NaN. *)
Theorem applyContrast_uniform_is_NaN (brightness : list float) (k : Z) :
  brightness <> [] ->
  0 <= k < 256 ->
  Forall (fun b => Worker.bin b = IInt k) brightness ->
  Worker.applyContrast brightness 1 true = map (fun _ => nan) brightness.
Proof.
  intros Hne Hk Hall. rewrite applyContrast_histogram_only.
  now apply (equalize_uniform k).
Qed.

Lemma applyContrast_uniform_is_NaN_witness :
  Worker.applyContrast [0.5; 0.5; 0.5]%float 1 true = [nan; nan; nan].
Proof.
  apply (applyContrast_uniform_is_NaN [0.5; 0.5; 0.5]%float 127).
  - discriminate.
  - lia.
  - repeat constructor.
Defined.

(** ** Strings *)

Section Strings.

Lemma append_cons (c : ascii) (a b : string) :
  (String c a ++ b)%string = String c (a ++ b).
Proof. reflexivity. Qed.

Lemma str1_append (c : ascii) (s : string) :
  (str1 c ++ s)%string = String c s.
Proof. reflexivity. Qed.

Lemma append_nil_r (s : string) : (s ++ EmptyString)%string = s.
Proof. induction s; rewrite ?append_cons; [reflexivity | congruence]. Qed.

Lemma append_assoc (a b c : string) :
  (a ++ (b ++ c))%string = ((a ++ b) ++ c)%string.
Proof. induction a; rewrite ?append_cons; [reflexivity | congruence]. Qed.

Lemma length_append (a b : string) :
  String.length (a ++ b) = (String.length a + String.length b)%nat.
Proof.
  induction a; rewrite ?append_cons; simpl; [reflexivity | congruence].
Qed.

Lemma chars_append (a b : string) :
  list_ascii_of_string (a ++ b)
  = list_ascii_of_string a ++ list_ascii_of_string b.
Proof.
  induction a; rewrite ?append_cons; simpl; [reflexivity | congruence].
Qed.

Lemma length_chars (s : string) :
  length (list_ascii_of_string s) = String.length s.
Proof. induction s; simpl; congruence. Qed.

Lemma length_string_of_list (l : list ascii) :
  String.length (string_of_list_ascii l) = length l.
Proof. induction l; simpl; congruence. Qed.

Lemma get_lookup (s : string) (i : nat) :
  String.get i s = list_ascii_of_string s !! i.
Proof.
  revert i. induction s as [|c s IH]; intros [|i]; simpl; auto.
Qed.

Lemma join_cons (s : string) (l : list string) :
  join (s :: l) = (s ++ join l)%string.
Proof.
  unfold join. destruct l; simpl; [now rewrite append_nil_r | reflexivity].
Qed.

Lemma join_app (l1 l2 : list string) :
  join (l1 ++ l2) = (join l1 ++ join l2)%string.
Proof.
  induction l1 as [|s l1 IH]; [reflexivity|].
  rewrite <- app_comm_cons, !join_cons, IH. apply append_assoc.
Qed.

Lemma join_replicate_char (n : nat) (c : ascii) :
  join (replicate n (str1 c)) = string_of_list_ascii (replicate n c).
Proof.
  induction n as [|n IH]; [reflexivity|].
  cbn [replicate]. rewrite join_cons, IH. reflexivity.
Qed.

Lemma length_reverse_string (s : string) :
  String.length (reverse_string s) = String.length s.
Proof.
  unfold reverse_string.
  now rewrite length_string_of_list, length_rev, length_chars.
Qed.

Lemma chars_reverse_string (s : string) :
  list_ascii_of_string (reverse_string s) = rev (list_ascii_of_string s).
Proof. apply list_ascii_of_string_of_list_ascii. Qed.

End Strings.

(** ** The glyph mapper *)

Section GlyphMapper.

Import Worker Spec.

Lemma foldl_pointwise {A B : Type} (f g : A -> B -> A) (l : list B) :
  (forall a b, f a b = g a b) -> forall a, foldl f a l = foldl g a l.
Proof.
  intros Hfg. induction l as [|b l IH]; intros a; simpl; [reflexivity|].
  now rewrite Hfg, IH.
Qed.

Lemma append_value_acc (acc : string) (c : option ascii) :
  append_value acc c = (acc ++ append_value EmptyString c)%string.
Proof. destruct c; reflexivity. Qed.

Lemma foldl_append_value {A : Type} (f : A -> option ascii) (l : list A) :
  forall acc,
    foldl (fun acc x => append_value acc (f x)) acc l
    = (acc ++ join (map (fun x => append_value EmptyString (f x)) l))%string.
Proof.
  induction l as [|a l IH]; intros acc; simpl.
  - symmetry. apply append_nil_r.
  - rewrite IH, join_cons, append_assoc. f_equal. apply append_value_acc.
Qed.

Lemma ascii_row_text (chars : string) (bv : list float) (width y : nat)
  (ascii : string) :
  ascii_row chars bv width y ascii
  = (ascii ++ (row_text chars bv width y ++ str1 newline))%string.
Proof.
  unfold ascii_row, row_text, cell_text.
  rewrite (foldl_append_value
             (fun x => char_at chars (charIndex chars (f32_at bv (y * width + x))))).
  symmetry. apply append_assoc.
Qed.

Lemma foldl_rows (row : nat -> string) (l : list nat) :
  forall acc,
    foldl (fun acc y => (acc ++ (row y ++ str1 newline))%string) acc l
    = (acc ++ grid_text (map row l))%string.
Proof.
  unfold grid_text. induction l as [|y l IH]; intros acc; simpl.
  - symmetry. apply append_nil_r.
  - rewrite IH, join_cons. symmetry. apply append_assoc.
Qed.

(** The grid is the rows of cell texts, one per line. *)
Lemma brightnessMapping_ascii (pixels : PixelBuffer) (width height : nat)
  (settings : Settings) :
  fst (brightnessMapping pixels width height settings)
  = grid_text
      (map (row_text (effective_chars settings)
              (normalized_brightness pixels width height settings) width)
         (seq 0 height)).
Proof.
  unfold brightnessMapping. cbn [fst].
  rewrite (foldl_pointwise _
             (fun acc y =>
                (acc ++ (row_text (effective_chars settings)
                           (normalized_brightness pixels width height settings)
                           width y ++ str1 newline))%string)).
  - now rewrite foldl_rows.
  - intros acc y. apply ascii_row_text.
Qed.

Lemma length_applyContrast (brightness : list float) (contrast : float)
  (useHistogram : bool) :
  length (applyContrast brightness contrast useHistogram) = length brightness.
Proof.
  unfold applyContrast, equalize.
  destruct ((contrast =? 1)%float), useHistogram; simpl;
    rewrite ?length_map; reflexivity.
Qed.

Lemma length_normalized_brightness (pixels : PixelBuffer) (width height : nat)
  (settings : Settings) :
  length (normalized_brightness pixels width height settings)
  = (width * height)%nat.
Proof.
  unfold normalized_brightness, brightness_of.
  now rewrite length_applyContrast, length_map, length_seq.
Qed.

End GlyphMapper.

(** ** The ends of the ramp *)

Section RampEnds.

Import Worker Spec.

Lemma lookup_map {A B : Type} (f : A -> B) (l : list A) (i : nat) :
  map f l !! i = f <$> l !! i.
Proof. revert i. induction l; intros [|i]; simpl; auto. Qed.

Lemma map_seq_const {A : Type} (f : nat -> A) (a : A) (start n : nat) :
  (forall i, (start <= i < start + n)%nat -> f i = a) ->
  map f (seq start n) = replicate n a.
Proof.
  revert start. induction n as [|n IH]; intros start Hf; simpl; [reflexivity|].
  rewrite Hf by lia. f_equal. apply IH. intros i Hi. apply Hf. lia.
Qed.

Lemma floor_times_zero (n : Z) : floor_times 0 n = IInt 0.
Proof. reflexivity. Qed.

Lemma floor_times_one (n : Z) : floor_times 1 n = IInt n.
Proof.
  unfold floor_times.
  change (Prim2SF 1) with (S754_finite false 4503599627370496 (-52)).
  cbn [signed]. f_equal.
  change (Z.shiftl (4503599627370496 * n) (-52))
    with (Z.shiftr (4503599627370496 * n) 52).
  rewrite Z.shiftr_div_pow2 by lia.
  change (2 ^ 52) with 4503599627370496.
  rewrite Z.mul_comm. apply Z.div_mul. lia.
Qed.

Lemma get_nonempty (chars : string) (i : nat) (c : ascii) :
  String.get i chars = Some c -> (i < String.length chars)%nat.
Proof.
  rewrite get_lookup, <- length_chars. apply lookup_lt_Some.
Qed.

(** A luminance of exactly 1 is clamped to the last index. *)
Lemma charIndex_one (chars : string) :
  charIndex chars 1 = IInt (Z.of_nat (String.length chars) - 1).
Proof.
  unfold charIndex. rewrite floor_times_one. cbn [int_min].
  f_equal. lia.
Qed.

Lemma charIndex_zero (chars : string) :
  chars <> EmptyString -> charIndex chars 0 = IInt 0.
Proof.
  intros Hne. unfold charIndex. rewrite floor_times_zero. cbn [int_min].
  f_equal. destruct chars; [congruence|]. cbn [String.length]. lia.
Qed.

Lemma cell_text_first (chars : string) (first : ascii) :
  String.get 0 chars = Some first -> cell_text chars 0 = str1 first.
Proof.
  intros Hget. unfold cell_text. rewrite charIndex_zero.
  - change (char_at chars (IInt 0)) with (String.get 0 chars).
    now rewrite Hget.
  - intros ->. discriminate.
Qed.

Lemma cell_text_last (chars : string) (last : ascii) :
  String.get (String.length chars - 1) chars = Some last ->
  cell_text chars 1 = str1 last.
Proof.
  intros Hget. pose proof (get_nonempty _ _ _ Hget) as Hlen.
  unfold cell_text. rewrite charIndex_one. unfold char_at.
  destruct (Z.ltb_spec (Z.of_nat (String.length chars) - 1) 0); [lia|].
  replace (Z.to_nat (Z.of_nat (String.length chars) - 1))
    with (String.length chars - 1)%nat by lia.
  now rewrite Hget.
Qed.

Lemma px_flat_image (width height : nat) (v : Z) (i : nat) :
  (i < 4 * (width * height))%nat -> px (flat_image width height v) i = IInt v.
Proof.
  intros Hi. unfold px, flat_image.
  now rewrite lookup_replicate_2.
Qed.

(** Every luminance sample of a flat image is that of its colour. *)
Lemma f32_at_flat_image (width height : nat) (v : Z) (i : nat) :
  (i < width * height)%nat ->
  f32_at (brightness_of (flat_image width height v) width height) i
  = fround (getBrightness (ofZ v) (ofZ v) (ofZ v)).
Proof.
  intros Hi. unfold f32_at, brightness_of.
  rewrite lookup_map, lookup_seq_lt by assumption. cbn [fmap option_fmap option_map].
  unfold pixel_brightness. rewrite !px_flat_image by lia. reflexivity.
Qed.

(** With contrast 1 and no equalization the samples go through
    unchanged. *)
Lemma normalized_brightness_default (pixels : PixelBuffer)
  (width height : nat) (settings : Settings) :
  contrast settings = 1%float -> histogram settings = false ->
  normalized_brightness pixels width height settings
  = brightness_of pixels width height.
Proof.
  intros Hc Hh. unfold normalized_brightness. rewrite Hc, Hh. reflexivity.
Qed.

Lemma flat_image_grid (width height : nat) (settings : Settings) (v : Z)
  (lum : float) (c : ascii) :
  contrast settings = 1%float -> histogram settings = false ->
  fround (getBrightness (ofZ v) (ofZ v) (ofZ v)) = lum ->
  cell_text (effective_chars settings) lum = str1 c ->
  fst (brightnessMapping (flat_image width height v) width height settings)
  = grid_text (replicate height (string_of_list_ascii (replicate width c))).
Proof.
  intros Hc Hh Hlum Hcell. rewrite brightnessMapping_ascii. f_equal.
  rewrite normalized_brightness_default by assumption.
  apply map_seq_const. intros y Hy. unfold row_text.
  rewrite <- join_replicate_char. f_equal.
  apply map_seq_const. intros x Hx.
  rewrite f32_at_flat_image by nia. now rewrite Hlum.
Qed.

End RampEnds.

(** C5.  Every cell of the grid is the ramp character at index
    [min(n - 1, floor(v * n))] of its normalized luminance [v]; a
    luminance of 1 is clamped to the last index; and with contrast 1,
    no equalization and no inversion, an all-black image yields only
    the first character of the ramp and an all-white one only the
    last. *)
Theorem brightnessMapping_ramp_ends :
  (forall pixels width height settings,
     let chars := Worker.effective_chars settings in
     let n := Z.of_nat (String.length chars) in
     let values :=
       Worker.normalized_brightness pixels width height settings in
     fst (Worker.brightnessMapping pixels width height settings)
     = Spec.grid_text
         (map (fun y =>
                 join (map (fun x =>
                              let v := Worker.f32_at values (y * width + x) in
                              append_value EmptyString
                                (char_at chars
                                   (int_min (n - 1) (floor_times v n))))
                         (seq 0 width)))
            (seq 0 height)))
  /\ (forall chars,
        Worker.charIndex chars 1 = IInt (Z.of_nat (String.length chars) - 1))
  /\ (forall width height settings first last,
        Worker.contrast settings = 1%float ->
        Worker.histogram settings = false ->
        Worker.invert settings = false ->
        String.get 0 (Worker.chars settings) = Some first ->
        String.get (String.length (Worker.chars settings) - 1)
          (Worker.chars settings) = Some last ->
        fst (Worker.brightnessMapping (Spec.flat_image width height 0)
               width height settings)
        = Spec.grid_text
            (replicate height (string_of_list_ascii (replicate width first)))
        /\ fst (Worker.brightnessMapping (Spec.flat_image width height 255)
                  width height settings)
           = Spec.grid_text
               (replicate height (string_of_list_ascii (replicate width last)))).
Proof.
  split; [|split].
  - intros. apply brightnessMapping_ascii.
  - apply charIndex_one.
  - intros width height settings first last Hc Hh Hi Hfirst Hlast.
    assert (Heff : Worker.effective_chars settings = Worker.chars settings)
      by (unfold Worker.effective_chars; now rewrite Hi).
    split.
    + apply (flat_image_grid _ _ _ _ 0%float); auto.
      rewrite Heff. now apply cell_text_first.
    + apply (flat_image_grid _ _ _ _ 1%float); auto.
      rewrite Heff. now apply cell_text_last.
Qed.

(** ** The shape of the grid *)

Section GridShape.

Import Worker Spec.

Lemma int_min_in_range (n : Z) (i : intnum) :
  1 <= n ->
  match i with
  | INaN | IInf true => False
  | IInf false => True
  | IInt z => 0 <= z
  end ->
  exists z, int_min (n - 1) i = IInt z /\ 0 <= z < n.
Proof.
  intros Hn. destruct i as [|[|]|z]; simpl; try tauto; intros Hz.
  - exists (n - 1). split; [reflexivity | lia].
  - exists (Z.min (n - 1) z). split; [reflexivity | lia].
Qed.

Lemma floor_times_nonneg (v : float) (n : Z) :
  1 <= n -> is_nonneg_number v = true ->
  match floor_times v n with
  | INaN | IInf true => False
  | IInf false => True
  | IInt z => 0 <= z
  end.
Proof.
  intros Hn. unfold is_nonneg_number, floor_times.
  destruct (Prim2SF v) as [s|s| |s m e]; intros Hv.
  - simpl. lia.
  - destruct s; [discriminate|].
    destruct (Z.eqb_spec n 0); [lia|].
    destruct (Z.ltb_spec n 0); [lia|]. exact I.
  - discriminate.
  - destruct s; [discriminate|]. cbn [signed].
    apply Z.shiftl_nonneg. lia.
Qed.

(** A ramp character is found for every luminance that is a
    non-negative number. *)
Lemma cell_text_in_ramp (chars : string) (v : float) :
  chars <> EmptyString -> is_nonneg_number v = true ->
  exists c, cell_text chars v = str1 c /\ In c (list_ascii_of_string chars).
Proof.
  intros Hne Hv.
  assert (Hn : 1 <= Z.of_nat (String.length chars))
    by (destruct chars; [congruence | cbn [String.length]; lia]).
  destruct (int_min_in_range _ _ Hn (floor_times_nonneg v _ Hn Hv))
    as (z & Hz & Hrange).
  unfold cell_text, charIndex. rewrite Hz. unfold char_at.
  destruct (Z.ltb_spec z 0); [lia|]. rewrite get_lookup.
  destruct (lookup_lt_is_Some_2 (list_ascii_of_string chars) (Z.to_nat z))
    as [c Hc]; [rewrite length_chars; lia|].
  rewrite Hc. exists c. split; [reflexivity|].
  apply list_elem_of_In. eapply list_elem_of_lookup_2. exact Hc.
Qed.

Lemma join_single_chars {A : Type} (f : A -> string) (P : ascii -> Prop)
  (l : list A) :
  (forall a, In a l -> exists c, f a = str1 c /\ P c) ->
  String.length (join (map f l)) = length l
  /\ forall c, In c (list_ascii_of_string (join (map f l))) -> P c.
Proof.
  induction l as [|a l IH]; intros Hf.
  - split; [reflexivity | intros c []].
  - destruct (Hf a (or_introl eq_refl)) as (c & Hc & HP).
    destruct IH as [IHlen IHin]; [intros; apply Hf; now right|].
    cbn [map]. rewrite join_cons, Hc. split.
    + rewrite str1_append. cbn [String.length length]. now rewrite IHlen.
    + intros c'. rewrite str1_append. cbn [list_ascii_of_string].
      intros [<-|Hin]; [assumption | now apply IHin].
Qed.

Lemma f32_at_Forall (P : float -> Prop) (l : list float) (i : nat) :
  Forall P l -> (i < length l)%nat -> P (f32_at l i).
Proof.
  intros Hall Hi. unfold f32_at.
  destruct (lookup_lt_is_Some_2 l i Hi) as [v Hv]. rewrite Hv.
  eapply Forall_lookup_1; eassumption.
Qed.

Lemma length_grid_text (width : nat) (rows : list string) :
  Forall (fun row => String.length row = width) rows ->
  String.length (grid_text rows) = (length rows * (width + 1))%nat.
Proof.
  unfold grid_text. induction 1 as [|row rows Hrow _ IH]; [reflexivity|].
  cbn [map length]. rewrite join_cons, !length_append, IH, Hrow.
  cbn [str1 String.length]. lia.
Qed.

Lemma effective_chars_nonempty (settings : Settings) :
  chars settings <> EmptyString -> effective_chars settings <> EmptyString.
Proof.
  unfold effective_chars. destruct (invert settings); [|auto].
  intros Hne Heq. apply Hne.
  pose proof (length_reverse_string (chars settings)) as Hlen.
  rewrite Heq in Hlen. destruct (chars settings); [reflexivity|discriminate].
Qed.

Lemma effective_chars_In (settings : Settings) (c : ascii) :
  In c (list_ascii_of_string (effective_chars settings)) ->
  In c (list_ascii_of_string (chars settings)).
Proof.
  unfold effective_chars. destruct (invert settings); [|auto].
  rewrite chars_reverse_string. apply in_rev.
Qed.

Lemma row_text_in_ramp (settings : Settings) (values : list float)
  (width height y : nat) :
  chars settings <> EmptyString ->
  Forall (fun v => is_nonneg_number v = true) values ->
  length values = (width * height)%nat ->
  (y < height)%nat ->
  String.length (row_text (effective_chars settings) values width y) = width
  /\ forall c,
       In c (list_ascii_of_string
               (row_text (effective_chars settings) values width y)) ->
       In c (list_ascii_of_string (chars settings)).
Proof.
  intros Hne Hall Hlen Hy. unfold row_text.
  destruct (join_single_chars
              (fun x => cell_text (effective_chars settings)
                          (f32_at values (y * width + x)))
              (fun c => In c (list_ascii_of_string (chars settings)))
              (seq 0 width)) as [Hlength Hin].
  - intros x Hx. apply in_seq in Hx.
    destruct (cell_text_in_ramp (effective_chars settings)
                (f32_at values (y * width + x))) as (c & Hc & Hin).
    + now apply effective_chars_nonempty.
    + apply (f32_at_Forall (fun v => is_nonneg_number v = true));
        [assumption|]. rewrite Hlen. nia.
    + exists c. split; [assumption | now apply effective_chars_In].
  - rewrite length_seq in Hlength. split; assumption.
Qed.

End GridShape.

(** C9, as amended.  Whenever every value of the normalized luminance
    grid is a number (not NaN) and not negative, and the ramp is not
    empty, the text returned by [brightnessMapping] is [height] rows of
    exactly [width] ramp characters, each row followed by one newline:
    its length is [height * (width + 1)], and it holds no other newline
    if the ramp holds none. *)
Theorem brightnessMapping_grid (pixels : Worker.PixelBuffer)
  (width height : nat) (settings : Worker.Settings) :
  Worker.chars settings <> EmptyString ->
  Forall (fun v => Spec.is_nonneg_number v = true)
    (Worker.normalized_brightness pixels width height settings) ->
  let ascii := fst (Worker.brightnessMapping pixels width height settings) in
  (exists rows : list string,
      length rows = height
      /\ Forall (fun row =>
                   String.length row = width
                   /\ forall c, In c (list_ascii_of_string row) ->
                                In c (list_ascii_of_string
                                        (Worker.chars settings))) rows
      /\ ascii = Spec.grid_text rows)
  /\ String.length ascii = (height * (width + 1))%nat
  /\ (~ In newline (list_ascii_of_string (Worker.chars settings)) ->
      Spec.is_grid ascii width height).
Proof.
  intros Hne Hall ascii.
  set (values := Worker.normalized_brightness pixels width height settings) in *.
  set (rows := map (Spec.row_text (Worker.effective_chars settings) values width)
                 (seq 0 height)).
  assert (Hascii : ascii = Spec.grid_text rows)
    by apply brightnessMapping_ascii.
  assert (Hlen : length rows = height)
    by (unfold rows; now rewrite length_map, length_seq).
  assert (Hrows : Forall (fun row =>
                    String.length row = width
                    /\ forall c, In c (list_ascii_of_string row) ->
                                 In c (list_ascii_of_string
                                         (Worker.chars settings))) rows).
  { unfold rows. apply Forall_map, Forall_forall. intros y Hy.
    apply list_elem_of_In, in_seq in Hy.
    apply (row_text_in_ramp settings values width height y); auto; [|lia].
    apply length_normalized_brightness. }
  split; [|split].
  - exists rows. auto.
  - rewrite Hascii, (length_grid_text width), Hlen; [reflexivity|].
    eapply Forall_impl; [exact Hrows|]. now intros row [].
  - intros Hnl. exists rows. split; [assumption|]. split; [|assumption].
    eapply Forall_impl; [exact Hrows|]. intros row [Hw Hin].
    split; [assumption|]. intros Hc. apply Hnl, Hin, Hc.
Qed.

Lemma brightnessMapping_grid_witness :
  String.length
    (fst (Worker.brightnessMapping [0; 0; 0; 255; 255; 255; 255; 255] 2 1
            (neutral "#. " Worker.monochrome)))
  = (1 * (2 + 1))%nat.
Proof.
  refine (proj1 (proj2 (brightnessMapping_grid
                          [0; 0; 0; 255; 255; 255; 255; 255] 2 1
                          (neutral "#. " Worker.monochrome) _ _))).
  - discriminate.
  - repeat constructor.
Defined.

Lemma is_grid_length (ascii : string) (width height : nat) :
  Spec.is_grid ascii width height ->
  String.length ascii = (height * (width + 1))%nat.
Proof.
  intros (rows & Hlen & Hrows & ->).
  rewrite (length_grid_text width), Hlen; [reflexivity|].
  eapply Forall_impl; [exact Hrows|]. now intros row [].
Qed.

(** C9 fails as stated, in two ways.  A 1x1 black image under
    histogram equalization has a NaN luminance, and its row is the
    nine characters of "undefined"; and a ramp that holds a newline
    puts newlines inside the rows. *)
Lemma brightnessMapping_grid_counterexample :
  (fst (Worker.brightnessMapping [0; 0; 0; 255] 1 1
          (equalizing "#. " Worker.monochrome))
   = ("undefined" ++ str1 newline)%string
   /\ ~ Spec.is_grid
          (fst (Worker.brightnessMapping [0; 0; 0; 255] 1 1
                  (equalizing "#. " Worker.monochrome))) 1 1)
  /\ ~ Spec.is_grid
         (fst (Worker.brightnessMapping [255; 255; 255; 255] 1 1
                 (neutral (String "#" (str1 newline)) Worker.monochrome)))
         1 1.
Proof.
  split; [split|].
  - reflexivity.
  - intros Hgrid. apply is_grid_length in Hgrid. discriminate.
  - intros (rows & Hlen & Hrows & Heq).
    destruct rows as [|row [|]]; try discriminate.
    apply Forall_cons in Hrows as [[Hw Hnl] _].
    destruct row as [|c [|]]; try discriminate.
    vm_compute in Heq. injection Heq as <-.
    apply Hnl. now left.
Qed.

Lemma brightnessMapping_ramp_ends_witness :
  fst (Worker.brightnessMapping (Spec.flat_image 2 1 0) 2 1
         (neutral "#. " Worker.monochrome))
  = Spec.grid_text [string_of_list_ascii ["#"; "#"]%char]
  /\ fst (Worker.brightnessMapping (Spec.flat_image 2 1 255) 2 1
            (neutral "#. " Worker.monochrome))
     = Spec.grid_text [string_of_list_ascii [" "; " "]%char].
Proof.
  apply (proj2 (proj2 brightnessMapping_ramp_ends) 2%nat 1%nat
           (neutral "#. " Worker.monochrome) "#"%char " "%char);
    reflexivity.
Defined.

(** ** Packed colour keys *)

Section PackedKeys.

Import Worker.

Lemma wrap32_small (z : Z) : - 2 ^ 31 <= z < 2 ^ 31 -> wrap32 z = z.
Proof. intros Hz. unfold wrap32. rewrite Z.mod_small; lia. Qed.

Lemma shl32_small (v n : Z) :
  0 <= n -> 0 <= v -> v * 2 ^ n < 2 ^ 31 -> shl32 v n = Z.shiftl v n.
Proof.
  intros Hn Hv Hlt. unfold shl32. apply wrap32_small.
  rewrite Z.shiftl_mul_pow2 by assumption. nia.
Qed.

Lemma byte_high_bits (v n : Z) :
  is_byte v -> 8 <= n -> Z.testbit v n = false.
Proof.
  intros [Hlo Hhi] Hn. destruct (Z.eq_dec v 0) as [->|Hnz].
  - apply Z.bits_0.
  - apply Z.bits_above_log2; [assumption|].
    apply Z.lt_le_trans with 8; [|assumption].
    apply Z.log2_lt_pow2; lia.
Qed.





End PackedKeys.

(** ** The colour list of the quantizer *)

Section ColorList.

Import Worker Spec.



Lemma foldl_map {A B C : Type} (f : A -> B -> A) (g : C -> B) (l : list C) :
  forall a, foldl f a (map g l) = foldl (fun a c => f a (g c)) a l.
Proof. induction l; intros; simpl; auto. Qed.









Lemma sample_offsets_spec (fuel len stride : nat) :
  forall i j,
    In j (sample_offsets fuel i len stride) ->
    (j < len)%nat /\ exists t, j = (i + t * stride)%nat.
Proof.
  induction fuel as [|fuel IH]; intros i j; simpl; [intros []|].
  destruct (Nat.ltb_spec i len) as [Hlt|_]; [|intros []].
  intros [<-|Hin].
  - split; [assumption|]. exists 0%nat. lia.
  - apply IH in Hin as (Hj & t & ->). split; [assumption|].
    exists (S t). lia.
Qed.




End ColorList.



(** ** The median cut *)

Section MedianCut.

Import Worker.

Lemma length_insert_by (channel : nat) (c : Weighted) (sorted : list Weighted) :
  length (insert_by channel c sorted) = S (length sorted).
Proof.
  induction sorted as [|d rest IH]; simpl; [reflexivity|].
  destruct (channel_of c channel <=? channel_of d channel); simpl; auto.
Qed.

Lemma length_sort_by (channel : nat) (colors : list Weighted) :
  length (sort_by channel colors) = length colors.
Proof.
  unfold sort_by. induction colors as [|c colors IH]; simpl; [reflexivity|].
  now rewrite length_insert_by, IH.
Qed.

(** The recursion of the worker's [medianCut] ends within
    [length colors] levels: more fuel does not change the result. *)
Lemma worker_medianCut_fuel (fuel : nat) :
  forall fuel' colors depth,
    (length colors <= fuel)%nat -> (length colors <= fuel')%nat ->
    Worker.medianCut fuel colors depth = Worker.medianCut fuel' colors depth.
Proof.
  induction fuel as [|fuel IH]; intros fuel' colors depth Hf Hf'.
  - destruct colors; [|simpl in Hf; lia].
    destruct fuel'; simpl; [reflexivity|]. now rewrite orb_true_r.
  - destruct fuel' as [|fuel'].
    + destruct colors; [|simpl in Hf'; lia].
      simpl. now rewrite orb_true_r.
    + cbn [Worker.medianCut].
      destruct (is_zero_depth depth || (length colors <=? 1)%nat) eqn:Hleaf;
        [reflexivity|].
      apply orb_false_elim in Hleaf as [_ Hlen].
      apply Nat.leb_gt in Hlen.
      set (sorted := sort_by _ colors).
      assert (Hs : length sorted = length colors) by apply length_sort_by.
      assert (Hmid : (1 <= length sorted / 2 < length sorted)%nat).
      { rewrite Hs. split.
        - apply Nat.div_le_lower_bound; lia.
        - apply Nat.div_lt; lia. }
      f_equal; apply IH; rewrite ?length_take, ?length_drop; lia.
Qed.

Lemma main_medianCut_fuel (fuel : nat) :
  forall fuel' colors depth,
    (length colors <= fuel)%nat -> (length colors <= fuel')%nat ->
    Main.medianCut fuel colors depth = Main.medianCut fuel' colors depth.
Proof.
  induction fuel as [|fuel IH]; intros fuel' colors depth Hf Hf'.
  - destruct colors; [|simpl in Hf; lia].
    destruct fuel'; simpl; [reflexivity|]. now rewrite orb_true_r.
  - destruct fuel' as [|fuel'].
    + destruct colors; [|simpl in Hf'; lia].
      simpl. now rewrite orb_true_r.
    + cbn [Main.medianCut].
      destruct (is_zero_depth depth || (length colors <=? 1)%nat) eqn:Hleaf;
        [reflexivity|].
      apply orb_false_elim in Hleaf as [_ Hlen].
      apply Nat.leb_gt in Hlen.
      set (sorted := sort_by _ colors).
      assert (Hs : length sorted = length colors) by apply length_sort_by.
      assert (Hmid : (1 <= length sorted / 2 < length sorted)%nat).
      { rewrite Hs. split.
        - apply Nat.div_le_lower_bound; lia.
        - apply Nat.div_lt; lia. }
      f_equal; apply IH; rewrite ?length_take, ?length_drop; lia.
Qed.

(** The sampling loop ends before its fuel does. *)
Lemma sample_offsets_fuel (stride len : nat) (fuel : nat) :
  forall fuel' i,
    (0 < stride)%nat -> (len - i <= fuel)%nat -> (len - i <= fuel')%nat ->
    sample_offsets fuel i len stride = sample_offsets fuel' i len stride.
Proof.
  induction fuel as [|fuel IH]; intros fuel' i Hs Hf Hf'.
  - destruct fuel'; simpl; [reflexivity|].
    destruct (Nat.ltb_spec i len); [lia | reflexivity].
  - destruct fuel' as [|fuel']; simpl;
      destruct (Nat.ltb_spec i len); try reflexivity; try lia.
    f_equal. apply IH; lia.
Qed.

Lemma worker_choose_channel_cases (rRange gRange bRange : Z) :
  Worker.choose_channel rRange gRange bRange
  = if (rRange <=? gRange) && (bRange <=? gRange) then 1%nat
    else if (rRange <=? bRange) && (gRange <=? bRange) then 2%nat
    else 0%nat.
Proof. reflexivity. Qed.

Lemma main_choose_channel_cases (rRange gRange bRange : Z) :
  Main.choose_channel [rRange; gRange; bRange]
  = if (gRange <=? rRange) && (bRange <=? rRange) then 0%nat
    else if bRange <=? gRange then 1%nat
    else 2%nat.
Proof.
  unfold Main.choose_channel, Main.index_of. cbn [foldl hd].
  destruct (Z.leb_spec gRange rRange), (Z.leb_spec bRange rRange),
    (Z.leb_spec bRange gRange); cbn [andb];
    repeat match goal with
      | |- context [?a =? ?b] => destruct (Z.eqb_spec a b)
      end; try reflexivity; lia.
Qed.

End MedianCut.

(** C3.  The worker's median cut does not prefer R on a tie: when all
    three ranges are equal, or R ties with G for the greatest, it picks
    G, and when R ties with B it picks B.  The main-thread median cut
    picks the earlier channel in each case.  On three colours whose
    ranges are all 10 the worker therefore splits along G and the main
    thread along R. *)
Theorem worker_medianCut_tie_channel :
  forall (range : Z) (less : positive),
    (Worker.choose_channel range range range = 1%nat
     /\ Worker.choose_channel range range (range - Z.pos less) = 1%nat
     /\ Worker.choose_channel range (range - Z.pos less) range = 2%nat
     /\ Worker.choose_channel (range - Z.pos less) range range = 1%nat)
    /\ (Main.choose_channel [range; range; range] = 0%nat
        /\ Main.choose_channel [range; range; range - Z.pos less] = 0%nat
        /\ Main.choose_channel [range; range - Z.pos less; range] = 0%nat
        /\ Main.choose_channel [range - Z.pos less; range; range] = 1%nat)
    /\ (let colors := Worker.colorList_of tied_pixels 1 in
        Worker.getRange colors 0 = 10 /\ Worker.getRange colors 1 = 10
        /\ Worker.getRange colors 2 = 10
        /\ Worker.quantizeColors tied_pixels 2 1 = [(10, 0, 0); (3, 8, 8)]
        /\ Main.quantizeColors tied_pixels 2 1 = [(0, 10, 5); (8, 3, 5)]).
Proof.
  intros range less. split; [|split].
  - rewrite !worker_choose_channel_cases.
    repeat match goal with
      | |- context [?a <=? ?b] => destruct (Z.leb_spec a b)
      end; cbn [andb]; repeat split; reflexivity || lia.
  - rewrite !main_choose_channel_cases.
    repeat match goal with
      | |- context [?a <=? ?b] => destruct (Z.leb_spec a b)
      end; cbn [andb]; repeat split; reflexivity || lia.
  - vm_compute. repeat split; reflexivity.
Qed.

(** C8.  The two [quantizeColors] do not compute the same palette: on
    the three tied colours the worker returns the split along G and the
    main thread the split along R; and on an empty bucket the worker's
    [medianCut] emits mid-gray where the main thread's emits nothing. *)
Theorem quantizeColors_worker_main_differ :
  Worker.quantizeColors tied_pixels 2 1 <> Main.quantizeColors tied_pixels 2 1
  /\ Worker.quantizeColors tied_pixels 2 1 = [(10, 0, 0); (3, 8, 8)]
  /\ Main.quantizeColors tied_pixels 2 1 = [(0, 10, 5); (8, 3, 5)]
  /\ (forall fuel depth,
        Worker.medianCut fuel [] depth = [(128, 128, 128)]
        /\ Main.medianCut fuel [] depth = []).
Proof.
  split; [|split; [|split]].
  - vm_compute. discriminate.
  - vm_compute. reflexivity.
  - vm_compute. reflexivity.
  - intros [|fuel] depth; simpl; rewrite ?orb_true_r; split; reflexivity.
Qed.

(** ** Run merging *)

Section Runs.

Import Worker Spec.

Lemma escapeHtml_append (a b : string) :
  escapeHtml (a ++ b) = (escapeHtml a ++ escapeHtml b)%string.
Proof.
  induction a as [|c a IH]; [reflexivity|].
  rewrite append_cons. cbn [escapeHtml]. rewrite IH. apply append_assoc.
Qed.

Lemma string_of_list_app (l1 l2 : list ascii) :
  string_of_list_ascii (l1 ++ l2)
  = (string_of_list_ascii l1 ++ string_of_list_ascii l2)%string.
Proof.
  induction l1 as [|c l1 IH]; [reflexivity|].
  cbn [app string_of_list_ascii]. now rewrite IH.
Qed.

(** The first run carries the style of the first cell. *)
Lemma runs_head (style : string) (char : ascii) (rest : list (string * ascii)) :
  exists chars more, runs ((style, char) :: rest) = (style, chars) :: more.
Proof.
  cbn [runs]. destruct (runs rest) as [|[style' chars] more]; [eauto|].
  destruct (decide (style = style')); eauto.
Qed.

(** Cells of one style in front of a list join its first run if that
    has the same style, and stand as a run of their own otherwise. *)
Lemma runs_same_prefix (style : string) (pend : list ascii)
  (rest : list (string * ascii)) :
  pend <> [] ->
  runs (map (fun char => (style, char)) pend ++ rest)
  = match runs rest with
    | (style', chars) :: more =>
        if decide (style = style') then (style, pend ++ chars) :: more
        else (style, pend) :: (style', chars) :: more
    | [] => [(style, pend)]
    end.
Proof.
  induction pend as [|c pend IH]; [congruence|]. intros _.
  destruct pend as [|c' pend].
  - reflexivity.
  - cbn [map app runs] in *. rewrite IH by discriminate.
    destruct (runs rest) as [|[style' chars] more].
    + now rewrite decide_True.
    + destruct (decide (style = style')); now rewrite decide_True.
Qed.

Lemma flush_scan (cells : list (string * ascii)) :
  forall (st : Scan) (pend : list ascii),
    currentChars st = escapeHtml (string_of_list_ascii pend) ->
    (currentColor st <> None -> pend <> []) ->
    flush id (scan st cells)
    = parts st ++ map render_run (runs (open_run st pend ++ cells)).
Proof.
  induction cells as [|[colorStr char] cells IH]; intros st pend Hchars Hpend.
  - cbn [scan foldl]. rewrite app_nil_r. unfold flush, open_run.
    destruct (currentColor st) as [color|]; [|now rewrite app_nil_r].
    rewrite <- (app_nil_r (map _ pend)), runs_same_prefix by (now apply Hpend).
    cbn [runs map]. unfold render_run. cbn [fst snd id]. now rewrite Hchars.
  - cbn [scan foldl]. fold (scan (add_cell id st colorStr char) cells).
    unfold add_cell.
    destruct (bool_decide_reflect (currentColor st = Some colorStr)) as [Heq|Hne].
    + rewrite (IH _ (pend ++ [char])).
      * cbn [parts]. unfold open_run. cbn [currentColor]. rewrite Heq.
        now rewrite map_app, <- app_assoc.
      * cbn [currentChars]. rewrite Hchars, string_of_list_app.
        now rewrite escapeHtml_append.
      * intros _. now destruct pend.
    + rewrite (IH _ [char]); [|reflexivity|discriminate].
      cbn [parts open_run currentColor map app]. unfold flush, open_run.
      destruct (currentColor st) as [color|] eqn:Hcolor;
        [|now rewrite app_nil_l].
      rewrite runs_same_prefix by (apply Hpend; discriminate).
      destruct (runs_head colorStr char cells) as (chars & more & Hruns).
      rewrite Hruns, decide_False by congruence.
      rewrite <- app_assoc. cbn [app map]. unfold render_run at 2.
      cbn [fst snd id]. now rewrite Hchars.
Qed.

(** The inner loop is the scan of the row's cells. *)
Lemma for_each_color_step (lines : list string) (pixels : PixelBuffer)
  (width : nat) (bd : list float) (settings : Settings)
  (palette : option (list Color)) (y : nat) (xs : list nat) :
  forall st,
    for_each (color_step lines pixels width bd settings palette y) xs st
    = cells ← row_cells lines pixels width bd settings palette y xs;
      Returned (scan st cells).
Proof.
  induction xs as [|x xs IH]; intros st; [reflexivity|].
  cbn [for_each row_cells].
  set (loop := for_each (color_step lines pixels width bd settings palette y) xs)
    in *.
  unfold color_step.
  destruct (cell_char lines y x) as [char|]; [|apply IH].
  destruct (cell_color pixels width bd settings palette y x) as [colorStr|e];
    [|reflexivity].
  cbn [mbind outcome_bind]. rewrite IH.
  destruct (row_cells lines pixels width bd settings palette y xs);
    reflexivity.
Qed.

(** The parts pushed for a row: one span per run, then the newline. *)
Lemma color_row_runs (lines : list string) (pixels : PixelBuffer)
  (width : nat) (bd : list float) (settings : Settings)
  (palette : option (list Color)) (parts : list string) (y : nat) :
  color_row lines pixels width bd settings palette parts y
  = cells ← row_cells lines pixels width bd settings palette y (seq 0 width);
    Returned (parts ++ row_parts cells).
Proof.
  unfold color_row, row_parts. rewrite for_each_color_step.
  destruct (row_cells lines pixels width bd settings palette y (seq 0 width))
    as [cells|e]; [|reflexivity].
  cbn [mbind outcome_bind]. unfold end_row.
  rewrite (flush_scan cells _ []); [|reflexivity|intros H; now elim H].
  cbn [Worker.parts open_run currentColor app]. now rewrite app_assoc.
Qed.

(** The outer loop pushes the parts of the rows in turn. *)
Lemma for_each_color_row (lines : list string) (pixels : PixelBuffer)
  (width : nat) (bd : list float) (settings : Settings)
  (palette : option (list Color)) (ys : list nat) :
  forall parts,
    for_each (color_row lines pixels width bd settings palette) ys parts
    = rows ← grid_cells lines pixels width bd settings palette ys;
      Returned (parts ++ concat (map row_parts rows)).
Proof.
  induction ys as [|y ys IH]; intros parts.
  - cbn [for_each grid_cells mbind outcome_bind map concat].
    now rewrite app_nil_r.
  - cbn [for_each grid_cells]. rewrite color_row_runs.
    destruct (row_cells lines pixels width bd settings palette y (seq 0 width))
      as [cells|e]; [|reflexivity].
    cbn [mbind outcome_bind]. rewrite IH.
    destruct (grid_cells lines pixels width bd settings palette ys)
      as [rows|e]; [|reflexivity].
    cbn [mbind outcome_bind map concat]. now rewrite app_assoc.
Qed.

(** The markup is the spans of the runs of every row. *)
Lemma applyColorToAscii_runs (ascii : string) (pixels : PixelBuffer)
  (width height : nat) (bd : list float) (settings : Settings)
  (palette : option (list Color)) :
  colorMode settings <> monochrome ->
  applyColorToAscii ascii pixels width height bd settings palette
  = rows ← grid_cells (split newline ascii) pixels width bd settings palette
             (seq 0 height);
    Returned (Some (join (concat (map row_parts rows)))).
Proof.
  intros Hmode. unfold applyColorToAscii. rewrite for_each_color_row.
  destruct (colorMode settings); try congruence;
    destruct (grid_cells _ pixels width bd settings palette (seq 0 height));
    reflexivity.
Qed.





End Runs.


(** ** The message handler and its palette cache *)

Section Handler.

Import Worker Spec.

Lemma choose_palette_miss (c : option CachedPalette) (pixels : PixelBuffer)
  (settings : Settings) (ansi : list Color) :
  cache_misses c settings ->
  fst (choose_palette c pixels settings ansi)
  = fst (choose_palette None pixels settings ansi).
Proof.
  unfold cache_misses, choose_palette.
  destruct (colorMode settings); try reflexivity.
  intros ->. reflexivity.
Qed.

Lemma onmessage_palette (c : option CachedPalette) (pixels : PixelBuffer)
  (width height : nat) (settings : Settings) (ansi : list Color) :
  snd (onmessage c (Convert pixels width height settings ansi))
  = let '(ascii, brightnessValues) :=
      brightnessMapping pixels width height settings in
    let post html :=
      Some {| res_ascii := ascii; res_html := html;
              res_width := width; res_height := height |} in
    match colorMode settings with
    | monochrome =>
        Returned
          (post (if brightnessOpacity settings
                 then Some (processMonoBrightnessOpacity ascii pixels
                              width height settings)
                 else None))
    | _ =>
        html ← applyColorToAscii ascii pixels width height brightnessValues
                 settings (fst (choose_palette c pixels settings ansi));
        Returned (post html)
    end.
Proof.
  unfold onmessage.
  destruct (brightnessMapping pixels width height settings) as [ascii bv].
  destruct (colorMode settings) eqn:Hmode; try reflexivity;
    destruct (choose_palette c pixels settings ansi); reflexivity.
Qed.

End Handler.

(** C2, as amended.  Two runs of the handler on the same ['convert']
    message post the same result whenever, in each run, the cache
    cannot serve the request: the mode is not adaptive, or
    [cachedPalette] is [null] (at start-up or after a ['clearCache']
    message), or it was built for another [(numColors, saturation)].
    The result is then that of a run with an empty cache.  A cached
    palette built for the same pair is used as it is, whatever pixels
    it was computed from. *)
Theorem onmessage_deterministic_on_miss (c1 c2 : option Worker.CachedPalette)
  (pixels : Worker.PixelBuffer) (width height : nat)
  (settings : Worker.Settings) (ansi256Palette : list Worker.Color) :
  let e := Worker.Convert pixels width height settings ansi256Palette in
  (Spec.cache_misses c1 settings ->
   Spec.cache_misses c2 settings ->
   snd (Worker.onmessage c1 e) = snd (Worker.onmessage c2 e)
   /\ snd (Worker.onmessage c1 e) = snd (Worker.onmessage None e))
  /\ snd (Worker.onmessage (fst (Worker.onmessage c1 Worker.ClearCache)) e)
     = snd (Worker.onmessage None e)
  /\ (forall numColors cached,
        Worker.colorMode settings = Worker.adaptive numColors ->
        c1 = Some cached ->
        Worker.cache_stale c1 numColors (Worker.saturation settings) = false ->
        snd (Worker.onmessage c1 e)
        = let '(ascii, brightnessValues) :=
            Worker.brightnessMapping pixels width height settings in
          html ← Worker.applyColorToAscii ascii pixels width height
                   brightnessValues settings
                   (Some (Worker.cached_colors cached));
          Returned
            (Some {| Worker.res_ascii := ascii; Worker.res_html := html;
                     Worker.res_width := width;
                     Worker.res_height := height |})).
Proof.
  intros e. subst e. split; [|split].
  - intros H1 H2. rewrite !onmessage_palette.
    rewrite (choose_palette_miss c1), (choose_palette_miss c2) by assumption.
    split; reflexivity.
  - reflexivity.
  - intros numColors cached Hmode -> Hfresh. rewrite onmessage_palette.
    unfold Worker.choose_palette. rewrite Hmode, Hfresh. reflexivity.
Qed.

Lemma onmessage_deterministic_on_miss_witness :
  snd (Worker.onmessage None (one_pixel 255 0 0))
  = snd (Worker.onmessage
           (Some {| Worker.cached_numColors := 4;
                    Worker.cached_saturation := 1;
                    Worker.cached_colors := [(0, 0, 255)] |})
           (one_pixel 255 0 0)).
Proof.
  refine (proj1 (proj1 (onmessage_deterministic_on_miss None
                          (Some {| Worker.cached_numColors := 4;
                                   Worker.cached_saturation := 1;
                                   Worker.cached_colors := [(0, 0, 255)] |})
                          [255; 0; 0; 255] 1 1
                          (neutral "@" (Worker.adaptive 2)) [])
                   _ _)); reflexivity.
Defined.

(** C2 fails as stated.  After a blue pixel has been converted, the
    cache holds the palette of that image under the key (2, 1); the
    same message for a red pixel is then answered in blue, while a
    handler with an empty cache answers it in red. *)
Lemma onmessage_cache_counterexample :
  let stale := fst (Worker.onmessage None (one_pixel 0 0 255)) in
  stale = Some {| Worker.cached_numColors := 2;
                  Worker.cached_saturation := 1;
                  Worker.cached_colors := [(0, 0, 255)] |}
  /\ snd (Worker.onmessage None (one_pixel 255 0 0))
     = Returned
         (Some {| Worker.res_ascii := ("@" ++ str1 newline)%string;
                  Worker.res_html :=
                    Some (Worker.span "rgb(255,0,0)" "@" ++ str1 newline)%string;
                  Worker.res_width := 1; Worker.res_height := 1 |})
  /\ snd (Worker.onmessage stale (one_pixel 255 0 0))
     = Returned
         (Some {| Worker.res_ascii := ("@" ++ str1 newline)%string;
                  Worker.res_html :=
                    Some (Worker.span "rgb(0,0,255)" "@" ++ str1 newline)%string;
                  Worker.res_width := 1; Worker.res_height := 1 |})
  /\ snd (Worker.onmessage None (one_pixel 255 0 0))
     <> snd (Worker.onmessage stale (one_pixel 255 0 0)).
Proof.
  vm_compute. repeat split; try reflexivity. discriminate.
Qed.

(** ** An empty ramp *)

(** C7, as amended.  No error is raised for an empty ramp: the
    dispatcher replaces an empty ramp field by the default ramp, so
    every ['convert'] message it posts carries a non-empty ramp (the
    text of the field when there is one), and it posts one whenever an
    image is loaded and the worker is idle. *)
Theorem convertToAscii_substitutes_default_ramp (c : Main.Controls)
  (d : Main.Dispatcher) :
  (forall d' pixels width height settings ansi256Palette,
     Main.convertToAscii c d
     = (d', Some (Worker.Convert pixels width height settings ansi256Palette)) ->
     Worker.chars settings <> EmptyString
     /\ (Main.customChars c = EmptyString ->
         Worker.chars settings = Main.default_chars)
     /\ (Main.customChars c <> EmptyString ->
         Worker.chars settings = Main.customChars c))
  /\ (forall img,
        Main.currentImage d = Some img ->
        Main.asciiWorker d = true ->
        Main.workerBusy d = false ->
        snd (Main.convertToAscii c d)
        = Some (Worker.Convert (fst (img (Main.charsPerRow c)))
                  (Main.charsPerRow c) (snd (img (Main.charsPerRow c)))
                  (Main.worker_settings c) Main.ANSI_256)).
Proof.
  split.
  - intros d' pixels width height settings ansi. unfold Main.convertToAscii.
    destruct (Main.currentImage d) as [img|]; [|discriminate].
    destruct (Main.asciiWorker d); [|discriminate].
    destruct (Main.workerBusy d); [discriminate|].
    destruct (img (Main.charsPerRow c)) as [px h].
    intros [= _ _ _ _ <- _]. unfold Main.worker_settings.
    destruct (Main.monoFg c) as [[r g] b]. cbn [Worker.chars].
    destruct (Main.customChars c); repeat split; congruence || discriminate.
  - intros img Himg Hw Hb. unfold Main.convertToAscii.
    rewrite Himg, Hw, Hb. now destruct (img (Main.charsPerRow c)).
Qed.

Lemma convertToAscii_substitutes_default_ramp_witness :
  snd (Main.convertToAscii empty_ramp_controls idle_dispatcher)
  = Some (Worker.Convert [0; 0; 0; 255] 1 1
            (Main.worker_settings empty_ramp_controls) Main.ANSI_256)
  /\ Worker.chars (Main.worker_settings empty_ramp_controls)
     = Main.default_chars.
Proof.
  split.
  - exact (proj2 (convertToAscii_substitutes_default_ramp
                    empty_ramp_controls idle_dispatcher)
             (fun _ => ([0; 0; 0; 255], 1%nat)) eq_refl eq_refl eq_refl).
  - refine (proj1 (proj2 (proj1 (convertToAscii_substitutes_default_ramp
                                   empty_ramp_controls idle_dispatcher)
                            _ _ _ _ _ _ eq_refl)) eq_refl).
Defined.

(** C7 fails as stated.  Given an empty ramp the worker raises no
    error: it posts a result whose grid spells "undefined"; and the
    dispatcher, for an empty ramp field, posts a conversion with the
    default ramp. *)
Lemma empty_ramp_counterexample :
  snd (Worker.onmessage None
         (Worker.Convert [0; 0; 0; 255] 1 1
            (neutral EmptyString Worker.monochrome) []))
  = Returned
      (Some {| Worker.res_ascii := ("undefined" ++ str1 newline)%string;
               Worker.res_html := None;
               Worker.res_width := 1; Worker.res_height := 1 |})
  /\ (forall error,
        snd (Worker.onmessage None
               (Worker.Convert [0; 0; 0; 255] 1 1
                  (neutral EmptyString Worker.monochrome) []))
        <> Thrown error)
  /\ exists settings,
       snd (Main.convertToAscii empty_ramp_controls idle_dispatcher)
       = Some (Worker.Convert [0; 0; 0; 255] 1 1 settings Main.ANSI_256)
       /\ Worker.chars settings = "@%#*+=-:. ".
Proof.
  split; [reflexivity|]. split; [discriminate|].
  exists (Main.worker_settings empty_ramp_controls). split; reflexivity.
Qed.

(** ** Colour strings of the optimised worker *)

Section ColorStrings.

Import Worker WasmWorker OpacitySpec.

Lemma round_times_unit (o : float) :
  unit_opacity o = true ->
  exists n, round_times o 100 = IInt n /\ 0 <= n <= 100
            /\ (100 <= n <-> at_least o 995 1000 = true).
Proof.
  unfold unit_opacity, at_least, at_most, dyadic, round_times.
  destruct (Prim2SF o) as [s|s| |s m e]; try discriminate.
  - intros _. exists 0. rewrite Z.leb_le. change (2 ^ 0) with 1.
    split; [reflexivity | lia].
  - intros [Hlo Hhi]%andb_true_iff. apply Z.leb_le in Hlo, Hhi.
    assert (Hpow : 0 < 2 ^ Z.max 0 e) by (apply Z.pow_pos_nonneg; lia).
    destruct s; cbn [signed] in *; [nia|].
    destruct (Z.leb_spec 0 e) as [He|He].
    + rewrite Z.max_r in * by lia. rewrite Z.max_l in * by lia.
      change (2 ^ 0) with 1 in *.
      assert (e = 0).
      { destruct (Z.eq_dec e 0); [assumption|].
        assert (2 ^ 1 <= 2 ^ e) by (apply Z.pow_le_mono_r; lia).
        change (2 ^ 1) with 2 in *. nia. }
      subst e. change (2 ^ 0) with 1 in *.
      assert (m = 1%positive) by lia. subst m.
      exists 100. rewrite Z.leb_le. split; [reflexivity|]. lia.
    + rewrite Z.max_l in * by lia. rewrite Z.max_r in * by lia.
      change (2 ^ 0) with 1 in *.
      set (P := 2 ^ (- e)) in *.
      assert (HP : 0 < P) by (apply Z.pow_pos_nonneg; lia).
      rewrite Z.shiftr_div_pow2 by lia.
      replace (2 ^ (- e + 1)) with (2 * P)
        by (unfold P; rewrite Z.pow_add_r by lia; change (2 ^ 1) with 2; lia).
      set (a := 2 * (Z.pos m * 100) + P).
      pose proof (Z.div_mod a (2 * P) ltac:(lia)) as Hdiv.
      pose proof (Z.mod_pos_bound a (2 * P) ltac:(lia)) as Hmod.
      exists (a / (2 * P)). rewrite Z.leb_le. split; [reflexivity|].
      rewrite (Z.max_l 0 e) by lia. change (2 ^ 0) with 1.
      set (q := a / (2 * P)) in *. set (rest := a mod (2 * P)) in *.
      unfold a in *. clearbody q rest P.
      split; [nia|]. split; intros; nia.
Qed.

Lemma round_times_one : round_times 1 100 = IInt 100.
Proof. reflexivity. Qed.

Lemma toFixed2_hundredths (n : Z) :
  0 <= n < 100 -> toFixed2 (ofZ n / 100)%float = hundredths n.
Proof.
  intros Hn.
  assert (Hall : forallb (fun k => String.eqb
                                     (toFixed2 (ofZ (Z.of_nat k) / 100)%float)
                                     (hundredths (Z.of_nat k)))
                   (seq 0 100) = true) by (vm_compute; reflexivity).
  rewrite forallb_forall in Hall.
  specialize (Hall (Z.to_nat n)). rewrite Z2Nat.id in Hall by lia.
  apply String.eqb_eq, Hall, in_seq. lia.
Qed.

(** The bits of a cache key are those of its four bytes. *)
Lemma cache_key_bytes (n r g b : Z) :
  0 <= n <= 100 -> is_byte r -> is_byte g -> is_byte b ->
  cache_key (IInt n) r g b
  = Z.lor (Z.lor (Z.lor (Z.shiftl n 24) (Z.shiftl r 16)) (Z.shiftl g 8)) b.
Proof.
  intros Hn [] [] []. unfold cache_key, toInt32.
  rewrite !wrap32_small by lia. rewrite !shl32_small by lia. reflexivity.
Qed.

Lemma cache_key_inj (n r g b n' r' g' b' : Z) :
  0 <= n <= 100 -> is_byte r -> is_byte g -> is_byte b ->
  0 <= n' <= 100 -> is_byte r' -> is_byte g' -> is_byte b' ->
  cache_key (IInt n) r g b = cache_key (IInt n') r' g' b' ->
  n = n' /\ r = r' /\ g = g' /\ b = b'.
Proof.
  intros Hn Hr Hg Hb Hn' Hr' Hg' Hb'.
  rewrite !cache_key_bytes by assumption. intros Hkey.
  assert (Hbn : is_byte n) by (unfold is_byte; lia).
  assert (Hbn' : is_byte n') by (unfold is_byte; lia).
  assert (Hbit : forall i, 0 <= i ->
            Z.testbit n (i - 24) || Z.testbit r (i - 16)
            || Z.testbit g (i - 8) || Z.testbit b i
            = Z.testbit n' (i - 24) || Z.testbit r' (i - 16)
              || Z.testbit g' (i - 8) || Z.testbit b' i).
  { intros i Hi. apply (f_equal (fun k => Z.testbit k i)) in Hkey.
    now rewrite !Z.lor_spec, !Z.shiftl_spec in Hkey by assumption. }
  assert (Hfield : forall v v',
            (forall i, 0 <= i < 8 -> Z.testbit v i = Z.testbit v' i) ->
            is_byte v -> is_byte v' -> v = v').
  { intros v v' Hlow Hv Hv'. apply Z.bits_inj'. intros i Hi.
    destruct (Z.lt_ge_cases i 8); [apply Hlow; lia|].
    now rewrite !byte_high_bits by (assumption || lia). }
  repeat split.
  - apply (Hfield n n'); auto. intros i Hi.
    specialize (Hbit (i + 24) ltac:(lia)).
    replace (i + 24 - 24) with i in Hbit by lia.
    rewrite !(byte_high_bits _ (i + 24 - 16)),
            !(byte_high_bits _ (i + 24 - 8)),
            !(byte_high_bits _ (i + 24)) in Hbit by (assumption || lia).
    now rewrite !orb_false_r in Hbit.
  - apply (Hfield r r'); auto. intros i Hi.
    specialize (Hbit (i + 16) ltac:(lia)).
    replace (i + 16 - 16) with i in Hbit by lia.
    rewrite !(Z.testbit_neg_r _ (i + 16 - 24)),
            !(byte_high_bits _ (i + 16 - 8)),
            !(byte_high_bits _ (i + 16)) in Hbit by (assumption || lia).
    now rewrite !orb_false_r in Hbit.
  - apply (Hfield g g'); auto. intros i Hi.
    specialize (Hbit (i + 8) ltac:(lia)).
    replace (i + 8 - 8) with i in Hbit by lia.
    rewrite !(Z.testbit_neg_r _ (i + 8 - 24)),
            !(Z.testbit_neg_r _ (i + 8 - 16)),
            !(byte_high_bits _ (i + 8)) in Hbit by (assumption || lia).
    now rewrite !orb_false_r in Hbit.
  - apply (Hfield b b'); auto. intros i Hi.
    specialize (Hbit i ltac:(lia)).
    rewrite !(Z.testbit_neg_r _ (i - 24)), !(Z.testbit_neg_r _ (i - 16)),
            !(Z.testbit_neg_r _ (i - 8)) in Hbit by lia.
    exact Hbit.
Qed.

Lemma cache_sound_empty : cache_sound ∅.
Proof. intros key s Hlook. now rewrite lookup_empty in Hlook. Qed.

(** On a sound cache, hit or miss, the string returned is the one
    generated for the cell, and the cache stays sound. *)
Lemma getColorString_sound (cache : gmap Z string) (r g b n : Z) (o : float) :
  cache_sound cache ->
  is_byte r -> is_byte g -> is_byte b ->
  round_times o 100 = IInt n -> 0 <= n <= 100 ->
  fst (getColorString cache r g b o) = color_string (IInt n) r g b
  /\ cache_sound (snd (getColorString cache r g b o)).
Proof.
  intros Hsound Hr Hg Hb Hround Hn. unfold getColorString. rewrite Hround.
  destruct (cache !! cache_key (IInt n) r g b) as [cached|] eqn:Hlook.
  - split; [|exact Hsound]. cbn [fst].
    destruct (Hsound _ _ Hlook) as (n' & r' & g' & b' & ? & ? & ? & ? & Hk & ->).
    apply cache_key_inj in Hk as (-> & -> & -> & ->); auto.
  - split; [reflexivity|]. cbn [snd].
    intros key s. rewrite lookup_insert.
    destruct (decide (cache_key (IInt n) r g b = key)) as [<-|_].
    + intros [= <-]. exists n, r, g, b. auto 10.
    + destruct (COLOR_CACHE_MAX <=? Z.of_nat (size cache));
        [now rewrite lookup_empty | apply Hsound].
Qed.

Lemma round_times_NaN (o : float) :
  is_NaN o = true -> round_times o 100 = INaN.
Proof.
  unfold is_NaN, round_times.
  destruct (Prim2SF o); (discriminate || reflexivity).
Qed.

Lemma cache_tracked_empty : cache_tracked ∅.
Proof. intros key s Hlook. now rewrite lookup_empty in Hlook. Qed.

(** A call on a cell, its opacity a number or NaN, keeps the cache
    tracked. *)
Lemma getColorString_tracked (cache : gmap Z string) (r g b : Z) (o : float) :
  cache_tracked cache ->
  is_byte r -> is_byte g -> is_byte b -> cell_opacity_value o = true ->
  cache_tracked (snd (getColorString cache r g b o)).
Proof.
  intros Htracked Hr Hg Hb Ho.
  assert (Hrest : cache_tracked
            (if COLOR_CACHE_MAX <=? Z.of_nat (size cache) then ∅ else cache)).
  { destruct (COLOR_CACHE_MAX <=? Z.of_nat (size cache));
      [apply cache_tracked_empty | exact Htracked]. }
  unfold cell_opacity_value in Ho. apply orb_true_iff in Ho as [Ho|Ho].
  - destruct (round_times_unit o Ho) as (n & Hround & Hn & _).
    unfold getColorString. rewrite Hround.
    destruct (cache !! cache_key (IInt n) r g b) as [cached|];
      [exact Htracked|].
    cbn [snd]. intros key s. rewrite lookup_insert.
    destruct (decide (cache_key (IInt n) r g b = key)) as [<-|_];
      [|apply Hrest].
    intros [= <-]. exists n, r, g, b. auto 10.
  - unfold getColorString. rewrite (round_times_NaN o Ho).
    change (cache_key INaN r g b) with (cache_key (IInt 0) r g b).
    destruct (cache !! cache_key (IInt 0) r g b) as [cached|];
      [exact Htracked|].
    cbn [snd]. intros key s. rewrite lookup_insert.
    destruct (decide (cache_key (IInt 0) r g b = key)) as [<-|_];
      [|apply Hrest].
    intros [= <-]. exists 0, r, g, b.
    split; [lia|]. split; [assumption|]. split; [assumption|].
    split; [assumption|]. split; [reflexivity|]. right. split; reflexivity.
Qed.

Lemma cache_reachable_tracked (cache : gmap Z string) :
  cache_reachable cache -> cache_tracked cache.
Proof.
  induction 1 as [|cache r g b o _ IH Hr Hg Hb Ho].
  - apply cache_tracked_empty.
  - now apply getColorString_tracked.
Qed.

(** On a tracked cache the string returned for a cell is the one
    generated for it, unless its opacity rounds to 0 and the entry was
    left by a NaN opacity. *)
Lemma getColorString_tracked_lookup (cache : gmap Z string) (r g b n : Z)
  (o : float) :
  cache_tracked cache ->
  is_byte r -> is_byte g -> is_byte b ->
  round_times o 100 = IInt n -> 0 <= n <= 100 ->
  fst (getColorString cache r g b o) = color_string (IInt n) r g b
  \/ (n = 0
      /\ fst (getColorString cache r g b o) = color_string INaN r g b).
Proof.
  intros Htracked Hr Hg Hb Hround Hn. unfold getColorString. rewrite Hround.
  destruct (cache !! cache_key (IInt n) r g b) as [cached|] eqn:Hlook;
    [|now left].
  cbn [fst].
  destruct (Htracked _ _ Hlook)
    as (n' & r' & g' & b' & ? & ? & ? & ? & Hk & Hs).
  apply cache_key_inj in Hk as (-> & -> & -> & ->); auto.
Qed.

End ColorStrings.

(** The first worker tests [opacity < 1] on the opacity itself: there
    an opacity of 0.996 is printed with an alpha of 1.00 and does not
    merge with a cell of opacity 1. *)
Lemma worker_getColorString_near_one :
  Worker.getColorString (IInt 10) (IInt 20) (IInt 30) (fround 0.996)
  = "rgba(10,20,30,1.00)"
  /\ Worker.getColorString (IInt 10) (IInt 20) (IInt 30) 1 = "rgb(10,20,30)".
Proof. split; reflexivity. Qed.

(** C10.  In the optimised worker the threshold holds, in every state
    of the colour cache that the program reaches, for every opacity
    whose hundredths round to 1 or more: from 100 on (an opacity of at
    least 0.995) the cell gets [rgb(r,g,b)], with no alpha, from the
    very call that an opacity of exactly 1 makes, so that it extends
    the run of a cell of opacity 1 and the same colour; from 1 to 99
    it gets [rgba(r,g,b,a)] with its alpha printed with two decimals.
    It fails for an opacity that rounds to 0: a NaN opacity is cached
    under the key of opacity 0, and after such a call a cell of
    opacity 0 and the same colour gets the opaque [rgb(r,g,b)] where
    an empty cache gives [rgba(r,g,b,0.00)].  The last part runs the
    failure through the worker: a white pixel converted with the
    equalization on (its luminance, hence its opacity, is NaN), then
    with the equalization off (its opacity is 0), comes out opaque,
    where the same conversion on an empty cache, and the first worker,
    give it the alpha 0.00. *)
Theorem getColorString_opaque_threshold :
  (forall (cache : gmap Z string) (r g b : Z) (o : float),
     OpacitySpec.cache_reachable cache ->
     Worker.is_byte r -> Worker.is_byte g -> Worker.is_byte b ->
     OpacitySpec.unit_opacity o = true ->
     exists n,
       round_times o 100 = IInt n /\ 0 <= n <= 100
       /\ (100 <= n <-> OpacitySpec.at_least o 995 1000 = true)
       /\ (100 <= n ->
           fst (WasmWorker.getColorString cache r g b o)
           = ("rgb(" ++ Z_to_string r ++ "," ++ Z_to_string g ++ ","
              ++ Z_to_string b ++ ")")%string
           /\ WasmWorker.getColorString cache r g b o
              = WasmWorker.getColorString cache r g b 1
           /\ forall st char,
                Worker.currentColor st
                = Some (fst (WasmWorker.getColorString cache r g b 1)) ->
                fst (WasmWorker.markup_step st cache r g b o char)
                = {| Worker.currentColor := Worker.currentColor st;
                     Worker.currentChars :=
                       (Worker.currentChars st
                        ++ WasmWorker.escapeChar char)%string;
                     Worker.parts := Worker.parts st |})
       /\ (1 <= n < 100 ->
           fst (WasmWorker.getColorString cache r g b o)
           = ("rgba(" ++ Z_to_string r ++ "," ++ Z_to_string g ++ ","
              ++ Z_to_string b ++ "," ++ hundredths n ++ ")")%string)
       /\ (n = 0 ->
           fst (WasmWorker.getColorString cache r g b o)
           = ("rgba(" ++ Z_to_string r ++ "," ++ Z_to_string g ++ ","
              ++ Z_to_string b ++ ",0.00)")%string
           \/ fst (WasmWorker.getColorString cache r g b o)
              = ("rgb(" ++ Z_to_string r ++ "," ++ Z_to_string g ++ ","
                 ++ Z_to_string b ++ ")")%string))
  /\ (forall (cache : gmap Z string) (r g b : Z),
        OpacitySpec.cache_reachable cache ->
        Worker.is_byte r -> Worker.is_byte g -> Worker.is_byte b ->
        cache !! WasmWorker.cache_key (IInt 0) r g b = None ->
        OpacitySpec.cache_reachable
          (snd (WasmWorker.getColorString cache r g b nan))
        /\ fst (WasmWorker.getColorString
                  (snd (WasmWorker.getColorString cache r g b nan)) r g b 0)
           = ("rgb(" ++ Z_to_string r ++ "," ++ Z_to_string g ++ ","
              ++ Z_to_string b ++ ")")%string
        /\ fst (WasmWorker.getColorString cache r g b 0)
           = ("rgba(" ++ Z_to_string r ++ "," ++ Z_to_string g ++ ","
              ++ Z_to_string b ++ ",0.00)")%string)
  /\ (exists html cache,
        Fallback.convert_truecolor ∅ [255; 255; 255; 255] 1 1
          (translucent "@ " true)
        = Returned (html, cache)
        /\ (exists cache',
              Fallback.convert_truecolor cache [255; 255; 255; 255] 1 1
                (translucent "@ " false)
              = Returned
                  (Some (Worker.span "rgb(255,255,255)" " "
                         ++ str1 newline)%string, cache')))
  /\ (exists cache',
        Fallback.convert_truecolor ∅ [255; 255; 255; 255] 1 1
          (translucent "@ " false)
        = Returned
            (Some (Worker.span "rgba(255,255,255,0.00)" " "
                   ++ str1 newline)%string, cache'))
  /\ snd (Worker.onmessage None
            (Worker.Convert [255; 255; 255; 255] 1 1
               (translucent "@ " false) []))
     = Returned
         (Some {| Worker.res_ascii := (" " ++ str1 newline)%string;
                  Worker.res_html :=
                    Some (Worker.span "rgba(255,255,255,0.00)" " "
                          ++ str1 newline)%string;
                  Worker.res_width := 1; Worker.res_height := 1 |}).
Proof.
  split; [|split; [|split; [|split]]].
  - intros cache r g b o Hreach Hr Hg Hb Ho.
    destruct (round_times_unit o Ho) as (n & Hround & Hn & Hiff).
    pose proof (cache_reachable_tracked cache Hreach) as Htracked.
    pose proof (getColorString_tracked_lookup cache r g b n o Htracked
                  Hr Hg Hb Hround Hn) as Hstr.
    exists n. split; [assumption|]. split; [assumption|].
    split; [assumption|]. split; [|split].
    + intros Hge. assert (n = 100) by lia. subst n.
      destruct Hstr as [Hstr|[Hzero _]]; [|lia].
      assert (Hsame : WasmWorker.getColorString cache r g b o
                      = WasmWorker.getColorString cache r g b 1).
      { unfold WasmWorker.getColorString.
        now rewrite Hround, round_times_one. }
      split; [exact Hstr|]. split; [exact Hsame|].
      intros st char Hcur. unfold WasmWorker.markup_step. rewrite Hsame.
      destruct (WasmWorker.getColorString cache r g b 1) as [colorStr cache'].
      cbn [fst] in *. now rewrite bool_decide_eq_true_2.
    + intros Hlt. destruct Hstr as [Hstr|[Hzero _]]; [|lia]. rewrite Hstr.
      unfold WasmWorker.color_string, WasmWorker.below_100.
      destruct (Z.ltb_spec n 100); [|lia].
      cbn [toF]. now rewrite toFixed2_hundredths by lia.
    + intros ->. destruct Hstr as [Hstr|[_ Hstr]]; rewrite Hstr;
        [left | right]; reflexivity.
  - intros cache r g b Hreach Hr Hg Hb Hmiss. split.
    + now apply OpacitySpec.reach_call.
    + unfold WasmWorker.getColorString.
      change (round_times 0 100) with (IInt 0).
      change (round_times nan 100) with INaN.
      change (WasmWorker.cache_key INaN r g b)
        with (WasmWorker.cache_key (IInt 0) r g b).
      rewrite Hmiss. cbn [fst snd]. rewrite lookup_insert_eq. cbn [fst].
      split; reflexivity.
  - eexists. eexists. split; [vm_compute; reflexivity|].
    eexists. vm_compute. reflexivity.
  - eexists. vm_compute. reflexivity.
  - vm_compute. reflexivity.
Qed.

Lemma getColorString_opaque_threshold_witness :
  fst (WasmWorker.getColorString ∅ 10 20 30 (fround 0.996))
  = "rgb(10,20,30)"
  /\ fst (WasmWorker.getColorString
            (snd (WasmWorker.getColorString ∅ 10 20 30 nan)) 10 20 30 0)
     = "rgb(10,20,30)".
Proof.
  destruct getColorString_opaque_threshold as (Hholds & Hfails & _).
  split.
  - destruct (Hholds ∅ 10 20 30 (fround 0.996))
      as (n & Hround & Hn & Hiff & Hopaque & _).
    + constructor.
    + unfold Worker.is_byte; lia.
    + unfold Worker.is_byte; lia.
    + unfold Worker.is_byte; lia.
    + reflexivity.
    + apply Hopaque, Hiff. reflexivity.
  - apply (Hfails ∅ 10 20 30).
    + constructor.
    + unfold Worker.is_byte; lia.
    + unfold Worker.is_byte; lia.
    + unfold Worker.is_byte; lia.
    + reflexivity.
Defined.

(** * Further properties *)

(** ** Escaping *)

Section Escaping.

Import Worker MarkupSpec.

(** The text that replaces a character: the character itself, or an
    entity, which starts with an ampersand and holds none of the
    characters that are escaped. *)
Lemma escapeChar_cases (c : ascii) :
  (escapeChar c = str1 c
   /\ c <> "&"%char /\ c <> "<"%char /\ c <> ">"%char /\ c <> quote
   /\ c <> "'"%char)
  \/ (c = "&"%char /\ escapeChar c = "&amp;")
  \/ (c = "<"%char /\ escapeChar c = "&lt;")
  \/ (c = ">"%char /\ escapeChar c = "&gt;")
  \/ (c = quote /\ escapeChar c = "&quot;")
  \/ (c = "'"%char /\ escapeChar c = "&#039;").
Proof.
  unfold escapeChar.
  destruct (Ascii.eqb_spec c "&") as [->|H1]; [tauto|].
  destruct (Ascii.eqb_spec c "<") as [->|H2]; [tauto|].
  destruct (Ascii.eqb_spec c ">") as [->|H3]; [tauto|].
  destruct (Ascii.eqb_spec c quote) as [->|H4]; [tauto|].
  destruct (Ascii.eqb_spec c "'") as [->|H5]; [tauto|].
  left. tauto.
Qed.

Lemma escapeChar_markup_free (c d : ascii) :
  In d (list_ascii_of_string (escapeChar c)) -> markup_free d.
Proof.
  destruct (escapeChar_cases c)
    as [(-> & H)|[(_ & ->)|[(_ & ->)|[(_ & ->)|[(_ & ->)|(_ & ->)]]]]];
    simpl; intros Hin.
  - destruct Hin as [<-|[]]. unfold markup_free. tauto.
  - repeat (destruct Hin as [<-|Hin]; [repeat split; discriminate|]).
    destruct Hin.
  - repeat (destruct Hin as [<-|Hin]; [repeat split; discriminate|]).
    destruct Hin.
  - repeat (destruct Hin as [<-|Hin]; [repeat split; discriminate|]).
    destruct Hin.
  - repeat (destruct Hin as [<-|Hin]; [repeat split; discriminate|]).
    destruct Hin.
  - repeat (destruct Hin as [<-|Hin]; [repeat split; discriminate|]).
    destruct Hin.
Qed.

Lemma escapeChar_head (c : ascii) :
  exists h t, escapeChar c = String h t.
Proof.
  destruct (escapeChar_cases c)
    as [(-> & H)|[(_ & ->)|[(_ & ->)|[(_ & ->)|[(_ & ->)|(_ & ->)]]]]];
    eexists; eexists; reflexivity.
Qed.

Lemma escapeHtml_inj (a : string) :
  forall b, escapeHtml a = escapeHtml b -> a = b.
Proof.
  induction a as [|c a IH]; intros [|d b] Heq.
  - reflexivity.
  - cbn [escapeHtml] in Heq. destruct (escapeChar_head d) as (h & t & Hd).
    rewrite Hd in Heq. discriminate.
  - cbn [escapeHtml] in Heq. destruct (escapeChar_head c) as (h & t & Hc).
    rewrite Hc in Heq. discriminate.
  - cbn [escapeHtml] in Heq.
    destruct (escapeChar_cases c)
      as [(Hc & Hc1 & Hc2 & Hc3 & Hc4 & Hc5)
         |[(Hc0 & Hc)|[(Hc0 & Hc)|[(Hc0 & Hc)|[(Hc0 & Hc)|(Hc0 & Hc)]]]]];
    destruct (escapeChar_cases d)
      as [(Hd & Hd1 & Hd2 & Hd3 & Hd4 & Hd5)
         |[(Hd0 & Hd)|[(Hd0 & Hd)|[(Hd0 & Hd)|[(Hd0 & Hd)|(Hd0 & Hd)]]]]];
    rewrite Hc, Hd in Heq; cbv [String.append str1 quote] in Heq;
    try discriminate;
    try (injection Heq as Hhead Heq; subst; congruence);
    try (injection Heq as Heq; subst; f_equal; now apply IH).
Qed.

End Escaping.

(** X1.  Escaped text holds no character that could open or close a
    tag or end the attribute value it is written into: whatever the
    input, [escapeHtml] returns a text without the characters less-than,
    greater-than, double quote and apostrophe. *)
Theorem escapeHtml_markup_free (text : string) (d : ascii) :
  In d (list_ascii_of_string (Worker.escapeHtml text)) ->
  MarkupSpec.markup_free d.
Proof.
  induction text as [|c text IH]; [intros []|].
  cbn [Worker.escapeHtml]. rewrite chars_append, in_app_iff.
  intros [Hin|Hin]; [|now apply IH].
  eapply escapeChar_markup_free, Hin.
Qed.

Lemma escapeHtml_markup_free_witness :
  In "&"%char (list_ascii_of_string (Worker.escapeHtml "<b>"))
  /\ MarkupSpec.markup_free "&"%char.
Proof.
  split; [left; reflexivity|].
  apply (escapeHtml_markup_free "<b>" "&"%char). left. reflexivity.
Defined.

(** X2.  Escaping loses nothing: two texts with the same escaped form
    are the same text, and escaping distributes over concatenation. *)
Theorem escapeHtml_lossless :
  (forall a b, Worker.escapeHtml a = Worker.escapeHtml b -> a = b)
  /\ (forall a b,
        Worker.escapeHtml (a ++ b)
        = (Worker.escapeHtml a ++ Worker.escapeHtml b)%string).
Proof.
  split; [exact escapeHtml_inj | exact escapeHtml_append].
Qed.
(** ** The grid text and its lines *)

Section GridLines.

Import Worker Spec.

Lemma split_nonempty (sep : ascii) (s : string) : split sep s <> [].
Proof.
  destruct s as [|c s]; [discriminate|]. cbn [split].
  destruct (Ascii.eqb c sep); [discriminate|].
  destruct (split sep s); discriminate.
Qed.

(** Splitting at the first separator. *)
Lemma split_line (sep : ascii) (line rest : string) :
  ~ In sep (list_ascii_of_string line) ->
  split sep (line ++ String sep rest) = line :: split sep rest.
Proof.
  induction line as [|c line IH]; intros Hsep.
  - change (EmptyString ++ String sep rest)%string with (String sep rest).
    cbn [split]. now rewrite Ascii.eqb_refl.
  - rewrite append_cons. cbn [split].
    destruct (Ascii.eqb_spec c sep) as [->|_]; [elim Hsep; now left|].
    rewrite IH; [reflexivity|]. intros Hin. apply Hsep. now right.
Qed.

Lemma split_grid_text (rows : list string) :
  Forall (fun row => ~ In newline (list_ascii_of_string row)) rows ->
  split newline (grid_text rows) = rows ++ [EmptyString].
Proof.
  induction 1 as [|row rows Hrow _ IH]; [reflexivity|].
  unfold grid_text in *. cbn [map]. rewrite join_cons.
  rewrite <- append_assoc, str1_append, split_line by assumption.
  now rewrite IH.
Qed.

End GridLines.

(** X3.  The lines that [applyColorToAscii] gets from
    [ascii.split('\n')] are the rows of the grid text followed by one
    empty line, whenever no row holds a newline; [lines[y][x]] is then
    the character of column [x] of row [y], and a column past the end
    of a row has no character. *)
Theorem split_grid_rows (rows : list string) :
  Forall (fun row => ~ In newline (list_ascii_of_string row)) rows ->
  split newline (Spec.grid_text rows) = rows ++ [EmptyString]
  /\ forall y row x,
       rows !! y = Some row -> row <> EmptyString ->
       Worker.cell_char (split newline (Spec.grid_text rows)) y x
       = String.get x row.
Proof.
  intros Hrows. split; [now apply split_grid_text|].
  intros y row x Hy Hrow. rewrite split_grid_text by assumption.
  unfold Worker.cell_char. rewrite lookup_app_l by (eapply lookup_lt_Some, Hy).
  rewrite Hy. now destruct row.
Qed.

Lemma split_grid_rows_witness :
  split newline (Spec.grid_text ["@#"; ". "]%string)
  = ["@#"; ". "; EmptyString]%string.
Proof.
  apply (split_grid_rows ["@#"; ". "]%string).
  repeat constructor; vm_compute; intuition discriminate.
Defined.
(** ** The colour list and the palette *)

Section Palette.

Import Worker Spec PaletteSpec.

Lemma bump_counts (key : Z) (colorMap : list (Z * Z)) :
  Forall (fun p => 1 <= snd p) colorMap ->
  Forall (fun p => 1 <= snd p) (bump key colorMap)
  /\ foldr (fun p acc => snd p + acc) 0 (bump key colorMap)
     = foldr (fun p acc => snd p + acc) 0 colorMap + 1.
Proof.
  induction 1 as [|[k count] rest Hk Hrest [IH1 IH2]]; cbn [bump].
  - split; [repeat constructor; simpl; lia | reflexivity].
  - destruct (k =? key).
    + split; [constructor; [simpl in *; lia | assumption]|]. simpl. lia.
    + split; [constructor; assumption|]. simpl. simpl in IH2. lia.
Qed.

Lemma foldl_bump_counts (keys : list Z) :
  forall colorMap,
    Forall (fun p => 1 <= snd p) colorMap ->
    Forall (fun p => 1 <= snd p) (foldl (fun m key => bump key m) colorMap keys)
    /\ foldr (fun p acc => snd p + acc) 0
         (foldl (fun m key => bump key m) colorMap keys)
       = foldr (fun p acc => snd p + acc) 0 colorMap + Z.of_nat (length keys).
Proof.
  induction keys as [|key keys IH]; intros colorMap Hm; cbn [foldl length].
  - split; [assumption | lia].
  - destruct (bump_counts key colorMap Hm) as [H1 H2].
    destruct (IH _ H1) as [H3 H4]. split; [assumption|]. rewrite H4, H2. lia.
Qed.

Lemma colorMap_counts (pixels : PixelBuffer) (saturation : float) :
  Forall (fun p => 1 <= snd p) (colorMap_of pixels saturation)
  /\ foldr (fun p acc => snd p + acc) 0 (colorMap_of pixels saturation)
     = Z.of_nat (length (sampled_colors pixels saturation)).
Proof.
  unfold colorMap_of, sampled_colors.
  set (offsets := sample_offsets _ _ _ _).
  rewrite <- (foldl_map (fun m key => bump key m)
                (fun i => pack_key (sampled pixels saturation i))).
  destruct (foldl_bump_counts
              (map (fun i => pack_key (sampled pixels saturation i)) offsets) [])
    as [H1 H2]; [constructor|].
  split; [assumption|]. rewrite H2. now rewrite !length_map.
Qed.

Lemma unpack_key_byte (key : Z) : byte_color (unpack_key key).
Proof.
  unfold unpack_key, byte_color, is_byte. change 255 with (Z.ones 8).
  rewrite !Z.land_ones by lia. change (2 ^ 8) with 256.
  repeat split; apply Z.mod_pos_bound; lia.
Qed.

Lemma colorList_counted (pixels : PixelBuffer) (saturation : float) :
  Forall counted (colorList_of pixels saturation).
Proof.
  unfold colorList_of. destruct (colorMap_counts pixels saturation) as [H _].
  induction H as [|[key count] rest Hk _ IH]; cbn [map]; constructor;
    [|assumption].
  split; [apply unpack_key_byte | exact Hk].
Qed.

Lemma colorList_total (pixels : PixelBuffer) (saturation : float) :
  total_weight (colorList_of pixels saturation)
  = Z.of_nat (length (sampled_colors pixels saturation)).
Proof.
  destruct (colorMap_counts pixels saturation) as [_ <-].
  unfold colorList_of, total_weight.
  induction (colorMap_of pixels saturation) as [|[key count] rest IH];
    [reflexivity|]. cbn [map foldr weight snd]. now rewrite IH.
Qed.

(** The count of the offsets visited with a positive stride. *)
Lemma sample_offsets_count (stride len : nat) (fuel : nat) :
  (0 < stride)%nat ->
  forall i,
    (length (sample_offsets fuel i len stride) * stride
     <= (len - i) + (stride - 1))%nat.
Proof.
  intros Hstride. induction fuel as [|fuel IH]; intros i; cbn [sample_offsets].
  - simpl. lia.
  - destruct (Nat.ltb_spec i len) as [Hlt|Hge]; [|simpl; lia].
    cbn [length]. specialize (IH (i + stride)%nat).
    destruct fuel as [|fuel']; [simpl in *; lia|].
    cbn [sample_offsets] in *.
    destruct (Nat.ltb_spec (i + stride) len) as [Hlt'|Hge'];
      [|simpl; lia].
    cbn [length] in *. lia.
Qed.

Lemma sample_count_le (pixels : PixelBuffer) :
  Z.of_nat (length (sample_offsets (length pixels) 0 (length pixels)
                      (4 * sample_step pixels))) <= 20000.
Proof.
  pose proof (sample_offsets_count (4 * sample_step pixels) (length pixels)
                (length pixels)) as H.
  assert (Hstep : (1 <= sample_step pixels)%nat)
    by (unfold sample_step; lia).
  specialize (H ltac:(lia) 0%nat).
  set (n := length (sample_offsets _ _ _ _)) in *. clearbody n.
  unfold sample_step in *.
  set (len := length pixels) in *. clearbody len.
  set (q := Z.of_nat len / 4 / 10000) in *.
  assert (Hq : 0 <= q) by (unfold q; apply Z.div_pos; [apply Z.div_pos|]; lia).
  assert (Hlen : Z.of_nat len < 40000 * (q + 1)).
  { unfold q. rewrite Z.div_div by lia. change (4 * 10000) with 40000.
    pose proof (Z.mul_succ_div_gt (Z.of_nat len) 40000 ltac:(lia)). lia. }
  clearbody q.
  destruct (Z.eq_dec q 0) as [->|Hq0].
  - simpl in H. lia.
  - assert (Hmax : Nat.max 1 (Z.to_nat q) = Z.to_nat q) by lia.
    rewrite Hmax in H.
    assert (HZ : Z.of_nat n * (4 * q) <= Z.of_nat len + 4 * q - 1) by nia.
    destruct (Z_le_gt_dec (Z.of_nat n) 20000) as [Hle|Hgt]; [exact Hle|].
    assert (80004 * q <= Z.of_nat n * (4 * q)) by nia. lia.
Qed.

End Palette.

(** X4.  The colour list that [quantizeColors] builds accounts for
    every sampled pixel exactly once: each entry is a byte triple met
    at least once, and the counts add up to the number of pixels the
    sampling loop visited. *)
Theorem colorList_accounts_for_samples (pixels : Worker.PixelBuffer)
  (saturation : float) :
  Forall PaletteSpec.counted (Worker.colorList_of pixels saturation)
  /\ PaletteSpec.total_weight (Worker.colorList_of pixels saturation)
     = Z.of_nat (length (Spec.sampled_colors pixels saturation)).
Proof.
  split; [apply colorList_counted | apply colorList_total].
Qed.

(** X5.  However large the image, the sampling loop of
    [quantizeColors] visits at most 20000 pixels; every offset it
    visits lies inside the buffer and is a multiple of four times the
    step, hence the start of a pixel, and a buffer that is not empty
    has its first pixel sampled. *)
Theorem sampling_is_bounded (pixels : Worker.PixelBuffer) (saturation : float) :
  Z.of_nat (length (Spec.sampled_colors pixels saturation)) <= 20000
  /\ (forall j,
        In j (Worker.sample_offsets (length pixels) 0 (length pixels)
                (4 * Worker.sample_step pixels)) ->
        (j < length pixels)%nat
        /\ exists t, j = (t * (4 * Worker.sample_step pixels))%nat)
  /\ (pixels <> [] ->
      exists rest,
        Spec.sampled_colors pixels saturation
        = Worker.sampled pixels saturation 0 :: rest).
Proof.
  split; [|split].
  - unfold Spec.sampled_colors. rewrite length_map. apply sample_count_le.
  - intros j Hj. apply sample_offsets_spec in Hj as (Hlt & t & ->).
    split; [assumption|]. now exists t.
  - intros Hne. unfold Spec.sampled_colors.
    destruct pixels as [|v pixels]; [congruence|].
    cbn [length Worker.sample_offsets]. cbn [Nat.ltb Nat.leb map]. eauto.
Qed.

Lemma sampling_is_bounded_witness :
  exists rest,
    Spec.sampled_colors [1; 2; 3; 255] 1
    = Worker.sampled [1; 2; 3; 255] 1 0 :: rest.
Proof.
  apply (sampling_is_bounded [1; 2; 3; 255] 1). discriminate.
Defined.
(** ** The palette: bytes, size, non-emptiness *)

Section PaletteBytes.

Import Worker Spec PaletteSpec.

Lemma round_div_byte (t total : Z) :
  0 < total -> 0 <= t <= 255 * total -> is_byte (round_div t total).
Proof.
  intros Htotal Ht. unfold round_div, is_byte. split.
  - apply Z.div_pos; lia.
  - apply Z.div_lt_upper_bound; lia.
Qed.

(** The sums of a bucket of counted colours. *)
Lemma bucket_sums_bounds (colors : list Weighted) :
  Forall counted colors ->
  forall tr tg tb total,
    0 <= tr <= 255 * total -> 0 <= tg <= 255 * total ->
    0 <= tb <= 255 * total -> 0 <= total ->
    let '(tr', tg', tb', total') :=
      foldl (fun '(tr, tg, tb, total) c =>
               let '(r, g, b) := rgb c in
               (tr + r * weight c, tg + g * weight c, tb + b * weight c,
                total + weight c))
            (tr, tg, tb, total) colors in
    0 <= tr' <= 255 * total' /\ 0 <= tg' <= 255 * total'
    /\ 0 <= tb' <= 255 * total'
    /\ total + Z.of_nat (length colors) <= total'.
Proof.
  induction 1 as [|c colors Hc _ IH]; intros tr tg tb total Hr Hg Hb Ht.
  - cbn [foldl length]. lia.
  - cbn [foldl length]. destruct Hc as [Hrgb Hw].
    destruct (rgb c) as [[r g] b]. destruct Hrgb as (Hr' & Hg' & Hb').
    unfold is_byte in *.
    specialize (IH (tr + r * weight c) (tg + g * weight c)
                  (tb + b * weight c) (total + weight c)
                  ltac:(nia) ltac:(nia) ltac:(nia) ltac:(lia)).
    destruct (foldl _ _ colors) as [[[tr' tg'] tb'] total']. lia.
Qed.

Lemma worker_bucket_average_bytes (colors : list Weighted) :
  Forall counted colors ->
  Forall byte_color (Worker.bucket_average colors)
  /\ length (Worker.bucket_average colors) = 1%nat.
Proof.
  intros Hc. unfold Worker.bucket_average, bucket_sums.
  pose proof (bucket_sums_bounds colors Hc 0 0 0 0
                ltac:(lia) ltac:(lia) ltac:(lia) ltac:(lia)) as H.
  destruct (foldl _ _ colors) as [[[tr tg] tb] total].
  destruct H as (Hr & Hg & Hb & Ht).
  destruct (Z.eqb_spec total 0) as [_|Hne].
  - split; [|reflexivity]. repeat constructor; unfold is_byte; lia.
  - split; [|reflexivity].
    repeat constructor; apply round_div_byte; lia.
Qed.

Lemma main_bucket_average_bytes (colors : list Weighted) :
  Forall counted colors ->
  Forall byte_color (Main.bucket_average colors)
  /\ (length (Main.bucket_average colors) <= 1)%nat
  /\ (colors <> [] -> Main.bucket_average colors <> []).
Proof.
  intros Hc. unfold Main.bucket_average, bucket_sums.
  pose proof (bucket_sums_bounds colors Hc 0 0 0 0
                ltac:(lia) ltac:(lia) ltac:(lia) ltac:(lia)) as H.
  destruct (foldl _ _ colors) as [[[tr tg] tb] total].
  destruct H as (Hr & Hg & Hb & Ht).
  destruct (Z.eqb_spec total 0) as [->|Hne].
  - split; [constructor|]. split; [simpl; lia|].
    intros Hcolors. destruct colors; [congruence|]. simpl in Ht. lia.
  - split; [|split; [simpl; lia | discriminate]].
    repeat constructor; apply round_div_byte; lia.
Qed.

Lemma Forall_insert_by (P : Weighted -> Prop) (channel : nat) (c : Weighted)
  (sorted : list Weighted) :
  P c -> Forall P sorted -> Forall P (insert_by channel c sorted).
Proof.
  intros Hc. induction 1 as [|d rest Hd Hrest IH]; cbn [insert_by].
  - now constructor.
  - destruct (channel_of c channel <=? channel_of d channel);
      repeat constructor; assumption.
Qed.

Lemma Forall_sort_by (P : Weighted -> Prop) (channel : nat)
  (colors : list Weighted) :
  Forall P colors -> Forall P (sort_by channel colors).
Proof.
  unfold sort_by. induction 1; cbn [foldr]; [constructor|].
  now apply Forall_insert_by.
Qed.

(** The two halves of a bucket of two or more colours. *)
Lemma halves (channel : nat) (colors : list Weighted) :
  (length colors <=? 1)%nat = false ->
  let sorted := sort_by channel colors in
  let mid := (length sorted / 2)%nat in
  take mid sorted <> [] /\ drop mid sorted <> [].
Proof.
  intros Hlen. apply Nat.leb_gt in Hlen. cbn zeta.
  set (sorted := sort_by channel colors).
  assert (Hs : length sorted = length colors) by apply length_sort_by.
  assert (Hmid : (1 <= length sorted / 2 < length sorted)%nat).
  { rewrite Hs. split.
    - apply Nat.div_le_lower_bound; lia.
    - apply Nat.div_lt; lia. }
  split; intros Hnil; apply (f_equal length) in Hnil;
    rewrite ?length_take, ?length_drop in Hnil; cbn [length] in Hnil; lia.
Qed.

Lemma worker_medianCut_bytes (fuel : nat) :
  forall colors depth,
    Forall counted colors ->
    Forall byte_color (Worker.medianCut fuel colors depth)
    /\ Worker.medianCut fuel colors depth <> [].
Proof.
  assert (Hleaf : forall colors, Forall counted colors ->
            Forall byte_color (Worker.bucket_average colors)
            /\ Worker.bucket_average colors <> []).
  { intros colors Hc.
    destruct (worker_bucket_average_bytes colors Hc) as [H1 H2].
    split; [assumption|]. intros Hnil. now rewrite Hnil in H2. }
  induction fuel as [|fuel IH]; intros colors depth Hc;
    cbn [Worker.medianCut]; [now apply Hleaf|].
  destruct (is_zero_depth depth || (length colors <=? 1)%nat);
    [now apply Hleaf|].
  set (sorted := sort_by _ colors).
  assert (Hs : Forall counted sorted) by now apply Forall_sort_by.
  destruct (IH (take (length sorted / 2) sorted) (pred_depth depth))
    as [H1 H2]; [now apply Forall_take|].
  destruct (IH (drop (length sorted / 2) sorted) (pred_depth depth))
    as [H3 H4]; [now apply Forall_drop|].
  split; [now apply Forall_app|].
  intros Hnil. apply app_eq_nil in Hnil as [Hnil _]. contradiction.
Qed.

Lemma main_medianCut_bytes (fuel : nat) :
  forall colors depth,
    Forall counted colors ->
    Forall byte_color (Main.medianCut fuel colors depth)
    /\ (colors <> [] -> Main.medianCut fuel colors depth <> []).
Proof.
  assert (Hleaf : forall colors, Forall counted colors ->
            Forall byte_color (Main.bucket_average colors)
            /\ (colors <> [] -> Main.bucket_average colors <> [])).
  { intros colors Hc.
    destruct (main_bucket_average_bytes colors Hc) as (H1 & _ & H2).
    now split. }
  induction fuel as [|fuel IH]; intros colors depth Hc;
    cbn [Main.medianCut]; [now apply Hleaf|].
  destruct (is_zero_depth depth) eqn:Hdepth; cbn [orb]; [now apply Hleaf|].
  destruct (length colors <=? 1)%nat eqn:Hlen; [now apply Hleaf|].
  pose proof (halves (Main.choose_channel
                        [getRange colors 0; getRange colors 1;
                         getRange colors 2]) colors Hlen) as [Ht Hd].
  cbn zeta in Ht, Hd.
  set (sorted := sort_by _ colors) in *.
  assert (Hs : Forall counted sorted) by now apply Forall_sort_by.
  destruct (IH (take (length sorted / 2) sorted) (pred_depth depth))
    as [H1 H2]; [now apply Forall_take|].
  destruct (IH (drop (length sorted / 2) sorted) (pred_depth depth))
    as [H3 H4]; [now apply Forall_drop|].
  split; [now apply Forall_app|].
  intros _ Hnil. apply app_eq_nil in Hnil as [Hnil _]. now apply H2.
Qed.

Lemma colorList_rgb_bytes (pixels : PixelBuffer) (saturation : float) :
  Forall byte_color (map rgb (colorList_of pixels saturation)).
Proof.
  apply Forall_map. eapply Forall_impl; [apply colorList_counted|].
  now intros c [H _].
Qed.

Lemma colorList_nonempty (pixels : PixelBuffer) (saturation : float) :
  pixels <> [] -> colorList_of pixels saturation <> [].
Proof.
  intros Hne Hnil.
  pose proof (colorList_total pixels saturation) as Htotal.
  rewrite Hnil in Htotal. unfold sampled_colors in Htotal.
  destruct pixels as [|v pixels]; [congruence|].
  cbn [length sample_offsets Nat.ltb Nat.leb map] in Htotal.
  simpl in Htotal. lia.
Qed.

End PaletteBytes.

(** X6.  Whatever the pixel buffer, the number of colours asked for
    and the saturation, every colour of the palette that
    [quantizeColors] returns has its three channels between 0 and 255,
    in the worker and in the main-thread version alike. *)
Theorem quantizeColors_byte_channels (pixels : Worker.PixelBuffer)
  (numColors : nat) (saturation : float) :
  Forall Spec.byte_color (Worker.quantizeColors pixels numColors saturation)
  /\ Forall Spec.byte_color (Main.quantizeColors pixels numColors saturation).
Proof.
  unfold Worker.quantizeColors, Main.quantizeColors.
  destruct (length (Worker.colorList_of pixels saturation) <=? numColors)%nat.
  - split; apply colorList_rgb_bytes.
  - split; apply Forall_take.
    + apply worker_medianCut_bytes, colorList_counted.
    + apply main_medianCut_bytes, colorList_counted.
Qed.

(** X7.  A palette is empty only for an empty pixel buffer or for zero
    colours: from a buffer with at least one value, asking for at
    least one colour, both versions of [quantizeColors] return at
    least one colour (so [nearestColor] has something to return). *)
Theorem quantizeColors_nonempty (pixels : Worker.PixelBuffer)
  (numColors : nat) (saturation : float) :
  pixels <> [] -> (1 <= numColors)%nat ->
  Worker.quantizeColors pixels numColors saturation <> []
  /\ Main.quantizeColors pixels numColors saturation <> [].
Proof.
  intros Hpixels Hk.
  pose proof (colorList_nonempty pixels saturation Hpixels) as Hlist.
  unfold Worker.quantizeColors, Main.quantizeColors.
  destruct (length (Worker.colorList_of pixels saturation) <=? numColors)%nat.
  - split; intros Hnil; apply map_eq_nil in Hnil; contradiction.
  - destruct (worker_medianCut_bytes
                (length (Worker.colorList_of pixels saturation))
                (Worker.colorList_of pixels saturation)
                (Worker.depth_for numColors)
                (colorList_counted pixels saturation)) as [_ Hw].
    destruct (main_medianCut_bytes
                (length (Worker.colorList_of pixels saturation))
                (Worker.colorList_of pixels saturation)
                (Worker.depth_for numColors)
                (colorList_counted pixels saturation)) as [_ Hm].
    specialize (Hm Hlist).
    destruct numColors as [|k]; [lia|].
    split.
    + destruct (Worker.medianCut _ _ _); [congruence | discriminate].
    + destruct (Main.medianCut _ _ _); [congruence | discriminate].
Qed.

Lemma quantizeColors_nonempty_witness :
  Worker.quantizeColors tied_pixels 2 1 <> []
  /\ Main.quantizeColors tied_pixels 2 1 <> [].
Proof.
  apply (quantizeColors_nonempty tied_pixels 2 1); [discriminate | lia].
Defined.
(** ** The median cut: size of the result, choice of the channel *)

Section MedianCutSize.

Import Worker.

Lemma worker_medianCut_length (fuel : nat) :
  forall colors d,
    0 <= d ->
    1 <= Z.of_nat (length (Worker.medianCut fuel colors (IInt d))) <= 2 ^ d.
Proof.
  assert (Hleaf : forall colors d, 0 <= d ->
            1 <= Z.of_nat (length (Worker.bucket_average colors)) <= 2 ^ d).
  { intros colors d Hd. unfold Worker.bucket_average.
    destruct (bucket_sums colors) as [[[tr tg] tb] total].
    pose proof (Z.pow_pos_nonneg 2 d ltac:(lia) Hd).
    destruct (total =? 0); simpl; lia. }
  induction fuel as [|fuel IH]; intros colors d Hd; cbn [Worker.medianCut];
    [now apply Hleaf|].
  destruct (is_zero_depth (IInt d)) eqn:Hzero; cbn [orb]; [now apply Hleaf|].
  destruct (length colors <=? 1)%nat; [now apply Hleaf|].
  assert (Hd' : 0 <= d - 1) by (destruct d; simpl in Hzero; try lia; congruence).
  cbn [pred_depth]. rewrite length_app, Nat2Z.inj_add.
  replace (2 ^ d) with (2 ^ (d - 1) + 2 ^ (d - 1)).
  - pose proof (IH (take (length (sort_by (choose_channel (getRange colors 0)
                  (getRange colors 1) (getRange colors 2)) colors) / 2)
                  (sort_by (choose_channel (getRange colors 0)
                  (getRange colors 1) (getRange colors 2)) colors)) (d - 1) Hd').
    pose proof (IH (drop (length (sort_by (choose_channel (getRange colors 0)
                  (getRange colors 1) (getRange colors 2)) colors) / 2)
                  (sort_by (choose_channel (getRange colors 0)
                  (getRange colors 1) (getRange colors 2)) colors)) (d - 1) Hd').
    lia.
  - replace d with (Z.succ (d - 1)) at 3 by lia.
    rewrite Z.pow_succ_r by lia. lia.
Qed.

Lemma main_medianCut_length (fuel : nat) :
  forall colors d,
    0 <= d ->
    Z.of_nat (length (Main.medianCut fuel colors (IInt d))) <= 2 ^ d.
Proof.
  assert (Hleaf : forall colors d, 0 <= d ->
            Z.of_nat (length (Main.bucket_average colors)) <= 2 ^ d).
  { intros colors d Hd. unfold Main.bucket_average.
    destruct (bucket_sums colors) as [[[tr tg] tb] total].
    pose proof (Z.pow_pos_nonneg 2 d ltac:(lia) Hd).
    destruct (total =? 0); simpl; lia. }
  induction fuel as [|fuel IH]; intros colors d Hd; cbn [Main.medianCut];
    [now apply Hleaf|].
  destruct (is_zero_depth (IInt d)) eqn:Hzero; cbn [orb]; [now apply Hleaf|].
  destruct (length colors <=? 1)%nat; [now apply Hleaf|].
  assert (Hd' : 0 <= d - 1) by (destruct d; simpl in Hzero; try lia; congruence).
  cbn [pred_depth]. rewrite length_app, Nat2Z.inj_add.
  replace (2 ^ d) with (2 ^ (d - 1) + 2 ^ (d - 1)).
  - set (sorted := sort_by _ colors).
    pose proof (IH (take (length sorted / 2) sorted) (d - 1) Hd').
    pose proof (IH (drop (length sorted / 2) sorted) (d - 1) Hd').
    lia.
  - replace d with (Z.succ (d - 1)) at 3 by lia.
    rewrite Z.pow_succ_r by lia. lia.
Qed.

End MedianCutSize.

(** X8.  A median cut of depth [d] (an integer that is not negative)
    returns at most [2^d] colours, and the worker's returns at least
    one: each level at most doubles the number of buckets and each
    bucket gives one colour (none, in the main-thread version, when
    its total weight is zero). *)
Theorem medianCut_size (fuel : nat) (colors : list Worker.Weighted) (d : Z) :
  0 <= d ->
  1 <= Z.of_nat (length (Worker.medianCut fuel colors (IInt d))) <= 2 ^ d
  /\ Z.of_nat (length (Main.medianCut fuel colors (IInt d))) <= 2 ^ d.
Proof.
  intros Hd. split.
  - now apply worker_medianCut_length.
  - now apply main_medianCut_length.
Qed.

Lemma medianCut_size_witness :
  1 <= Z.of_nat (length (Worker.medianCut 3
                           (Worker.colorList_of tied_pixels 1) (IInt 1)))
    <= 2 ^ 1
  /\ Z.of_nat (length (Main.medianCut 3
                         (Worker.colorList_of tied_pixels 1) (IInt 1)))
     <= 2 ^ 1.
Proof.
  apply (medianCut_size 3 (Worker.colorList_of tied_pixels 1) 1). lia.
Defined.

(** X9.  The two copies of the median cut split along the same channel
    exactly when the red range is not a greatest range shared with
    another channel: the worker and the main thread disagree if and
    only if red ties for the widest range with green or with blue. *)
Theorem choose_channel_agreement (rRange gRange bRange : Z) :
  Worker.choose_channel rRange gRange bRange
  = Main.choose_channel [rRange; gRange; bRange]
  <-> ~ (gRange <= rRange /\ bRange <= rRange
         /\ (gRange = rRange \/ bRange = rRange)).
Proof.
  rewrite worker_choose_channel_cases, main_choose_channel_cases.
  destruct (Z.leb_spec rRange gRange), (Z.leb_spec bRange gRange),
    (Z.leb_spec rRange bRange), (Z.leb_spec gRange bRange),
    (Z.leb_spec gRange rRange), (Z.leb_spec bRange rRange);
    cbn [andb]; split; intros; try lia; try discriminate; try reflexivity.
Qed.
(** ** The histogram and the divisor of the equalization *)

Section Histogram.

Import Worker HistogramSpec.

Lemma count_bin_lookup (histogram : list Z) (b : float) (j : nat) :
  (j < 256)%nat ->
  count_bin histogram b !! j
  = (fun v => v + (if in_bin (Z.of_nat j) b then 1 else 0)) <$> histogram !! j.
Proof.
  intros Hj. unfold count_bin, in_bin.
  assert (Hsame : histogram !! j = (fun v => v + 0) <$> histogram !! j).
  { destruct (histogram !! j); simpl; [f_equal; lia | reflexivity]. }
  destruct (bin b) as [| |z]; try exact Hsame.
  destruct (Z.leb_spec 0 z), (Z.ltb_spec z 256); cbn [andb];
    try (destruct (Z.eqb_spec z (Z.of_nat j)); [lia | exact Hsame]).
  destruct (Z.eqb_spec z (Z.of_nat j)) as [->|Hne].
  - rewrite Nat2Z.id, list_lookup_alter_eq.
    destruct (histogram !! j); simpl; [f_equal; lia | reflexivity].
  - rewrite list_lookup_alter_ne by lia. exact Hsame.
Qed.

Lemma population_cons (j : Z) (b : float) (brightness : list float) :
  population j (b :: brightness)
  = (if in_bin j b then 1 else 0) + population j brightness.
Proof.
  unfold population. cbn [List.filter]. destruct (in_bin j b); simpl length; lia.
Qed.

Lemma foldl_count_bin_lookup (brightness : list float) (j : nat) :
  (j < 256)%nat ->
  forall histogram,
    foldl count_bin histogram brightness !! j
    = (fun v => v + population (Z.of_nat j) brightness) <$> histogram !! j.
Proof.
  intros Hj. induction brightness as [|b brightness IH]; intros histogram.
  - cbn [foldl]. unfold population. simpl.
    destruct (histogram !! j); simpl; [f_equal; lia | reflexivity].
  - cbn [foldl]. rewrite IH, count_bin_lookup, population_cons by assumption.
    destruct (histogram !! j); simpl; [f_equal; lia | reflexivity].
Qed.

Lemma length_count_bin (histogram : list Z) (b : float) :
  length (count_bin histogram b) = length histogram.
Proof.
  unfold count_bin. destruct (bin b) as [| |z]; try reflexivity.
  destruct ((0 <=? z) && (z <? 256)); [apply length_alter | reflexivity].
Qed.

Lemma length_histogram_of (brightness : list float) :
  length (histogram_of brightness) = 256%nat.
Proof.
  unfold histogram_of.
  assert (H : forall h, length (foldl count_bin h brightness) = length h).
  { induction brightness as [|b l IH]; intros h; cbn [foldl]; [reflexivity|].
    now rewrite IH, length_count_bin. }
  now rewrite H, length_replicate.
Qed.

Lemma histogram_lookup (brightness : list float) (j : nat) :
  (j < 256)%nat ->
  histogram_of brightness !! j = Some (population (Z.of_nat j) brightness).
Proof.
  intros Hj. unfold histogram_of.
  rewrite foldl_count_bin_lookup, lookup_replicate_2 by assumption.
  reflexivity.
Qed.

Lemma population_bounds (j : Z) (brightness : list float) :
  0 <= population j brightness <= Z.of_nat (length brightness).
Proof.
  unfold population. split; [lia|]. apply inj_le.
  induction brightness as [|b l IH]; [simpl; lia|].
  cbn [List.filter]. destruct (in_bin j b); simpl; lia.
Qed.

(** A bin holds every sample exactly when each sample falls into it. *)
Lemma population_full (j : Z) (brightness : list float) :
  population j brightness = Z.of_nat (length brightness)
  <-> Forall (fun b => in_bin j b = true) brightness.
Proof.
  induction brightness as [|b l IH].
  - split; [constructor | reflexivity].
  - rewrite population_cons. pose proof (population_bounds j l) as Hb.
    cbn [length]. rewrite Nat2Z.inj_succ.
    destruct (in_bin j b) eqn:Hin.
    + split.
      * intros H. constructor; [assumption|]. apply IH. lia.
      * intros H. inversion H; subst. apply IH in H3. lia.
    + split; [lia|]. intros H. inversion H; subst. congruence.
Qed.

(** With counters that are not negative, the first positive entry of
    the cumulative sums is the first positive counter. *)
Lemma find_running_sum (histogram : list Z) :
  Forall (fun v => 0 <= v) histogram ->
  find (fun v => 0 <? v) (running_sum 0 histogram)
  = find (fun v => 0 <? v) histogram.
Proof.
  induction 1 as [|h rest Hh _ IH]; [reflexivity|].
  cbn [running_sum find]. change (0 + h) with h.
  destruct (Z.ltb_spec 0 h); [reflexivity|].
  assert (h = 0) as -> by lia. exact IH.
Qed.

Lemma histogram_nonneg (brightness : list float) :
  Forall (fun v => 0 <= v) (histogram_of brightness).
Proof.
  apply Forall_lookup_2. intros j v Hv.
  assert (Hj : (j < 256)%nat).
  { rewrite <- (length_histogram_of brightness). eapply lookup_lt_Some, Hv. }
  rewrite histogram_lookup in Hv by assumption. injection Hv as <-.
  apply population_bounds.
Qed.

Lemma in_bin_bin (j : Z) (b : float) :
  in_bin j b = true <-> bin b = IInt j.
Proof.
  unfold in_bin. destruct (bin b) as [| |z]; try (split; discriminate).
  rewrite Z.eqb_eq. split; congruence.
Qed.

Lemma cdfMin_population (brightness : list float) :
  brightness <> [] -> Forall in_range brightness ->
  exists j,
    (j < 256)%nat
    /\ find (fun v => 0 <? v) (cdf_of (histogram_of brightness))
       = Some (population (Z.of_nat j) brightness)
    /\ 0 < population (Z.of_nat j) brightness.
Proof.
  intros Hne Hrange. unfold cdf_of.
  rewrite find_running_sum by apply histogram_nonneg.
  destruct (find (fun v => 0 <? v) (histogram_of brightness)) as [m|] eqn:Hfind.
  - apply find_some in Hfind as [Hin Hpos]. apply Z.ltb_lt in Hpos.
    apply list_elem_of_In, list_elem_of_lookup_1 in Hin as [j Hj].
    assert (Hlt : (j < 256)%nat).
    { rewrite <- (length_histogram_of brightness). eapply lookup_lt_Some, Hj. }
    rewrite histogram_lookup in Hj by assumption. injection Hj as <-.
    exists j. auto.
  - exfalso. destruct brightness as [|b l]; [congruence|].
    inversion Hrange as [|? ? (z & Hz & Hz') _]; subst.
    assert (Hj : (Z.to_nat z < 256)%nat) by lia.
    pose proof (histogram_lookup (b :: l) (Z.to_nat z) Hj) as Hlook.
    apply list_elem_of_lookup_2, list_elem_of_In in Hlook.
    apply (find_none _ _ Hfind) in Hlook. apply Z.ltb_ge in Hlook.
    rewrite Z2Nat.id, population_cons in Hlook by lia.
    pose proof (population_bounds z l).
    unfold in_bin in Hlook. rewrite Hz, Z.eqb_refl in Hlook. lia.
Qed.

End Histogram.

(** X10.  The histogram that [applyContrast] fills has 256 counters,
    and counter [j] holds the number of samples whose bin
    [Math.floor(b * 255)] is [j]; a sample whose bin is NaN or outside
    0..255 is counted nowhere. *)
Theorem histogram_counts (brightness : list float) :
  length (Worker.histogram_of brightness) = 256%nat
  /\ forall j : nat,
       (j < 256)%nat ->
       Worker.histogram_of brightness !! j
       = Some (HistogramSpec.population (Z.of_nat j) brightness)
       /\ 0 <= HistogramSpec.population (Z.of_nat j) brightness
          <= Z.of_nat (length brightness).
Proof.
  split; [apply length_histogram_of|]. intros j Hj.
  split; [now apply histogram_lookup | apply population_bounds].
Qed.

Lemma histogram_counts_witness :
  Worker.histogram_of [0; 0.5; 0.5; 1]%float !! 127%nat
  = Some (HistogramSpec.population 127 [0; 0.5; 0.5; 1]%float).
Proof.
  apply (histogram_counts [0; 0.5; 0.5; 1]%float). cbv. lia.
Defined.

(** X11.  When the luminance array is not empty and every sample
    falls into one of the 256 bins, [cdfMin] is the population of
    the lowest occupied bin, between 1 and the number of samples; the
    divisor [total - cdfMin] of the equalization is zero if and only
    if all the samples fall into one bin.  On every other input the
    division is by a positive number. *)
Theorem equalize_divisor (brightness : list float) :
  brightness <> [] ->
  Forall HistogramSpec.in_range brightness ->
  exists cdfMin,
    find (fun v => 0 <? v) (Worker.cdf_of (Worker.histogram_of brightness))
    = Some cdfMin
    /\ 1 <= cdfMin <= Z.of_nat (length brightness)
    /\ (Z.of_nat (length brightness) - cdfMin = 0
        <-> exists k, Forall (fun b => Worker.bin b = IInt k) brightness).
Proof.
  intros Hne Hrange.
  destruct (cdfMin_population brightness Hne Hrange) as (j & Hj & Hfind & Hpos).
  exists (HistogramSpec.population (Z.of_nat j) brightness).
  pose proof (population_bounds (Z.of_nat j) brightness) as Hb.
  split; [assumption|]. split; [lia|]. split.
  - intros Hzero. exists (Z.of_nat j).
    assert (Hfull : HistogramSpec.population (Z.of_nat j) brightness
                    = Z.of_nat (length brightness)) by lia.
    apply population_full in Hfull.
    eapply Forall_impl; [exact Hfull|]. intros b. apply in_bin_bin.
  - intros [k Hk].
    assert (Hjk : Z.of_nat j = k).
    { destruct (Z.eq_dec (Z.of_nat j) k) as [|Hneq]; [assumption|].
      exfalso.
      assert (Hnone : HistogramSpec.population (Z.of_nat j) brightness = 0);
        [|lia].
      unfold HistogramSpec.population. clear - Hk Hneq.
      induction Hk as [|b l Hb _ IH]; [reflexivity|].
      cbn [List.filter]. unfold HistogramSpec.in_bin at 1. rewrite Hb.
      destruct (Z.eqb_spec k (Z.of_nat j)); [congruence | exact IH]. }
    assert (Hfull : HistogramSpec.population (Z.of_nat j) brightness
                    = Z.of_nat (length brightness)); [|lia].
    apply population_full. eapply Forall_impl; [exact Hk|].
    intros b Hbin. apply in_bin_bin. congruence.
Qed.

Lemma equalize_divisor_witness :
  exists cdfMin,
    find (fun v => 0 <? v)
      (Worker.cdf_of (Worker.histogram_of [0; 0.5; 0.5; 1]%float))
    = Some cdfMin
    /\ 1 <= cdfMin <= Z.of_nat (length [0; 0.5; 0.5; 1]%float)
    /\ (Z.of_nat (length [0; 0.5; 0.5; 1]%float) - cdfMin = 0
        <-> exists k,
              Forall (fun b => Worker.bin b = IInt k) [0; 0.5; 0.5; 1]%float).
Proof.
  apply (equalize_divisor [0; 0.5; 0.5; 1]%float); [discriminate|].
  repeat constructor; eexists; (split; [vm_compute; reflexivity | lia]).
Defined.
(** ** The nearest palette colour and the errors of applyColorToAscii *)

Section Nearest.

Import Worker Spec.

Lemma nearestColor_fold (r g b : float) (P : Color -> Prop) (l : list Color) :
  Forall P l ->
  forall acc : float * option Color,
    (forall c, snd acc = Some c -> P c) ->
    let result :=
      foldl (fun '(minDist, nearest) c =>
               let '(c0, c1, c2) := c in
               let dr := (r - ofZ c0)%float in
               let dg := (g - ofZ c1)%float in
               let db := (b - ofZ c2)%float in
               let dist := (dr * dr + dg * dg + db * db)%float in
               if (dist <? minDist)%float then (dist, Some c)
               else (minDist, nearest)) acc l in
    (forall c, snd result = Some c -> P c)
    /\ (is_Some (snd acc) -> is_Some (snd result)).
Proof.
  induction 1 as [|c l Hc _ IH]; intros [minDist nearest] Hacc; cbn [foldl];
    cbn zeta in *.
  - split; [exact Hacc | intros H; exact H].
  - destruct c as [[c0 c1] c2].
    match goal with
    | |- context [if ?t then _ else _] => destruct t
    end.
    + destruct (IH (((r - ofZ c0) * (r - ofZ c0) + (g - ofZ c1) * (g - ofZ c1)
                     + (b - ofZ c2) * (b - ofZ c2))%float, Some (c0, c1, c2)))
        as [H1 H2].
      * cbn [snd]. intros c [= <-]. exact Hc.
      * split; [exact H1|]. intros _. apply H2. cbn [snd]. eauto.
    + apply IH. exact Hacc.
Qed.

Lemma nearestColor_member (r g b : float) (palette : list Color) :
  (nearestColor r g b palette = None <-> palette = [])
  /\ forall c, nearestColor r g b palette = Some c -> In c palette.
Proof.
  unfold nearestColor.
  destruct (nearestColor_fold r g b (fun c => In c palette) palette)
    with (acc := (infinity, head palette)) as [H1 H2].
  - apply List.Forall_forall. auto.
  - cbn [snd]. destruct palette; [discriminate|]. intros c [= <-]. now left.
  - cbn zeta in H1, H2. split; [|exact H1]. split.
    + intros Hnone. destruct palette as [|c palette]; [reflexivity|].
      destruct H2 as [x Hx]; [cbn; eauto|]. congruence.
    + now intros ->.
Qed.

(** A cell's colour is computed without an error unless the palette
    is the empty array. *)
Lemma cell_color_returns (pixels : PixelBuffer) (width : nat)
  (bd : list float) (settings : Settings) (palette : option (list Color))
  (y x : nat) :
  palette <> Some [] ->
  exists colorStr,
    cell_color pixels width bd settings palette y x = Returned colorStr.
Proof.
  intros Hpalette. unfold cell_color.
  destruct palette as [palette|].
  - destruct (nearestColor _ _ _ palette) as [[[n0 n1] n2]|] eqn:Hnear.
    + cbn [mbind outcome_bind].
      destruct (negb (saturation settings =? 1)%float);
        [destruct (saturate _ _ _ _) as [[r' g'] b']|];
        destruct (negb (blend settings =? 0.5)%float); eauto.
    + apply nearestColor_member in Hnear. congruence.
  - cbn [mbind outcome_bind].
    destruct (negb (saturation settings =? 1)%float);
      [destruct (saturate _ _ _ _) as [[r' g'] b']|];
      destruct (negb (blend settings =? 0.5)%float); eauto.
Qed.

Lemma row_cells_returns (lines : list string) (pixels : PixelBuffer)
  (width : nat) (bd : list float) (settings : Settings)
  (palette : option (list Color)) (y : nat) (xs : list nat) :
  palette <> Some [] ->
  exists cells,
    row_cells lines pixels width bd settings palette y xs = Returned cells.
Proof.
  intros Hpalette. induction xs as [|x xs [cells IH]]; cbn [row_cells];
    [eauto|].
  destruct (cell_char lines y x); [|eauto].
  destruct (cell_color_returns pixels width bd settings palette y x Hpalette)
    as [colorStr ->].
  cbn [mbind outcome_bind]. rewrite IH. cbn [mbind outcome_bind]. eauto.
Qed.

Lemma grid_cells_returns (lines : list string) (pixels : PixelBuffer)
  (width : nat) (bd : list float) (settings : Settings)
  (palette : option (list Color)) (ys : list nat) :
  palette <> Some [] ->
  exists rows,
    grid_cells lines pixels width bd settings palette ys = Returned rows.
Proof.
  intros Hpalette. induction ys as [|y ys [rows IH]]; cbn [grid_cells];
    [eauto|].
  destruct (row_cells_returns lines pixels width bd settings palette y
              (seq 0 width) Hpalette) as [cells ->].
  cbn [mbind outcome_bind]. rewrite IH. cbn [mbind outcome_bind]. eauto.
Qed.

(** The first column of the first row always has a character. *)
Lemma first_cell_char (ascii : string) :
  exists char, cell_char (split newline ascii) 0 0 = Some char.
Proof.
  unfold cell_char. destruct (split newline ascii) as [|line lines] eqn:Hs.
  - now apply split_nonempty in Hs.
  - cbn [lookup list_lookup]. destruct line; simpl; eauto.
Qed.

Lemma applyColorToAscii_returns (ascii : string) (pixels : PixelBuffer)
  (width height : nat) (bd : list float) (settings : Settings)
  (palette : option (list Color)) :
  palette <> Some [] ->
  exists html,
    applyColorToAscii ascii pixels width height bd settings palette
    = Returned html
    /\ (html = None <-> colorMode settings = monochrome).
Proof.
  intros Hpalette.
  destruct (grid_cells_returns (split newline ascii) pixels width bd settings
              palette (seq 0 height) Hpalette) as [rows Hrows].
  destruct (colorMode settings) eqn:Hmode.
  - exists None. unfold applyColorToAscii. rewrite Hmode. tauto.
  - rewrite applyColorToAscii_runs, Hrows by congruence.
    eexists. split; [reflexivity|]. split; discriminate.
  - rewrite applyColorToAscii_runs, Hrows by congruence.
    eexists. split; [reflexivity|]. split; discriminate.
  - rewrite applyColorToAscii_runs, Hrows by congruence.
    eexists. split; [reflexivity|]. split; discriminate.
Qed.

Lemma applyColorToAscii_throws (ascii : string) (pixels : PixelBuffer)
  (width height : nat) (bd : list float) (settings : Settings) :
  colorMode settings <> monochrome ->
  (0 < width)%nat -> (0 < height)%nat ->
  applyColorToAscii ascii pixels width height bd settings (Some [])
  = Thrown "TypeError".
Proof.
  intros Hmode Hw Hh. rewrite applyColorToAscii_runs by assumption.
  destruct height as [|height]; [lia|]. destruct width as [|width]; [lia|].
  cbn [seq grid_cells row_cells].
  destruct (first_cell_char ascii) as [char ->].
  reflexivity.
Qed.

End Nearest.

(** X12.  [nearestColor] returns an entry of the palette it is given:
    [undefined] exactly when the palette is empty, and otherwise one
    of its colours, whatever the pixel (NaN channels included). *)
Theorem nearestColor_in_palette (r g b : float)
  (palette : list Worker.Color) :
  (Worker.nearestColor r g b palette = None <-> palette = [])
  /\ forall c, Worker.nearestColor r g b palette = Some c -> In c palette.
Proof. apply nearestColor_member. Qed.

Lemma nearestColor_in_palette_witness :
  In (0, 0, 0) [(0, 0, 0); (255, 255, 255)].
Proof.
  apply (nearestColor_in_palette 10 10 10 [(0, 0, 0); (255, 255, 255)]).
  vm_compute. reflexivity.
Defined.

(** X13.  [applyColorToAscii] raises an error in one case only, the
    empty palette: with no palette or a palette of at least one colour
    it returns ([null] exactly in monochrome mode), for every text,
    buffer, grid size and settings; with an empty palette, a colour
    mode and a grid of at least one cell it throws the TypeError of
    indexing [undefined]. *)
Theorem applyColorToAscii_error_iff_empty_palette (ascii : string)
  (pixels : Worker.PixelBuffer) (width height : nat) (bd : list float)
  (settings : Worker.Settings) :
  (forall palette,
     palette <> Some [] ->
     exists html,
       Worker.applyColorToAscii ascii pixels width height bd settings palette
       = Returned html
       /\ (html = None <-> Worker.colorMode settings = Worker.monochrome))
  /\ (Worker.colorMode settings <> Worker.monochrome ->
      (0 < width)%nat -> (0 < height)%nat ->
      Worker.applyColorToAscii ascii pixels width height bd settings (Some [])
      = Thrown "TypeError").
Proof.
  split.
  - intros palette. apply applyColorToAscii_returns.
  - apply applyColorToAscii_throws.
Qed.

Lemma applyColorToAscii_error_iff_empty_palette_witness :
  Worker.applyColorToAscii ("@" ++ str1 newline) [0; 0; 0; 255] 1 1 [0%float]
    (neutral "@" Worker.ansi256) (Some [])
  = Thrown "TypeError".
Proof.
  apply (applyColorToAscii_error_iff_empty_palette ("@" ++ str1 newline)
           [0; 0; 0; 255] 1 1 [0%float] (neutral "@" Worker.ansi256));
    [discriminate | lia | lia].
Defined.
(** ** Palette colours of the cells; runs of one opacity *)

Section PaletteCells.

Import Worker Spec.

Lemma clamp255_byte (v : Z) : is_byte v -> clamp255 (IInt v) = IInt v.
Proof. unfold is_byte, clamp255. intros Hv. f_equal. lia. Qed.

End PaletteCells.

(** X14.  With a palette, saturation 1 and blend 0.5, the colour of
    every cell is a colour of the palette: for a palette of byte
    triples that is not empty, the colour string of the cell at
    [(x, y)] is the string of one of the palette's entries with the
    cell's opacity, whatever the pixel buffer holds. *)
Theorem cell_color_is_palette_color (pixels : Worker.PixelBuffer)
  (width : nat) (bd : list float) (settings : Worker.Settings)
  (palette : list Worker.Color) (y x : nat) :
  palette <> [] ->
  Forall Spec.byte_color palette ->
  (Worker.saturation settings =? 1)%float = true ->
  (Worker.blend settings =? 0.5)%float = true ->
  exists c0 c1 c2,
    In (c0, c1, c2) palette
    /\ Worker.cell_color pixels width bd settings (Some palette) y x
       = Returned
           (Worker.getColorString (IInt c0) (IInt c1) (IInt c2)
              (Worker.cell_opacity settings
                 (Worker.f32_at bd (y * width + x)))).
Proof.
  intros Hne Hbytes Hsat Hblend. unfold Worker.cell_color.
  rewrite Hsat, Hblend. cbn [negb].
  destruct (Worker.nearestColor _ _ _ palette) as [[[n0 n1] n2]|] eqn:Hnear.
  - apply nearestColor_member in Hnear. exists n0, n1, n2.
    split; [assumption|]. cbn [mbind outcome_bind].
    rewrite List.Forall_forall in Hbytes.
    destruct (Hbytes _ Hnear) as (H0 & H1 & H2).
    now rewrite !clamp255_byte.
  - apply nearestColor_member in Hnear. contradiction.
Qed.

Lemma cell_color_is_palette_color_witness :
  exists c0 c1 c2,
    In (c0, c1, c2) [(0, 0, 0); (255, 255, 255)]
    /\ Worker.cell_color [10; 10; 10; 255] 1 [0%float]
         (neutral "@" Worker.ansi256) (Some [(0, 0, 0); (255, 255, 255)]) 0 0
       = Returned
           (Worker.getColorString (IInt c0) (IInt c1) (IInt c2)
              (Worker.cell_opacity (neutral "@" Worker.ansi256)
                 (Worker.f32_at [0%float] (0 * 1 + 0)))).
Proof.
  apply (cell_color_is_palette_color [10; 10; 10; 255] 1 [0%float]
           (neutral "@" Worker.ansi256) [(0, 0, 0); (255, 255, 255)] 0 0).
  - discriminate.
  - repeat (apply List.Forall_cons; [cbv; intuition discriminate|]).
    apply List.Forall_nil.
  - reflexivity.
  - reflexivity.
Defined.

Section MonoRuns.

Import Worker Spec MonoSpec.





End MonoRuns.

(** ** The handler over a sequence of messages *)

Section HandlerRuns.

Import Worker Spec HandlerSpec.

Lemma onmessage_cache (c : option CachedPalette) (pixels : PixelBuffer)
  (width height : nat) (settings : Settings) (ansi : list Color) :
  fst (onmessage c (Convert pixels width height settings ansi))
  = match colorMode settings with
    | monochrome => c
    | _ => snd (choose_palette c pixels settings ansi)
    end.
Proof.
  unfold onmessage.
  destruct (brightnessMapping pixels width height settings) as [ascii bv].
  destruct (colorMode settings) eqn:Hmode; try reflexivity;
    destruct (choose_palette c pixels settings ansi); reflexivity.
Qed.

Lemma length_quantizeColors (pixels : PixelBuffer) (numColors : nat)
  (saturation : float) :
  (length (Worker.quantizeColors pixels numColors saturation) <= numColors)%nat.
Proof.
  unfold Worker.quantizeColors.
  destruct (Nat.leb_spec (length (colorList_of pixels saturation)) numColors).
  - now rewrite length_map.
  - rewrite length_take. lia.
Qed.

Lemma worker_quantizeColors_bytes (pixels : PixelBuffer) (numColors : nat)
  (saturation : float) :
  Forall byte_color (Worker.quantizeColors pixels numColors saturation).
Proof.
  unfold Worker.quantizeColors.
  destruct (length (colorList_of pixels saturation) <=? numColors)%nat.
  - apply colorList_rgb_bytes.
  - apply Forall_take, worker_medianCut_bytes, colorList_counted.
Qed.

Lemma worker_quantizeColors_nonempty (pixels : PixelBuffer) (numColors : nat)
  (saturation : float) :
  pixels <> [] -> (1 <= numColors)%nat ->
  Worker.quantizeColors pixels numColors saturation <> [].
Proof.
  intros Hpixels Hk.
  pose proof (colorList_nonempty pixels saturation Hpixels) as Hlist.
  unfold Worker.quantizeColors.
  destruct (length (colorList_of pixels saturation) <=? numColors)%nat.
  - intros Hnil. apply map_eq_nil in Hnil. contradiction.
  - destruct (worker_medianCut_bytes (length (colorList_of pixels saturation))
                (colorList_of pixels saturation) (depth_for numColors)
                (colorList_counted pixels saturation)) as [_ Hw].
    destruct numColors as [|k]; [lia|].
    destruct (Worker.medianCut _ _ _); [congruence | discriminate].
Qed.

(** The cache after [choose_palette]. *)
Lemma choose_palette_cache (c : option CachedPalette) (pixels : PixelBuffer)
  (settings : Settings) (ansi : list Color) :
  snd (choose_palette c pixels settings ansi) = c
  \/ exists numColors,
       colorMode settings = adaptive numColors
       /\ snd (choose_palette c pixels settings ansi)
          = Some {| cached_numColors := numColors;
                    cached_saturation := saturation settings;
                    cached_colors :=
                      Worker.quantizeColors pixels numColors
                        (saturation settings) |}.
Proof.
  unfold choose_palette. destruct (colorMode settings) as [| | |k]; auto.
  destruct (cache_stale c k (saturation settings)); cbn [snd]; eauto.
Qed.

Lemma onmessage_cache_cases (c : option CachedPalette) (e : Message) :
  fst (onmessage c e) = c
  \/ fst (onmessage c e) = None
  \/ exists pixels width height settings ansi numColors,
       e = Convert pixels width height settings ansi
       /\ colorMode settings = adaptive numColors
       /\ fst (onmessage c e)
          = Some {| cached_numColors := numColors;
                    cached_saturation := saturation settings;
                    cached_colors :=
                      Worker.quantizeColors pixels numColors
                        (saturation settings) |}.
Proof.
  destruct e as [pixels width height settings ansi| |]; [|now right; left|now left].
  rewrite onmessage_cache.
  destruct (choose_palette_cache c pixels settings ansi)
    as [Hsame|(k & Hmode & Hnew)].
  - left. now destruct (colorMode settings).
  - right. right. exists pixels, width, height, settings, ansi, k.
    rewrite Hmode in *. auto.
Qed.

Lemma run_snoc (c : option CachedPalette) (msgs : list Message) (e : Message) :
  run c (msgs ++ [e]) = fst (onmessage (run c msgs) e).
Proof. unfold run. now rewrite foldl_app. Qed.

Lemma run_cache_ok (msgs : list Message) : cache_ok (run None msgs).
Proof.
  induction msgs as [|e msgs IH] using rev_ind; [exact I|].
  rewrite run_snoc.
  destruct (onmessage_cache_cases (run None msgs) e)
    as [->|[->|(pixels & w & h & settings & ansi & k & _ & _ & ->)]];
    [assumption | exact I |].
  split; [apply length_quantizeColors | apply worker_quantizeColors_bytes].
Qed.

Lemma run_cache_nonempty (msgs : list Message) :
  Forall well_formed msgs -> cache_nonempty (run None msgs).
Proof.
  induction msgs as [|e msgs IH] using rev_ind; intros Hwf; [exact I|].
  apply Forall_app in Hwf as [Hmsgs He]. apply Forall_inv in He.
  rewrite run_snoc.
  destruct (onmessage_cache_cases (run None msgs) e)
    as [->|[->|(pixels & w & h & settings & ansi & k & -> & Hmode & ->)]];
    [now apply IH | exact I |].
  cbn [cache_nonempty cached_colors]. cbn [well_formed] in He.
  rewrite Hmode in He. destruct He as (Hpixels & Hk).
  now apply worker_quantizeColors_nonempty.
Qed.

(** The palette that a request is served with. *)
Lemma choose_palette_palette (c : option CachedPalette) (pixels : PixelBuffer)
  (settings : Settings) (ansi : list Color) (numColors : nat) :
  colorMode settings = adaptive numColors ->
  exists p,
    fst (choose_palette c pixels settings ansi) = Some p
    /\ (p = Worker.quantizeColors pixels numColors (saturation settings)
        \/ exists cached,
             c = Some cached /\ cached_numColors cached = numColors
             /\ p = cached_colors cached).
Proof.
  intros Hmode. unfold choose_palette. rewrite Hmode.
  unfold cache_stale. destruct c as [cached|]; cbn [fmap option_fmap option_map fst].
  - destruct (Nat.eqb_spec (cached_numColors cached) numColors) as [Heq|Hne];
      cbn [negb orb].
    + destruct (negb (cached_saturation cached =? saturation settings)%float);
        cbn [fmap option_fmap option_map fst cached_colors]; eauto 10.
    + cbn [fmap option_fmap option_map fst cached_colors]. eauto.
  - eauto.
Qed.

End HandlerRuns.

(** X16.  Whatever messages the worker has handled since start-up, its
    cached palette never holds more colours than it was built for and
    holds byte triples only; so the palette an adaptive request for
    [numColors] colours is served with, fresh or cached, has at most
    [numColors] colours, each with its channels between 0 and 255. *)
Theorem adaptive_palette_bounded (msgs : list Worker.Message)
  (pixels : Worker.PixelBuffer) (settings : Worker.Settings)
  (ansi : list Worker.Color) (numColors : nat) :
  Worker.colorMode settings = Worker.adaptive numColors ->
  HandlerSpec.cache_ok (HandlerSpec.run None msgs)
  /\ exists palette,
       fst (Worker.choose_palette (HandlerSpec.run None msgs) pixels settings
              ansi) = Some palette
       /\ (length palette <= numColors)%nat
       /\ Forall Spec.byte_color palette.
Proof.
  intros Hmode. pose proof (run_cache_ok msgs) as Hok.
  split; [assumption|].
  destruct (choose_palette_palette (HandlerSpec.run None msgs) pixels settings
              ansi numColors Hmode)
    as (p & Hp & [->|(cached & Hc & Hk & ->)]).
  - exists (Worker.quantizeColors pixels numColors (Worker.saturation settings)).
    split; [assumption|].
    split; [apply length_quantizeColors | apply worker_quantizeColors_bytes].
  - exists (Worker.cached_colors cached). split; [assumption|].
    rewrite Hc in Hok. destruct Hok as [Hlen Hbytes]. rewrite <- Hk. now split.
Qed.

Lemma adaptive_palette_bounded_witness :
  HandlerSpec.cache_ok (HandlerSpec.run None [one_pixel 0 0 255])
  /\ exists palette,
       fst (Worker.choose_palette (HandlerSpec.run None [one_pixel 0 0 255])
              [255; 0; 0; 255] (neutral "@" (Worker.adaptive 2)) [])
       = Some palette
       /\ (length palette <= 2)%nat
       /\ Forall Spec.byte_color palette.
Proof.
  apply (adaptive_palette_bounded [one_pixel 0 0 255] [255; 0; 0; 255]
           (neutral "@" (Worker.adaptive 2)) [] 2).
  reflexivity.
Defined.

(** A well-formed request is answered, whatever came before. *)
Lemma onmessage_answers (msgs : list Worker.Message)
  (pixels : Worker.PixelBuffer) (width height : nat)
  (settings : Worker.Settings) (ansi : list Worker.Color) :
  Forall HandlerSpec.well_formed msgs ->
  HandlerSpec.well_formed (Worker.Convert pixels width height settings ansi) ->
  exists r,
    snd (Worker.onmessage (HandlerSpec.run None msgs)
           (Worker.Convert pixels width height settings ansi))
    = Returned (Some r)
    /\ Worker.res_ascii r
       = fst (Worker.brightnessMapping pixels width height settings)
    /\ Worker.res_width r = width /\ Worker.res_height r = height.
Proof.
  intros Hmsgs Hwf. cbn [HandlerSpec.well_formed] in Hwf.
  rewrite onmessage_palette.
  pose proof (run_cache_nonempty msgs Hmsgs) as Hcache.
  destruct (Worker.brightnessMapping pixels width height settings)
    as [ascii bv] eqn:Hbm. cbn [fst].
  assert (Hpalette :
            Worker.colorMode settings <> Worker.monochrome ->
            fst (Worker.choose_palette (HandlerSpec.run None msgs) pixels
                   settings ansi) <> Some []).
  { intros Hmode. destruct (Worker.colorMode settings) as [| | |k] eqn:Hm.
    - congruence.
    - unfold Worker.choose_palette. rewrite Hm. discriminate.
    - unfold Worker.choose_palette. rewrite Hm. cbn [fst]. congruence.
    - destruct (choose_palette_palette (HandlerSpec.run None msgs) pixels
                  settings ansi k Hm)
        as (p & -> & [->|(cached & Hc & _ & ->)]).
      + intros [= Hnil]. revert Hnil.
        now apply worker_quantizeColors_nonempty.
      + rewrite Hc in Hcache. intros [= Hnil]. now apply Hcache. }
  destruct (Worker.colorMode settings) as [| | |k] eqn:Hm.
  - eexists. split; [reflexivity|]. auto.
  - destruct (applyColorToAscii_returns ascii pixels width height bv settings
                _ (Hpalette ltac:(congruence)))
      as (html & -> & _).
    eexists. split; [reflexivity|]. auto.
  - destruct (applyColorToAscii_returns ascii pixels width height bv settings
                _ (Hpalette ltac:(congruence)))
      as (html & -> & _).
    eexists. split; [reflexivity|]. auto.
  - destruct (applyColorToAscii_returns ascii pixels width height bv settings
                _ (Hpalette ltac:(congruence)))
      as (html & -> & _).
    eexists. split; [reflexivity|]. auto.
Qed.


(** X17.  The worker answers every well-formed request, whatever came
    before: after any sequence of well-formed messages (pixel buffer
    and ANSI table not empty, at least one colour asked for), a
    ['convert'] message makes the handler post one result, without an
    error, that carries the character grid of [brightnessMapping] and
    echoes the width and height of the request. *)
Theorem onmessage_answers_well_formed (msgs : list Worker.Message)
  (pixels : Worker.PixelBuffer) (width height : nat)
  (settings : Worker.Settings) (ansi : list Worker.Color) :
  Forall HandlerSpec.well_formed msgs ->
  HandlerSpec.well_formed (Worker.Convert pixels width height settings ansi) ->
  exists r,
    snd (Worker.onmessage (HandlerSpec.run None msgs)
           (Worker.Convert pixels width height settings ansi))
    = Returned (Some r)
    /\ Worker.res_ascii r
       = fst (Worker.brightnessMapping pixels width height settings)
    /\ Worker.res_width r = width /\ Worker.res_height r = height.
Proof. apply onmessage_answers. Qed.

Lemma onmessage_answers_well_formed_witness :
  exists r,
    snd (Worker.onmessage (HandlerSpec.run None [one_pixel 0 0 255])
           (one_pixel 255 0 0))
    = Returned (Some r)
    /\ Worker.res_ascii r
       = fst (Worker.brightnessMapping [255; 0; 0; 255] 1 1
                (neutral "@" (Worker.adaptive 2)))
    /\ Worker.res_width r = 1%nat /\ Worker.res_height r = 1%nat.
Proof.
  apply (onmessage_answers_well_formed [one_pixel 0 0 255] [255; 0; 0; 255]
           1 1 (neutral "@" (Worker.adaptive 2)) []).
  - repeat constructor; simpl; try discriminate; lia.
  - split; [discriminate | simpl; lia].
Defined.

Section StaleEntry.

Import Worker HandlerSpec.

Lemma onmessage_keeps_entry (cached : CachedPalette) (e : Message) :
  keeps_entry cached e -> fst (onmessage (Some cached) e) = Some cached.
Proof.
  destruct e as [pixels width height settings ansi| |]; cbn [keeps_entry];
    [|intros []|reflexivity].
  rewrite onmessage_cache. unfold choose_palette.
  destruct (colorMode settings) as [| | |k]; try reflexivity.
  now intros ->.
Qed.

Lemma run_keeps_entry (cached : CachedPalette) (msgs : list Message) :
  Forall (keeps_entry cached) msgs -> run (Some cached) msgs = Some cached.
Proof.
  unfold run. induction 1 as [|e msgs He _ IH]; [reflexivity|].
  cbn [foldl]. now rewrite onmessage_keeps_entry.
Qed.

(** A request served with an empty palette throws and leaves the
    cache as it is. *)
Lemma empty_entry_throws (cached : CachedPalette) (pixels : PixelBuffer)
  (width height : nat) (settings : Settings) (ansi : list Color) :
  cached_colors cached = [] ->
  colorMode settings = adaptive (cached_numColors cached) ->
  (cached_saturation cached =? saturation settings)%float = true ->
  (0 < width)%nat -> (0 < height)%nat ->
  onmessage (Some cached) (Convert pixels width height settings ansi)
  = (Some cached, Thrown "TypeError").
Proof.
  intros Hempty Hmode Hsat Hw Hh.
  assert (Hchoose : choose_palette (Some cached) pixels settings ansi
                    = (Some [], Some cached)).
  { unfold choose_palette, cache_stale. rewrite Hmode, Nat.eqb_refl, Hsat.
    cbn [negb orb fmap option_fmap option_map]. now rewrite Hempty. }
  apply injective_projections.
  - rewrite onmessage_cache, Hmode, Hchoose. reflexivity.
  - rewrite onmessage_palette, Hchoose.
    destruct (brightnessMapping pixels width height settings) as [ascii bv].
    rewrite Hmode. cbn [fst snd].
    rewrite applyColorToAscii_throws by (assumption || congruence).
    reflexivity.
Qed.

Lemma empty_buffer_throws (c : option CachedPalette) (width height : nat)
  (settings : Settings) (ansi : list Color) (numColors : nat) :
  colorMode settings = adaptive numColors ->
  cache_stale c numColors (saturation settings) = true ->
  (0 < width)%nat -> (0 < height)%nat ->
  onmessage c (Convert [] width height settings ansi)
  = (Some {| cached_numColors := numColors;
             cached_saturation := saturation settings;
             cached_colors := [] |}, Thrown "TypeError").
Proof.
  intros Hmode Hstale Hw Hh.
  assert (Hchoose : choose_palette c [] settings ansi
                    = (Some [],
                       Some {| cached_numColors := numColors;
                               cached_saturation := saturation settings;
                               cached_colors := [] |})).
  { unfold choose_palette. now rewrite Hmode, Hstale. }
  apply injective_projections.
  - rewrite onmessage_cache, Hmode, Hchoose. reflexivity.
  - rewrite onmessage_palette, Hchoose.
    destruct (brightnessMapping [] width height settings) as [ascii bv].
    rewrite Hmode. cbn [fst snd].
    rewrite applyColorToAscii_throws by (assumption || congruence).
    reflexivity.
Qed.

End StaleEntry.

(** X18.  An adaptive request with an empty pixel buffer and a grid of
    at least one cell, met with a cache that cannot serve it, makes
    the handler throw the TypeError of the empty palette and leaves
    that empty palette in the cache.  While the entry stays there,
    which it does through every message other than ['clearCache'] and
    an adaptive request for another number of colours or another
    saturation, each request for the same number of colours and the
    same saturation (a number) with a grid of at least one cell throws
    as well and leaves the entry in place, whatever pixels and other
    settings it carries. *)
Theorem empty_buffer_request_throws :
  (forall (c : option Worker.CachedPalette) (width height : nat)
          (settings : Worker.Settings) (ansi : list Worker.Color)
          (numColors : nat),
     Worker.colorMode settings = Worker.adaptive numColors ->
     Worker.cache_stale c numColors (Worker.saturation settings) = true ->
     (0 < width)%nat -> (0 < height)%nat ->
     Worker.onmessage c (Worker.Convert [] width height settings ansi)
     = (Some {| Worker.cached_numColors := numColors;
                Worker.cached_saturation := Worker.saturation settings;
                Worker.cached_colors := [] |}, Thrown "TypeError"))
  /\ (forall (cached : Worker.CachedPalette) (msgs : list Worker.Message)
             (pixels : Worker.PixelBuffer) (width height : nat)
             (settings : Worker.Settings) (ansi : list Worker.Color),
        Worker.cached_colors cached = [] ->
        Forall (HandlerSpec.keeps_entry cached) msgs ->
        Worker.colorMode settings
        = Worker.adaptive (Worker.cached_numColors cached) ->
        (Worker.cached_saturation cached =? Worker.saturation settings)%float
        = true ->
        (0 < width)%nat -> (0 < height)%nat ->
        HandlerSpec.run (Some cached) msgs = Some cached
        /\ Worker.onmessage (HandlerSpec.run (Some cached) msgs)
             (Worker.Convert pixels width height settings ansi)
           = (Some cached, Thrown "TypeError")).
Proof.
  split.
  - intros. now apply empty_buffer_throws.
  - intros cached msgs pixels width height settings ansi Hempty Hkeep Hmode
      Hsat Hw Hh.
    rewrite (run_keeps_entry cached msgs Hkeep). split; [reflexivity|].
    now apply empty_entry_throws.
Qed.

Lemma empty_buffer_request_throws_witness :
  Worker.onmessage None
    (Worker.Convert [] 1 1 (neutral "@" (Worker.adaptive 2)) [])
  = (Some {| Worker.cached_numColors := 2; Worker.cached_saturation := 1;
             Worker.cached_colors := [] |}, Thrown "TypeError")
  /\ Worker.onmessage
       (HandlerSpec.run
          (Some {| Worker.cached_numColors := 2;
                   Worker.cached_saturation := 1;
                   Worker.cached_colors := [] |})
          [Worker.Convert [0; 0; 0; 255] 1 1 (neutral "@" Worker.truecolor) [];
           Worker.OtherMessage])
       (one_pixel 255 0 0)
     = (Some {| Worker.cached_numColors := 2; Worker.cached_saturation := 1;
                Worker.cached_colors := [] |}, Thrown "TypeError").
Proof.
  destruct empty_buffer_request_throws as [Hfirst Hlater]. split.
  - apply (Hfirst None 1%nat 1%nat (neutral "@" (Worker.adaptive 2)) [] 2%nat);
      [reflexivity | reflexivity | lia | lia].
  - apply (Hlater {| Worker.cached_numColors := 2;
                     Worker.cached_saturation := 1;
                     Worker.cached_colors := [] |}
             [Worker.Convert [0; 0; 0; 255] 1 1 (neutral "@" Worker.truecolor)
                [];
              Worker.OtherMessage]
             [255; 0; 0; 255] 1%nat 1%nat (neutral "@" (Worker.adaptive 2)) []);
      [reflexivity | | reflexivity | reflexivity | lia | lia].
    repeat constructor.
Defined.

(** ** The colour-string cache of the optimised worker *)

Section ColorCache.

Import Worker WasmWorker CacheSpec.

Lemma getColorString_size (cache : gmap Z string) (r g b : Z) (o : float) :
  Z.of_nat (size cache) <= COLOR_CACHE_MAX ->
  Z.of_nat (size (snd (getColorString cache r g b o))) <= COLOR_CACHE_MAX.
Proof.
  intros Hsize. unfold getColorString.
  destruct (cache !! _) as [cached|] eqn:Hlook; [exact Hsize|]. cbn [snd].
  rewrite map_size_insert.
  destruct (Z.leb_spec COLOR_CACHE_MAX (Z.of_nat (size cache))) as [Hfull|Hroom].
  - rewrite lookup_empty, map_size_empty. unfold COLOR_CACHE_MAX. lia.
  - rewrite Hlook. lia.
Qed.

Lemma getColorString_hit (cache : gmap Z string) (r g b : Z) (o : float)
  (cached : string) :
  cache !! cache_key (round_times o 100) r g b = Some cached ->
  getColorString cache r g b o = (cached, cache).
Proof. intros Hlook. unfold getColorString. now rewrite Hlook. Qed.

Lemma getColorString_miss (cache : gmap Z string) (r g b : Z) (o : float) :
  cache !! cache_key (round_times o 100) r g b = None ->
  getColorString cache r g b o
  = (color_string (round_times o 100) r g b,
     <[cache_key (round_times o 100) r g b
       := color_string (round_times o 100) r g b]>
       (if COLOR_CACHE_MAX <=? Z.of_nat (size cache) then ∅ else cache)).
Proof. intros Hlook. unfold getColorString. now rewrite Hlook. Qed.

End ColorCache.

(** X19.  The colour cache never outgrows its limit: after any
    sequence of calls of [getColorString] from the empty cache, with
    any arguments, it holds at most [COLOR_CACHE_MAX] (50000)
    strings. *)
Theorem colorCache_bounded (calls : list (Z * Z * Z * float)) :
  Z.of_nat (size (CacheSpec.after ∅ calls)) <= WasmWorker.COLOR_CACHE_MAX.
Proof.
  induction calls as [|[[[r g] b] o] calls IH] using rev_ind.
  - cbn. unfold WasmWorker.COLOR_CACHE_MAX. rewrite map_size_empty. lia.
  - unfold CacheSpec.after in *. rewrite foldl_app. cbn [foldl].
    now apply getColorString_size.
Qed.

(** X20.  A colour string asked for twice is computed once: whatever
    the cache and the arguments, calling [getColorString] again with
    the same arguments returns the same string and leaves the cache as
    the first call left it. *)
Theorem getColorString_repeat (cache : gmap Z string) (r g b : Z) (o : float) :
  WasmWorker.getColorString
    (snd (WasmWorker.getColorString cache r g b o)) r g b o
  = (fst (WasmWorker.getColorString cache r g b o),
     snd (WasmWorker.getColorString cache r g b o)).
Proof.
  destruct (cache !! WasmWorker.cache_key (round_times o 100) r g b)
    as [cached|] eqn:Hlook.
  - rewrite (getColorString_hit _ _ _ _ _ _ Hlook). cbn [fst snd].
    apply getColorString_hit, Hlook.
  - rewrite (getColorString_miss _ _ _ _ _ Hlook). cbn [fst snd].
    apply getColorString_hit, lookup_insert_eq.
Qed.

(** X21.  A NaN opacity shares the cache key of opacity 0: the key
    packs [NaN << 24], which is 0.  After [getColorString(r, g, b,
    NaN)] on a cache without that key, the cache answers opacity 0 for
    the same colour with the opaque string [rgb(r,g,b)], where a
    cache without the key gives [rgba(r,g,b,0.00)]. *)
Theorem getColorString_NaN_key (cache : gmap Z string) (r g b : Z) :
  cache !! WasmWorker.cache_key (IInt 0) r g b = None ->
  fst (WasmWorker.getColorString cache r g b 0)
  = ("rgba(" ++ Z_to_string r ++ "," ++ Z_to_string g ++ ","
     ++ Z_to_string b ++ ",0.00)")%string
  /\ fst (WasmWorker.getColorString
            (snd (WasmWorker.getColorString cache r g b nan)) r g b 0)
     = ("rgb(" ++ Z_to_string r ++ "," ++ Z_to_string g ++ ","
        ++ Z_to_string b ++ ")")%string.
Proof.
  intros Hmiss. unfold WasmWorker.getColorString.
  change (round_times 0 100) with (IInt 0).
  change (round_times nan 100) with INaN.
  change (WasmWorker.cache_key INaN r g b)
    with (WasmWorker.cache_key (IInt 0) r g b).
  rewrite Hmiss. cbn [fst snd]. rewrite lookup_insert_eq. cbn [fst].
  split; reflexivity.
Qed.

Lemma getColorString_NaN_key_witness :
  fst (WasmWorker.getColorString ∅ 1 2 3 0) = "rgba(1,2,3,0.00)"
  /\ fst (WasmWorker.getColorString
            (snd (WasmWorker.getColorString ∅ 1 2 3 nan)) 1 2 3 0)
     = "rgb(1,2,3)".
Proof.
  apply (getColorString_NaN_key ∅ 1 2 3). reflexivity.
Defined.
(** ** The dispatcher: one conversion at a time *)

Section Dispatching.

Import Worker Main Dispatch.

Lemma convertToAscii_cases (c : Controls) (d : Dispatcher) :
  (snd (convertToAscii c d) = None
   /\ workerBusy (fst (convertToAscii c d)) = workerBusy d
   /\ asciiWorker (fst (convertToAscii c d)) = asciiWorker d
   /\ currentImage (fst (convertToAscii c d)) = currentImage d)
  \/ (workerBusy d = false
      /\ posted (snd (convertToAscii c d)) = 1%nat
      /\ workerBusy (fst (convertToAscii c d)) = true).
Proof.
  unfold convertToAscii. destruct (currentImage d) as [img|] eqn:Himg;
    [|left; auto].
  destruct (asciiWorker d) eqn:Hworker; [|left; auto].
  destruct (workerBusy d) eqn:Hbusy; [left; auto|].
  right. destruct (img (charsPerRow c)) as [pixels height]. auto.
Qed.


(** Without a worker nothing is posted, and no event brings the
    worker back. *)
Lemma no_worker_no_post (d : Dispatcher) (e : Event) :
  asciiWorker d = false ->
  snd (step d e) = None /\ asciiWorker (fst (step d e)) = false.
Proof.
  intros Hworker. destruct e as [c|c| |img]; cbn [step fst snd].
  - unfold convertToAscii. destruct (currentImage d); rewrite ?Hworker; auto.
  - unfold handleWorkerMessage, convertToAscii.
    destruct (pendingConversion d); cbn [currentImage asciiWorker];
      [destruct (currentImage d); rewrite ?Hworker|]; auto.
  - auto.
  - auto.
Qed.

Lemma busy_posts_nothing (c : Controls) (d : Dispatcher) :
  workerBusy d = true ->
  snd (convertToAscii c d) = None
  /\ workerBusy (fst (convertToAscii c d)) = true.
Proof.
  intros Hbusy.
  destruct (convertToAscii_cases c d) as [(H & Hb & _)|(H & _)];
    [split; congruence | congruence].
Qed.

Lemma requests_while_busy (cs : list Controls) :
  forall d,
    workerBusy d = true ->
    workerBusy (requests d cs) = true
    /\ currentImage (requests d cs) = currentImage d
    /\ asciiWorker (requests d cs) = asciiWorker d
    /\ (currentImage d <> None -> asciiWorker d = true -> cs <> [] ->
        pendingConversion (requests d cs) = true).
Proof.
  induction cs as [|c cs IH]; intros d Hbusy.
  - cbn. repeat split; auto; congruence.
  - unfold requests in *. cbn [foldl].
    destruct (convertToAscii_cases c d)
      as [(_ & Hb & Hw & Hi)|(Hidle & _)]; [|congruence].
    destruct (IH (fst (convertToAscii c d))) as (H2 & H3 & H4 & H5);
      [congruence|].
    split; [exact H2|]. split; [congruence|]. split; [congruence|].
    intros Himg Hworker _.
    destruct cs as [|c' cs].
    + cbn [foldl]. unfold convertToAscii.
      destruct (currentImage d); [|congruence]. now rewrite Hworker, Hbusy.
    + apply H5; [congruence | congruence | discriminate].
Qed.

End Dispatching.



(** X26.  Once the worker has reported an error the dispatcher posts
    nothing any more: [onerror] gives the worker up, [convertToAscii]
    has no branch for that case, and no later call, result or change
    of image brings a worker back, so every later request is dropped
    without a conversion. *)
Theorem worker_error_stops_conversions (d : Main.Dispatcher)
  (es : list Dispatch.Event) :
  Dispatch.posts (Dispatch.onerror d) es = []
  /\ forall d', Main.asciiWorker d' = false -> Dispatch.posts d' es = [].
Proof.
  assert (H : forall d', Main.asciiWorker d' = false ->
                         Dispatch.posts d' es = []).
  { induction es as [|e es IH]; intros d' Hworker; [reflexivity|].
    cbn [Dispatch.posts].
    destruct (no_worker_no_post d' e Hworker) as [-> Hnext].
    now apply IH. }
  split; [now apply H | exact H].
Qed.

Lemma worker_error_stops_conversions_witness :
  Dispatch.posts (Dispatch.onerror idle_dispatcher)
    [Dispatch.Request empty_ramp_controls;
     Dispatch.Result empty_ramp_controls]
  = [].
Proof.
  apply (worker_error_stops_conversions idle_dispatcher
           [Dispatch.Request empty_ramp_controls;
            Dispatch.Result empty_ramp_controls]).
  reflexivity.
Defined.

(** X23.  Requests made while the worker is busy are merged into one:
    none of them posts a message, and (with an image loaded and the
    worker alive) they leave one conversion pending; when the worker's
    result arrives, exactly one ['convert'] message is posted, built
    from the controls as they are at that time, and nothing is left
    pending. *)
Theorem busy_requests_are_merged (d : Main.Dispatcher)
  (cs : list Main.Controls) (img : Main.Image) (c : Main.Controls) :
  Main.workerBusy d = true -> Main.asciiWorker d = true ->
  Main.currentImage d = Some img -> cs <> [] ->
  (forall c' d', Main.workerBusy d' = true ->
                 snd (Main.convertToAscii c' d') = None
                 /\ Main.workerBusy (fst (Main.convertToAscii c' d')) = true)
  /\ Main.pendingConversion (Dispatch.requests d cs) = true
  /\ snd (Dispatch.handleWorkerMessage c (Dispatch.requests d cs) true)
     = Some (Worker.Convert (fst (img (Main.charsPerRow c)))
               (Main.charsPerRow c) (snd (img (Main.charsPerRow c)))
               (Main.worker_settings c) Main.ANSI_256)
  /\ Main.workerBusy
       (fst (Dispatch.handleWorkerMessage c (Dispatch.requests d cs) true))
     = true
  /\ Main.pendingConversion
       (fst (Dispatch.handleWorkerMessage c (Dispatch.requests d cs) true))
     = false.
Proof.
  intros Hbusy Hworker Himg Hcs.
  destruct (requests_while_busy cs d Hbusy) as (H2 & H3 & H4 & H5).
  assert (Hpending : Main.pendingConversion (Dispatch.requests d cs) = true)
    by (apply H5; congruence).
  split; [intros c' d'; apply busy_posts_nothing|].
  split; [exact Hpending|].
  unfold Dispatch.handleWorkerMessage. rewrite Hpending.
  unfold Main.convertToAscii.
  cbn [Main.currentImage Main.asciiWorker Main.workerBusy
       Main.pendingConversion].
  rewrite H3, H4, Himg, Hworker.
  destruct (img (Main.charsPerRow c)) as [pixels height].
  cbn [fst snd Main.workerBusy Main.pendingConversion]. auto.
Qed.

Lemma busy_requests_are_merged_witness :
  Main.pendingConversion
    (Dispatch.requests
       (fst (Main.convertToAscii empty_ramp_controls idle_dispatcher))
       [empty_ramp_controls; empty_ramp_controls]) = true.
Proof.
  apply (busy_requests_are_merged
           (fst (Main.convertToAscii empty_ramp_controls idle_dispatcher))
           [empty_ramp_controls; empty_ramp_controls]
           (fun _ => ([0; 0; 0; 255], 1%nat)) empty_ramp_controls);
    [reflexivity | reflexivity | reflexivity | discriminate].
Defined.
(** ** The glyph index grows with the luminance *)

Section Monotone.

Import Worker OpacitySpec.

(** The floor of the exact product, on the fraction of a finite
    number. *)
Lemma floor_times_dyadic (v : float) (n k m : Z) :
  dyadic v = Some (n, k) ->
  0 <= k /\ floor_times v m = IInt (n * m / 2 ^ k).
Proof.
  unfold dyadic, floor_times. destruct (Prim2SF v) as [s|s| |s mant e];
    try discriminate; intros [= <- <-].
  - split; [lia|]. now rewrite Z.mul_0_l, Z.div_0_l by lia.
  - split; [lia|]. f_equal.
    destruct (Z.le_gt_cases 0 e) as [He|He].
    + rewrite Z.shiftl_mul_pow2 by assumption.
      rewrite Z.max_r, Z.max_l by lia. change (2 ^ 0) with 1.
      rewrite Z.div_1_r. lia.
    + replace e with (- - e) at 1 by lia.
      rewrite Z.shiftl_opp_r, Z.shiftr_div_pow2 by lia.
      rewrite Z.max_l, Z.max_r by lia. change (2 ^ 0) with 1.
      now rewrite Z.mul_1_r.
Qed.

Lemma floor_fraction_le (n1 k1 n2 k2 m : Z) :
  0 <= k1 -> 0 <= k2 -> 0 <= m ->
  n1 * 2 ^ k2 <= n2 * 2 ^ k1 ->
  n1 * m / 2 ^ k1 <= n2 * m / 2 ^ k2.
Proof.
  intros Hk1 Hk2 Hm Hle.
  pose proof (Z.pow_pos_nonneg 2 k1 ltac:(lia) Hk1) as Hp1.
  pose proof (Z.pow_pos_nonneg 2 k2 ltac:(lia) Hk2) as Hp2.
  apply Z.div_le_lower_bound; [assumption|].
  pose proof (Z.mul_div_le (n1 * m) (2 ^ k1) Hp1) as Hq.
  set (q := n1 * m / 2 ^ k1) in *. clearbody q.
  set (p1 := 2 ^ k1) in *. set (p2 := 2 ^ k2) in *. clearbody p1 p2.
  assert (H1 : p2 * (p1 * q) <= p2 * (n1 * m)) by nia.
  assert (H2 : (n1 * p2) * m <= (n2 * p1) * m) by nia.
  assert (H3 : p1 * (p2 * q) <= p1 * (n2 * m)) by lia.
  nia.
Qed.

End Monotone.

(** X24.  The ramp index never decreases with the luminance: for two
    finite luminances [v1 <= v2] and any ramp, the index that
    [brightnessMapping] computes for [v1] is at most the one it
    computes for [v2], so a brighter cell never gets an earlier
    character of the ramp. *)
Theorem charIndex_monotone (chars : string) (v1 v2 : float) :
  Exact.le v1 v2 = true ->
  exists i1 i2,
    Worker.charIndex chars v1 = IInt i1
    /\ Worker.charIndex chars v2 = IInt i2
    /\ i1 <= i2.
Proof.
  unfold Exact.le.
  destruct (OpacitySpec.dyadic v1) as [[n1 k1]|] eqn:H1; [|discriminate].
  destruct (OpacitySpec.dyadic v2) as [[n2 k2]|] eqn:H2; [|discriminate].
  intros Hle. apply Z.leb_le in Hle. unfold Worker.charIndex.
  set (n := Z.of_nat (String.length chars)).
  destruct (floor_times_dyadic v1 n1 k1 n H1) as [Hk1 ->].
  destruct (floor_times_dyadic v2 n2 k2 n H2) as [Hk2 ->].
  cbn [int_min]. eexists. eexists. split; [reflexivity|].
  split; [reflexivity|].
  pose proof (floor_fraction_le n1 k1 n2 k2 n Hk1 Hk2 ltac:(lia) Hle).
  lia.
Qed.

Lemma charIndex_monotone_witness :
  exists i1 i2,
    Worker.charIndex "@#. " 0.25 = IInt i1
    /\ Worker.charIndex "@#. " 0.5 = IInt i2
    /\ i1 <= i2.
Proof.
  apply (charIndex_monotone "@#. " 0.25 0.5). vm_compute. reflexivity.
Defined.
(** ** The optimised worker without WebAssembly against the first worker *)

Section FallbackColours.

Import Worker Spec.

(** Below zero (or at NaN) the negation is the absolute value. *)
Lemma abs_opp_negative (x : float) :
  (0 <=? x)%float = false -> abs x = (- x)%float.
Proof.
  intros H. apply Prim2SF_inj. rewrite abs_spec, opp_spec.
  rewrite leb_spec in H. change (Prim2SF 0) with (S754_zero false) in H.
  destruct (Prim2SF x) as [s|s| |s m e]; cbn in *;
    try discriminate; try reflexivity;
    destruct s; cbn in *; try discriminate; reflexivity.
Qed.

Lemma blend_factor_eq (blend charBrightness : float) :
  Fallback.blend_factor blend charBrightness
  = Worker.blend_factor blend charBrightness.
Proof.
  unfold Fallback.blend_factor, Worker.blend_factor. cbn zeta.
  destruct (0 <=? (blend - 0.5) * 2)%float eqn:Hsign; [reflexivity|].
  now rewrite abs_opp_negative.
Qed.

(** The first worker computes the same colour, then clamps and
    prints it. *)
Lemma cell_color_split (pixels : PixelBuffer) (width : nat) (bd : list float)
  (settings : Settings) (palette : option (list Color)) (y x : nat) :
  cell_color pixels width bd settings palette y x
  = rgb ← Fallback.cell_rgb pixels bd settings palette (y * width + x);
    Returned (getColorString (clamp255 rgb.1.1) (clamp255 rgb.1.2)
                (clamp255 rgb.2)
                (cell_opacity settings (f32_at bd (y * width + x)))).
Proof.
  unfold cell_color, Fallback.cell_rgb. cbn zeta.
  destruct palette as [palette|].
  - destruct (nearestColor _ _ _ palette) as [[[n0 n1] n2]|]; [|reflexivity].
    cbn [mbind outcome_bind].
    destruct (negb (saturation settings =? 1)%float);
      [destruct (saturate _ _ _ _) as [[r' g'] b']|];
      destruct (negb (blend settings =? 0.5)%float);
      rewrite ?blend_factor_eq; reflexivity.
  - cbn [mbind outcome_bind].
    destruct (negb (saturation settings =? 1)%float);
      [destruct (saturate _ _ _ _) as [[r' g'] b']|];
      destruct (negb (blend settings =? 0.5)%float);
      rewrite ?blend_factor_eq; reflexivity.
Qed.

Lemma cell_rgb_returns (pixels : PixelBuffer) (bd : list float)
  (settings : Settings) (palette : option (list Color)) (idx : nat) :
  palette <> Some [] ->
  exists rgb, Fallback.cell_rgb pixels bd settings palette idx = Returned rgb.
Proof.
  intros Hpalette. unfold Fallback.cell_rgb. cbn zeta.
  destruct palette as [palette|].
  - destruct (nearestColor _ _ _ palette) as [[[n0 n1] n2]|] eqn:Hnear.
    + cbn [mbind outcome_bind].
      destruct (negb (saturation settings =? 1)%float);
        [destruct (saturate _ _ _ _) as [[r' g'] b']|];
        destruct (negb (blend settings =? 0.5)%float); eauto.
    + apply nearestColor_member in Hnear. congruence.
  - cbn [mbind outcome_bind].
    destruct (negb (saturation settings =? 1)%float);
      [destruct (saturate _ _ _ _) as [[r' g'] b']|];
      destruct (negb (blend settings =? 0.5)%float); eauto.
Qed.

Lemma store_u8_byte (r : intnum) : is_byte (Fallback.store_u8 r).
Proof.
  unfold Fallback.store_u8, is_byte. destruct r as [|[]|z]; try lia.
  destruct (Z.ltb_spec z 0); [lia|]. destruct (Z.ltb_spec 255 z); lia.
Qed.

(** A channel that is a number prints the same in both workers. *)
Lemma store_u8_text (r : intnum) :
  r <> INaN ->
  intnum_to_string (clamp255 r) = Z_to_string (Fallback.store_u8 r).
Proof.
  intros Hr. destruct r as [|[]|z]; try congruence; try reflexivity.
  cbn [clamp255 Fallback.store_u8 intnum_to_string]. f_equal.
  destruct (Z.ltb_spec z 0); [lia|]. destruct (Z.ltb_spec 255 z); lia.
Qed.

Lemma precompute_lookup (pixels : PixelBuffer) (bd : list float)
  (settings : Settings) (palette : option (list Color)) (idxs : list nat) :
  forall colors,
    Fallback.precompute pixels bd settings palette idxs = Returned colors ->
    forall k idx,
      idxs !! k = Some idx ->
      exists rgb,
        Fallback.cell_rgb pixels bd settings palette idx = Returned rgb
        /\ colors !! k = Some (Fallback.stored_cell bd settings rgb idx).
Proof.
  induction idxs as [|i idxs IH]; intros colors Hpre k idx Hk;
    [discriminate|].
  cbn [Fallback.precompute] in Hpre.
  destruct (Fallback.cell_rgb pixels bd settings palette i) as [rgb|e] eqn:Hrgb;
    [|discriminate].
  cbn [mbind outcome_bind] in Hpre.
  destruct (Fallback.precompute pixels bd settings palette idxs)
    as [cells|e]; [|discriminate].
  cbn [mbind outcome_bind] in Hpre. injection Hpre as <-.
  destruct k as [|k].
  - injection Hk as <-. eauto.
  - cbn [lookup list_lookup] in *. now apply (IH cells).
Qed.

Lemma precompute_returns (pixels : PixelBuffer) (bd : list float)
  (settings : Settings) (palette : option (list Color)) (idxs : list nat) :
  palette <> Some [] ->
  exists colors,
    Fallback.precompute pixels bd settings palette idxs = Returned colors.
Proof.
  intros Hpalette. induction idxs as [|i idxs [cells IH]];
    cbn [Fallback.precompute]; [eauto|].
  destruct (cell_rgb_returns pixels bd settings palette i Hpalette)
    as [rgb ->].
  cbn [mbind outcome_bind]. rewrite IH. cbn [mbind outcome_bind]. eauto.
Qed.

End FallbackColours.
Section FallbackMarkup.

Import Worker Spec MarkupAgreement.

Lemma get_append (a b : string) (i : nat) :
  String.get i (a ++ b)
  = if (i <? String.length a)%nat then String.get i a
    else String.get (i - String.length a) b.
Proof.
  rewrite !get_lookup, chars_append.
  destruct (Nat.ltb_spec i (String.length a)).
  - now rewrite lookup_app_l by (now rewrite length_chars).
  - rewrite lookup_app_r by (now rewrite length_chars).
    now rewrite length_chars.
Qed.

(** The character of column [x] of row [y] sits at offset
    [y * (width + 1) + x] of the grid text. *)
Lemma get_grid_text (width : nat) (rows : list string) :
  Forall (fun row => String.length row = width) rows ->
  forall y row x,
    rows !! y = Some row -> (x < width)%nat ->
    String.get (y * (width + 1) + x) (grid_text rows) = String.get x row.
Proof.
  induction 1 as [|row0 rows Hlen _ IH]; intros y row x Hy Hx;
    [discriminate|].
  unfold grid_text in *. cbn [map]. rewrite join_cons, get_append.
  rewrite length_append, Hlen. cbn [String.length str1].
  destruct y as [|y].
  - injection Hy as <-. cbn [Nat.mul Nat.add].
    destruct (Nat.ltb_spec x (width + 1)); [|lia].
    rewrite get_append, Hlen.
    destruct (Nat.ltb_spec x width); [reflexivity | lia].
  - cbn [lookup list_lookup] in Hy.
    destruct (Nat.ltb_spec (S y * (width + 1) + x) (width + 1)); [lia|].
    replace (S y * (width + 1) + x - (width + 1))%nat
      with (y * (width + 1) + x)%nat by lia.
    now apply IH.
Qed.

Lemma row_char (width : nat) (row : string) (x : nat) :
  String.length row = width ->
  ~ In newline (list_ascii_of_string row) ->
  (x < width)%nat ->
  exists char, String.get x row = Some char /\ char <> newline.
Proof.
  intros Hlen Hnl Hx. rewrite get_lookup.
  destruct (lookup_lt_is_Some_2 (list_ascii_of_string row) x) as [char Hc];
    [rewrite length_chars; lia|].
  exists char. split; [assumption|]. intros ->. apply Hnl.
  eapply list_elem_of_In, list_elem_of_lookup_2, Hc.
Qed.

Lemma cell_char_grid (width : nat) (rows : list string) (y x : nat)
  (row : string) :
  Forall (fun row => String.length row = width
                     /\ ~ In newline (list_ascii_of_string row)) rows ->
  rows !! y = Some row -> (x < width)%nat ->
  cell_char (split newline (grid_text rows)) y x = String.get x row.
Proof.
  intros Hrows Hy Hx. rewrite split_grid_text.
  - unfold cell_char.
    rewrite lookup_app_l by (eapply lookup_lt_Some, Hy). rewrite Hy.
    destruct row; [|reflexivity].
    pose proof (Forall_lookup_1 _ _ _ _ Hrows Hy) as [Hlen _].
    simpl in Hlen. lia.
  - eapply Forall_impl; [exact Hrows|]. now intros r [_ H].
Qed.

Lemma escapeChar_escapeHtml (c : ascii) :
  WasmWorker.escapeChar c = escapeHtml (str1 c).
Proof.
  cbn [escapeHtml str1]. rewrite append_nil_r.
  destruct c as [[] [] [] [] [] [] [] []]; reflexivity.
Qed.

Lemma flush_same_markup (st st' : Scan) :
  same_markup st st' ->
  join (WasmWorker.flush st) = join (flush id st').
Proof.
  intros (Hcolor & Hchars & Hparts). unfold WasmWorker.flush, flush.
  rewrite <- Hcolor. destruct (currentColor st) as [color|]; [|assumption].
  rewrite !join_app, Hparts, <- Hchars. f_equal.
Qed.

Lemma markup_step_same (st st' : Scan) (cache : gmap Z string) (r g b : Z)
  (o : float) (char : ascii) :
  same_markup st st' ->
  same_markup (fst (WasmWorker.markup_step st cache r g b o char))
    (add_cell id st' (fst (WasmWorker.getColorString cache r g b o)) char)
  /\ snd (WasmWorker.markup_step st cache r g b o char)
     = snd (WasmWorker.getColorString cache r g b o).
Proof.
  intros Hsame. pose proof Hsame as (Hcolor & Hchars & Hparts).
  unfold WasmWorker.markup_step, add_cell.
  destruct (WasmWorker.getColorString cache r g b o) as [colorStr cache'].
  cbn [fst snd]. rewrite <- Hcolor. split; [|reflexivity].
  destruct (bool_decide (currentColor st = Some colorStr)).
  - repeat split; cbn [currentColor currentChars parts]; try assumption.
    now rewrite Hchars, escapeChar_escapeHtml.
  - repeat split; cbn [currentColor currentChars parts].
    + apply escapeChar_escapeHtml.
    + now apply flush_same_markup.
Qed.

End FallbackMarkup.
Section Agreement.

Import Worker Spec MarkupAgreement.

Variables (pixels : PixelBuffer) (width : nat) (bd : list float)
  (settings : Settings) (palette : option (list Color))
  (rows : list string) (colors : list (Z * Z * Z * float)).

Hypothesis Hrows :
  Forall (fun row => String.length row = width
                     /\ ~ In newline (list_ascii_of_string row)) rows.
Hypothesis Hbase : baseOpacity settings = 1%float.
Hypothesis Hbo : brightnessOpacity settings = false.
Hypothesis Hcolors :
  Fallback.precompute pixels bd settings palette (seq 0 (width * length rows))
  = Returned colors.
Hypothesis Hnumbers :
  forall idx r g b,
    (idx < width * length rows)%nat ->
    Fallback.cell_rgb pixels bd settings palette idx = Returned (r, g, b) ->
    r <> INaN /\ g <> INaN /\ b <> INaN.

(** One cell: the two inner loops take the same step. *)
Lemma step_agrees (y x : nat) (row : string) (st st' : Scan)
  (cache : gmap Z string) :
  rows !! y = Some row -> (x < width)%nat ->
  same_markup st st' -> OpacitySpec.cache_sound cache ->
  exists st1',
    color_step (split newline (grid_text rows)) pixels width bd settings
      palette y st' x = Returned st1'
    /\ same_markup
         (fst (Fallback.html_step (grid_text rows) colors width y (st, cache) x))
         st1'
    /\ OpacitySpec.cache_sound
         (snd (Fallback.html_step (grid_text rows) colors width y (st, cache) x)).
Proof.
  intros Hy Hx Hsame Hsound.
  pose proof (Forall_lookup_1 _ _ _ _ Hrows Hy) as [Hlen Hnl].
  destruct (row_char width row x Hlen Hnl Hx) as (char & Hchar & Hne).
  assert (Hidx : (y * width + x < width * length rows)%nat).
  { apply lookup_lt_Some in Hy. nia. }
  destruct (precompute_lookup _ _ _ _ _ _ Hcolors (y * width + x)%nat
              (y * width + x)%nat) as ([[r g] b] & Hrgb & Hlook).
  { now rewrite lookup_seq_lt. }
  destruct (Hnumbers _ r g b Hidx Hrgb) as (Hr & Hg & Hb).
  assert (Hopacity : cell_opacity settings (f32_at bd (y * width + x)) = 1%float)
    by (unfold cell_opacity; now rewrite Hbo, Hbase).
  unfold color_step.
  rewrite (cell_char_grid width rows y x row Hrows Hy Hx), Hchar.
  rewrite cell_color_split, Hrgb. cbn [mbind outcome_bind fst snd].
  rewrite Hopacity. eexists. split; [reflexivity|].
  unfold Fallback.html_step. cbn zeta.
  rewrite (get_grid_text width rows) with (row := row);
    [|eapply Forall_impl; [exact Hrows|]; now intros ? [? _]
     |assumption|assumption].
  rewrite Hchar. destruct (Ascii.eqb_spec char newline) as [|_]; [contradiction|].
  rewrite Hlook. cbn [Fallback.stored_cell fst snd]. rewrite Hopacity.
  change (fround 1) with 1%float.
  destruct (getColorString_sound cache (Fallback.store_u8 r)
              (Fallback.store_u8 g) (Fallback.store_u8 b) 100 1 Hsound
              (store_u8_byte r) (store_u8_byte g) (store_u8_byte b)
              round_times_one ltac:(lia)) as [Hstr Hsound'].
  destruct (markup_step_same st st' cache (Fallback.store_u8 r)
              (Fallback.store_u8 g) (Fallback.store_u8 b) 1 char Hsame)
    as [Hstep Hcache].
  rewrite Hcache. split; [|exact Hsound'].
  rewrite Hstr in Hstep.
  replace (getColorString (clamp255 r) (clamp255 g) (clamp255 b) 1)
    with (WasmWorker.color_string (IInt 100) (Fallback.store_u8 r)
            (Fallback.store_u8 g) (Fallback.store_u8 b)); [exact Hstep|].
  unfold getColorString, WasmWorker.color_string.
  change (1 <? 1)%float with false. cbn [WasmWorker.below_100].
  change (100 <? 100) with false. cbv iota.
  now rewrite !store_u8_text.
Qed.

(** One row: the two inner loops end in states that stand for the
    same markup. *)
Lemma row_agrees (y : nat) (row : string) :
  rows !! y = Some row ->
  forall xs st st' cache,
    Forall (fun x => (x < width)%nat) xs ->
    same_markup st st' -> OpacitySpec.cache_sound cache ->
    exists st1',
      for_each (color_step (split newline (grid_text rows)) pixels width bd
                  settings palette y) xs st' = Returned st1'
      /\ same_markup
           (fst (foldl (Fallback.html_step (grid_text rows) colors width y)
                   (st, cache) xs)) st1'
      /\ OpacitySpec.cache_sound
           (snd (foldl (Fallback.html_step (grid_text rows) colors width y)
                   (st, cache) xs)).
Proof.
  intros Hy. induction xs as [|x xs IH]; intros st st' cache Hxs Hsame Hsound.
  - exists st'. cbn. auto.
  - inversion Hxs as [|? ? Hx Hxs']; subst. cbn [for_each foldl].
    destruct (step_agrees y x row st st' cache Hy Hx Hsame Hsound)
      as (st1' & -> & Hsame1 & Hsound1).
    cbn [mbind outcome_bind].
    destruct (Fallback.html_step (grid_text rows) colors width y (st, cache) x)
      as [st1 cache1].
    now apply IH.
Qed.

Lemma color_row_eq (lines : list string) (parts : list string) (y : nat) :
  color_row lines pixels width bd settings palette parts y
  = st ← for_each (color_step lines pixels width bd settings palette y)
           (seq 0 width)
           {| currentColor := None; currentChars := EmptyString;
              parts := parts |};
    Returned (end_row id st).
Proof. reflexivity. Qed.

Lemma html_row_eq (ascii : string) (parts : list string)
  (cache : gmap Z string) (y : nat) :
  Fallback.html_row ascii colors width (parts, cache) y
  = (WasmWorker.flush
       (fst (foldl (Fallback.html_step ascii colors width y)
               ({| currentColor := None; currentChars := EmptyString;
                   parts := parts |}, cache) (seq 0 width)))
     ++ [str1 newline],
     snd (foldl (Fallback.html_step ascii colors width y)
            ({| currentColor := None; currentChars := EmptyString;
                parts := parts |}, cache) (seq 0 width))).
Proof.
  unfold Fallback.html_row. cbn [fst snd].
  now destruct (foldl _ _ _).
Qed.

(** The rows: the two outer loops push parts that join to the same
    text. *)
Lemma rows_agree (ys : list nat) :
  Forall (fun y => (y < length rows)%nat) ys ->
  forall partsW partsF cache,
    join partsF = join partsW -> OpacitySpec.cache_sound cache ->
    exists partsW',
      for_each (color_row (split newline (grid_text rows)) pixels width bd
                  settings palette) ys partsW = Returned partsW'
      /\ join (fst (foldl (Fallback.html_row (grid_text rows) colors width)
                      (partsF, cache) ys)) = join partsW'
      /\ OpacitySpec.cache_sound
           (snd (foldl (Fallback.html_row (grid_text rows) colors width)
                   (partsF, cache) ys)).
Proof.
  induction 1 as [|y ys Hy _ IH]; intros partsW partsF cache Hjoin Hsound.
  - exists partsW. cbn. auto.
  - cbn [for_each foldl]. rewrite color_row_eq, html_row_eq.
    destruct (lookup_lt_is_Some_2 rows y Hy) as [row Hrow].
    destruct (row_agrees y row Hrow (seq 0 width)
                {| currentColor := None; currentChars := EmptyString;
                   parts := partsF |}
                {| currentColor := None; currentChars := EmptyString;
                   parts := partsW |} cache)
      as (st1' & Hloop & Hsame & Hsound1).
    + apply List.Forall_forall. intros x Hx. apply in_seq in Hx. lia.
    + repeat split; assumption.
    + assumption.
    + rewrite Hloop. cbn [mbind outcome_bind].
      apply IH; [|assumption].
      unfold end_row. rewrite !join_app. f_equal.
      now apply flush_same_markup.
Qed.

End Agreement.
Section NeutralColours.

Import Worker Spec.

(** With saturation 1 and blend 0.5 the colour of a cell is a palette
    entry or the pixel itself: a number, when the buffer has the
    pixel. *)
Lemma cell_rgb_numbers (pixels : PixelBuffer) (bd : list float)
  (settings : Settings) (palette : option (list Color)) (idx : nat)
  (r g b : intnum) :
  (saturation settings =? 1)%float = true ->
  (blend settings =? 0.5)%float = true ->
  (idx * 4 + 2 < length pixels)%nat ->
  Fallback.cell_rgb pixels bd settings palette idx = Returned (r, g, b) ->
  r <> INaN /\ g <> INaN /\ b <> INaN.
Proof.
  intros Hsat Hblend Hlen. unfold Fallback.cell_rgb. cbn zeta.
  rewrite Hsat, Hblend. cbn [negb].
  destruct palette as [palette|].
  - destruct (nearestColor _ _ _ palette) as [[[n0 n1] n2]|]; [|discriminate].
    cbn [mbind outcome_bind]. intros [= <- <- <-]. repeat split; discriminate.
  - cbn [mbind outcome_bind]. unfold px.
    destruct (lookup_lt_is_Some_2 pixels (idx * 4)) as [v0 ->]; [lia|].
    destruct (lookup_lt_is_Some_2 pixels (idx * 4 + 1)) as [v1 ->]; [lia|].
    destruct (lookup_lt_is_Some_2 pixels (idx * 4 + 2)) as [v2 ->]; [lia|].
    intros [= <- <- <-]. repeat split; discriminate.
Qed.

Lemma worker_colour_mode (ascii : string) (pixels : PixelBuffer)
  (width height : nat) (bd : list float) (settings : Settings)
  (palette : option (list Color)) :
  colorMode settings <> monochrome ->
  Worker.applyColorToAscii ascii pixels width height bd settings palette
  = parts ← for_each
              (color_row (split newline ascii) pixels width bd settings palette)
              (seq 0 height) [];
    Returned (Some (join parts)).
Proof.
  intros Hmode. unfold Worker.applyColorToAscii.
  destruct (colorMode settings); [congruence | reflexivity..].
Qed.

Lemma fallback_colour_mode (cache : gmap Z string) (ascii : string)
  (pixels : PixelBuffer) (width height : nat) (bd : list float)
  (settings : Settings) (palette : option (list Color)) :
  colorMode settings <> monochrome ->
  Fallback.applyColorToAscii cache ascii pixels width height bd settings palette
  = colors ← Fallback.precompute pixels bd settings palette
               (seq 0 (width * height));
    Returned
      (Some (join (fst (foldl (Fallback.html_row ascii colors width)
                          ([], cache) (seq 0 height)))),
       snd (foldl (Fallback.html_row ascii colors width) ([], cache)
              (seq 0 height))).
Proof.
  intros Hmode. unfold Fallback.applyColorToAscii.
  destruct (colorMode settings); [congruence|..];
    destruct (Fallback.precompute _ _ _ _ _) as [colors|e]; try reflexivity;
    cbn [mbind outcome_bind]; now destruct (foldl _ _ _).
Qed.

End NeutralColours.

(** X25.  Without its WebAssembly module the optimised worker builds
    the same markup as the first worker whenever the cells are opaque
    (base opacity 1, no brightness-driven opacity): for every grid
    text, palette that is not empty, pixel buffer and settings such
    that no colour channel of a cell is NaN, and every sound state of
    the colour cache, the two [applyColorToAscii] return the same
    value, and the cache stays sound.  No channel is NaN, in
    particular, with saturation 1, blend 0.5 and a buffer that holds
    the pixel of every cell. *)
Theorem fallback_markup_agrees :
  (forall (cache : gmap Z string) (ascii : string)
          (pixels : Worker.PixelBuffer) (width height : nat)
          (bd : list float) (settings : Worker.Settings)
          (palette : option (list Worker.Color)),
     OpacitySpec.cache_sound cache ->
     Spec.is_grid ascii width height ->
     Worker.baseOpacity settings = 1%float ->
     Worker.brightnessOpacity settings = false ->
     palette <> Some [] ->
     (forall idx r g b,
        (idx < width * height)%nat ->
        Fallback.cell_rgb pixels bd settings palette idx = Returned (r, g, b) ->
        r <> INaN /\ g <> INaN /\ b <> INaN) ->
     exists html cache',
       Worker.applyColorToAscii ascii pixels width height bd settings palette
       = Returned html
       /\ Fallback.applyColorToAscii cache ascii pixels width height bd
            settings palette
          = Returned (html, cache')
       /\ OpacitySpec.cache_sound cache')
  /\ (forall (pixels : Worker.PixelBuffer) (bd : list float)
             (settings : Worker.Settings)
             (palette : option (list Worker.Color)) (idx : nat) r g b,
        (Worker.saturation settings =? 1)%float = true ->
        (Worker.blend settings =? 0.5)%float = true ->
        (idx * 4 + 2 < length pixels)%nat ->
        Fallback.cell_rgb pixels bd settings palette idx = Returned (r, g, b) ->
        r <> INaN /\ g <> INaN /\ b <> INaN).
Proof.
  split; [|apply cell_rgb_numbers].
  intros cache ascii pixels width height bd settings palette Hsound
    (rows & Hheight & Hrows & ->) Hbase Hbo Hpalette Hnumbers.
  subst height.
  assert (Worker.colorMode settings = Worker.monochrome
          \/ Worker.colorMode settings <> Worker.monochrome) as [Hmode|Hmode]
    by (destruct (Worker.colorMode settings); auto; right; discriminate).
  - exists None, cache.
    unfold Worker.applyColorToAscii, Fallback.applyColorToAscii.
    rewrite Hmode. auto.
  - destruct (precompute_returns pixels bd settings palette
                (seq 0 (width * length rows)) Hpalette) as [colors Hcolors].
    destruct (rows_agree pixels width bd settings palette rows colors Hrows
                Hbase Hbo Hcolors Hnumbers (seq 0 (length rows)))
      with (partsW := @nil string) (partsF := @nil string) (cache := cache)
      as (partsW & Hloop & Hjoin & Hsound');
      [apply List.Forall_forall; intros y Hy; apply in_seq in Hy; lia
      |reflexivity|assumption|].
    rewrite worker_colour_mode, fallback_colour_mode by assumption.
    rewrite Hloop, Hcolors. cbn [mbind outcome_bind]. rewrite Hjoin. eauto.
Qed.

Lemma fallback_markup_agrees_witness :
  exists html cache',
    Worker.applyColorToAscii ("@" ++ str1 newline) [10; 20; 30; 255] 1 1
      [0%float] (neutral "@" Worker.truecolor) None
    = Returned html
    /\ Fallback.applyColorToAscii ∅ ("@" ++ str1 newline) [10; 20; 30; 255]
         1 1 [0%float] (neutral "@" Worker.truecolor) None
       = Returned (html, cache')
    /\ OpacitySpec.cache_sound cache'.
Proof.
  destruct fallback_markup_agrees as [Hagree Hnumbers].
  apply (Hagree ∅ ("@" ++ str1 newline)%string [10; 20; 30; 255] 1%nat 1%nat
           [0%float] (neutral "@" Worker.truecolor) None).
  - apply cache_sound_empty.
  - exists ["@"%string]. split; [reflexivity|]. split; [|reflexivity].
    constructor; [|constructor]. split; [reflexivity|].
    simpl. intros [H|[]]. discriminate.
  - reflexivity.
  - reflexivity.
  - discriminate.
  - intros idx r g b Hidx. apply Hnumbers; [reflexivity | reflexivity|].
    simpl. lia.
Defined.
Section WeightedMean.

Import Worker PaletteSpec.

(** The fourth sum of a bucket is its total weight. *)
Lemma bucket_sums_total (colors : list Weighted) :
  snd (bucket_sums colors) = total_weight colors.
Proof.
  unfold bucket_sums, total_weight.
  assert (H : forall tr tg tb total,
            snd (foldl (fun '(tr, tg, tb, total) c =>
                          let '(r, g, b) := rgb c in
                          (tr + r * weight c, tg + g * weight c,
                           tb + b * weight c, total + weight c))
                   (tr, tg, tb, total) colors)
            = total + foldr (fun c acc => weight c + acc) 0 colors).
  { induction colors as [|c colors IH]; intros tr tg tb total;
      cbn [foldl foldr]; [cbn; lia|].
    destruct (rgb c) as [[r g] b]. rewrite IH. lia. }
  now rewrite H.
Qed.

Lemma total_weight_length (colors : list Weighted) :
  Forall counted colors -> Z.of_nat (length colors) <= total_weight colors.
Proof.
  unfold total_weight. induction 1 as [|c colors [_ Hc] _ IH];
    cbn [length foldr]; lia.
Qed.

End WeightedMean.

(** ** From the dispatcher to the worker *)

Section EndToEnd.

Import Worker Main HandlerSpec.

Lemma convertToAscii_message (c : Controls) (d : Dispatcher) (e : Message) :
  snd (convertToAscii c d) = Some e ->
  exists img,
    currentImage d = Some img
    /\ e = Convert (fst (img (charsPerRow c))) (charsPerRow c)
             (snd (img (charsPerRow c))) (worker_settings c) ANSI_256.
Proof.
  unfold convertToAscii. destruct (currentImage d) as [img|]; [|discriminate].
  destruct (asciiWorker d); [|discriminate].
  destruct (workerBusy d); [discriminate|].
  destruct (img (charsPerRow c)) as [pixels height] eqn:Himg.
  cbn [snd]. intros [= <-]. exists img. rewrite Himg. auto.
Qed.

Lemma colorMode_worker_settings (c : Controls) :
  colorMode (worker_settings c) = colorModeValue c.
Proof. unfold worker_settings. now destruct (monoFg c) as [[r g] b]. Qed.

End EndToEnd.

(** X27.  [brightnessMapping] returns one luminance value per cell:
    for every pixel buffer (also one too short for the grid), size and
    settings, [brightnessValues] has exactly [width * height] entries,
    and [applyContrast] never changes the length of the array it is
    given. *)
Theorem brightnessMapping_one_value_per_cell :
  (forall pixels width height settings,
     length (snd (Worker.brightnessMapping pixels width height settings))
     = (width * height)%nat)
  /\ (forall brightness contrast useHistogram,
        length (Worker.applyContrast brightness contrast useHistogram)
        = length brightness).
Proof.
  split.
  - intros. cbn [Worker.brightnessMapping snd].
    apply length_normalized_brightness.
  - intros. apply length_applyContrast.
Qed.

(** X28.  Every request that the dispatcher posts is answered: a
    ['convert'] message built by [convertToAscii] in the monochrome,
    true-colour or ANSI mode, or in an adaptive mode for at least one
    colour when the scaled image has pixels, makes the worker post one
    result without an error, with the width asked for, after any
    sequence of well-formed messages. *)
Theorem dispatched_request_is_answered (c : Main.Controls)
  (d : Main.Dispatcher) (e : Worker.Message) (msgs : list Worker.Message) :
  snd (Main.convertToAscii c d) = Some e ->
  (forall numColors img,
     Main.colorModeValue c = Worker.adaptive numColors ->
     Main.currentImage d = Some img ->
     (1 <= numColors)%nat /\ fst (img (Main.charsPerRow c)) <> []) ->
  Forall HandlerSpec.well_formed msgs ->
  exists r,
    snd (Worker.onmessage (HandlerSpec.run None msgs) e) = Returned (Some r)
    /\ Worker.res_width r = Main.charsPerRow c.
Proof.
  intros Hpost Hadaptive Hmsgs.
  apply convertToAscii_message in Hpost as (img & Himg & ->).
  destruct (onmessage_answers msgs (fst (img (Main.charsPerRow c)))
              (Main.charsPerRow c) (snd (img (Main.charsPerRow c)))
              (Main.worker_settings c) Main.ANSI_256 Hmsgs)
    as (r & Hr & _ & Hw & _).
  - cbn [HandlerSpec.well_formed]. rewrite colorMode_worker_settings.
    destruct (Main.colorModeValue c) as [| | |k] eqn:Hmode; try exact I.
    + discriminate.
    + destruct (Hadaptive k img eq_refl Himg). now split.
  - eauto.
Qed.

Lemma dispatched_request_is_answered_witness :
  exists r,
    snd (Worker.onmessage (HandlerSpec.run None [])
           (Worker.Convert [0; 0; 0; 255] 1 1
              (Main.worker_settings empty_ramp_controls) Main.ANSI_256))
    = Returned (Some r)
    /\ Worker.res_width r = Main.charsPerRow empty_ramp_controls.
Proof.
  apply (dispatched_request_is_answered empty_ramp_controls idle_dispatcher
           (Worker.Convert [0; 0; 0; 255] 1 1
              (Main.worker_settings empty_ramp_controls) Main.ANSI_256) []).
  - reflexivity.
  - intros numColors img Hmode. discriminate.
  - constructor.
Defined.

(** X29.  Asked for a single colour, both versions of
    [quantizeColors] return the weighted mean of the sampled colours:
    when the samples hold more than one colour, the palette is the one
    colour whose channels are the rounded quotients of the weighted
    channel sums by the number of samples. *)
Theorem single_colour_palette_is_mean (pixels : Worker.PixelBuffer)
  (saturation : float) :
  (1 < length (Worker.colorList_of pixels saturation))%nat ->
  exists tr tg tb,
    Worker.bucket_sums (Worker.colorList_of pixels saturation)
    = (tr, tg, tb, Z.of_nat (length (Spec.sampled_colors pixels saturation)))
    /\ Worker.quantizeColors pixels 1 saturation
       = [(Worker.round_div tr
             (Z.of_nat (length (Spec.sampled_colors pixels saturation))),
           Worker.round_div tg
             (Z.of_nat (length (Spec.sampled_colors pixels saturation))),
           Worker.round_div tb
             (Z.of_nat (length (Spec.sampled_colors pixels saturation))))]
    /\ Main.quantizeColors pixels 1 saturation
       = Worker.quantizeColors pixels 1 saturation.
Proof.
  intros Hlen.
  pose proof (colorList_total pixels saturation) as Htotal.
  pose proof (bucket_sums_total (Worker.colorList_of pixels saturation))
    as Hsums.
  unfold Worker.quantizeColors, Main.quantizeColors.
  destruct (Nat.leb_spec (length (Worker.colorList_of pixels saturation)) 1);
    [lia|].
  destruct (length (Worker.colorList_of pixels saturation)) as [|fuel] eqn:Hl;
    [lia|].
  cbn [Worker.medianCut Main.medianCut Worker.depth_for].
  change (Worker.is_zero_depth (IInt (Z.log2_up (Z.of_nat 1)))) with true.
  cbn [orb]. unfold Worker.bucket_average, Main.bucket_average.
  destruct (Worker.bucket_sums (Worker.colorList_of pixels saturation))
    as [[[tr tg] tb] total].
  cbn [snd] in Hsums. rewrite Htotal in Hsums. subst total.
  exists tr, tg, tb. split; [reflexivity|].
  destruct (Z.eqb_spec
              (Z.of_nat (length (Spec.sampled_colors pixels saturation))) 0)
    as [Hzero|_].
  - exfalso. rewrite <- Htotal in Hzero.
    pose proof (total_weight_length (Worker.colorList_of pixels saturation)
                  (colorList_counted pixels saturation)). lia.
  - split; reflexivity.
Qed.

Lemma single_colour_palette_is_mean_witness :
  exists tr tg tb,
    Worker.bucket_sums (Worker.colorList_of tied_pixels 1)
    = (tr, tg, tb, Z.of_nat (length (Spec.sampled_colors tied_pixels 1)))
    /\ Worker.quantizeColors tied_pixels 1 1
       = [(Worker.round_div tr
             (Z.of_nat (length (Spec.sampled_colors tied_pixels 1))),
           Worker.round_div tg
             (Z.of_nat (length (Spec.sampled_colors tied_pixels 1))),
           Worker.round_div tb
             (Z.of_nat (length (Spec.sampled_colors tied_pixels 1))))]
    /\ Main.quantizeColors tied_pixels 1 1
       = Worker.quantizeColors tied_pixels 1 1.
Proof.
  apply (single_colour_palette_is_mean tied_pixels 1). vm_compute. lia.
Defined.
